(** * kicad-dxf-tools: segment extraction, gap detection and gap healing

    A shallow embedding of the DXF reconstruction pipeline of
    [kicad_dxf_tools.py] (class [KicadDxfApp]):

    - [extract_segments_from_dxf]   (source lines 663-768)
    - [find_close_points]           (source lines 880-897)
    - [convert_segments_to_entities] (source lines 577-661)
    - [heal_dxf_gaps]               (source lines 770-878)
    - [load_dxf_with_healing]       (source lines 519-575)

    followed by the loading dialog, the selection handlers, the net
    dropdown and the makers of tracks and zones.

    Python's [float] arithmetic is reached through the interface [Arith];
    its instance [float_arith] is IEEE-754 binary64 (what CPython runs),
    its instance [R_arith] is exact real arithmetic.  The libraries the
    program calls but does not contain (ezdxf's file reader, shapely's
    geometry operations, the C library's [cos], [sin] and [pow]) are
    parameters; where Python turns their failure into an exception
    ([math.cos] of an infinite angle, an overflowing [** 2]) the embedding
    raises it too. *)

From Stdlib Require Import Reals Lra.
From Stdlib Require Import String.
From Stdlib Require Import ZArith List Bool Arith Lia.
From Stdlib Require Import Uint63 PrimFloat.
From Stdlib Require Import Permutation Sorted.
From Stdlib Require FloatAxioms FloatOps SpecFloat.
Import ListNotations.

Close Scope R_scope.
Local Open Scope nat_scope.
Local Open Scope list_scope.
Set Warnings "-inexact-float".

(* ================================================================== *)
(** ** Exceptions *)

(** A Python exception, with its message. *)
Inductive exn : Type := Exception (msg : string).

(** The outcome of a call that may raise. *)
Inductive result (A : Type) : Type :=
| Returned (a : A)
| Raised (e : exn).

Arguments Returned {A} a.
Arguments Raised {A} e.

Definition bind {A B : Type} (c : result A) (k : A -> result B) : result B :=
  match c with
  | Returned a => k a
  | Raised e => Raised e
  end.

Notation "x <- c ;; k" := (bind c (fun x => k))
  (at level 61, c at next level, right associativity).

(** [try: c except Exception: handler]. *)
Definition try_except {A : Type} (c : result A) (handler : exn -> result A)
  : result A :=
  match c with
  | Returned a => Returned a
  | Raised e => handler e
  end.

(** A list comprehension whose element expression may raise. *)
Fixpoint map_raising {A B : Type} (f : A -> result B) (l : list A)
  : result (list B) :=
  match l with
  | [] => Returned []
  | a :: l' =>
      b <- f a ;;
      bs <- map_raising f l' ;;
      Returned (b :: bs)
  end.

(** A loop that extends a list with what its body yields; the body may
    raise, which ends the loop. *)
Fixpoint flat_map_raising {A B : Type} (f : A -> result (list B)) (l : list A)
  : result (list B) :=
  match l with
  | [] => Returned []
  | a :: l' =>
      bs <- f a ;;
      rest <- flat_map_raising f l' ;;
      Returned (bs ++ rest)
  end.

(* ================================================================== *)
(** ** Numbers *)

(** The operations the pipeline performs on Python floats.  [num_of_int]
    is the implicit [int] to [float] conversion of mixed expressions such
    as [i * angle_step]; [lit_0_5] and [lit_0_0005] are the two float
    literals of the source ([0.5], line 868, and [0.0005], line 812). *)
Class Arith (T : Type) : Type := {
  num_add : T -> T -> T;
  num_sub : T -> T -> T;
  num_mul : T -> T -> T;
  num_div : T -> T -> T;
  num_lt : T -> T -> bool;
  num_sqrt : T -> T;
  num_radians : T -> T;
  num_of_int : Z -> T;
  lit_0_5 : T;
  lit_0_0005 : T
}.

(** [math.cos] and [math.sin], where they return. *)
Class Trig (T : Type) : Type := {
  math_cos : T -> T;
  math_sin : T -> T
}.

(** [math.cos(x)] and [math.sin(x)] raise [ValueError] when [x] is
    infinite; [math_domain_error x] tells whether they do. *)
Class TrigDomain (T : Type) : Type := {
  math_domain_error : T -> bool
}.

(** [x ** 2] for a float [x].  CPython hands the operands to the C
    library's [pow] and raises [OverflowError] when the result overflows;
    how the result is rounded is up to that library. *)
Class Power (T : Type) : Type := {
  pow2 : T -> result T
}.

Declare Scope num_scope.
Delimit Scope num_scope with num.
Notation "x + y" := (num_add x y) : num_scope.
Notation "x - y" := (num_sub x y) : num_scope.
Notation "x * y" := (num_mul x y) : num_scope.
Notation "x / y" := (num_div x y) : num_scope.
Notation "x <? y" := (num_lt x y) : num_scope.

(** [float(n)] for a Python integer [n] with [|n| < 2^63], which covers
    the counts and indices the program converts. *)
Definition float_of_Z (z : Z) : float :=
  if (z <? 0)%Z
  then PrimFloat.opp (PrimFloat.of_uint63 (Uint63.of_Z (- z)))
  else PrimFloat.of_uint63 (Uint63.of_Z z).

(** binary64: [math.radians(x)] is [x * (pi / 180.0)] in CPython;
    [math.sqrt] is the correctly rounded square root. *)
#[export] Instance float_arith : Arith float := {|
  num_add := PrimFloat.add;
  num_sub := PrimFloat.sub;
  num_mul := PrimFloat.mul;
  num_div := PrimFloat.div;
  num_lt := PrimFloat.ltb;
  num_sqrt := PrimFloat.sqrt;
  num_radians := fun x => PrimFloat.mul x (PrimFloat.div 3.141592653589793%float 180%float);
  num_of_int := float_of_Z;
  lit_0_5 := 0.5%float;
  lit_0_0005 := 0.0005%float
|}.

Definition Rltb (a b : R) : bool := if Rlt_dec a b then true else false.

(** Exact arithmetic: the same program text read over the reals. *)
#[export] Instance R_arith : Arith R := {|
  num_add := Rplus;
  num_sub := Rminus;
  num_mul := Rmult;
  num_div := Rdiv;
  num_lt := Rltb;
  num_sqrt := R_sqrt.sqrt;
  num_radians := fun x => (x * (PI / 180))%R;
  num_of_int := IZR;
  lit_0_5 := (5 / 10)%R;
  lit_0_0005 := (5 / 10000)%R
|}.

#[export] Instance R_trig : Trig R := {|
  math_cos := Rtrigo_def.cos;
  math_sin := Rtrigo_def.sin
|}.

(** On binary64 the infinite arguments are the two infinities; a NaN
    goes through ([math.cos(nan)] is a NaN). *)
#[export] Instance float_trig_domain : TrigDomain float := {|
  math_domain_error := PrimFloat.is_infinity
|}.

(** No real number is infinite, and no square of one overflows. *)
#[export] Instance R_trig_domain : TrigDomain R := {|
  math_domain_error := fun _ => false
|}.

#[export] Instance R_power : Power R := {|
  pow2 := fun x => Returned (x * x)%R
|}.

(* ================================================================== *)
(** ** Data model *)

(** A point is the pair [(x, y)] the code reads with [p[0]], [p[1]]. *)
Abbreviation Point T := (T * T)%type (only parsing).

(** A segment is the tuple [(start, end)]. *)
Abbreviation Segment T := ((T * T) * (T * T))%type (only parsing).

(** [(point, segment_index, end_type)], built at lines 541-543. *)
Abbreviation EndpointRecord T := ((T * T) * nat * string)%type (only parsing).

(** [(distance, seg1, end1, seg2, end2, pt1, pt2)], line 896. *)
Abbreviation Gap T :=
  (T * nat * string * nat * string * (T * T) * (T * T))%type (only parsing).

(** The DXF entities the program distinguishes by [e.dxftype()]: the four
    it tessellates, old-style [POLYLINE] (tested at line 601) and every
    other type. *)
Inductive Entity (T : Type) : Type :=
| LINE (start end_ : Point T)
| ARC (center : Point T) (radius start_angle end_angle : T)
| CIRCLE (center : Point T) (radius : T)
| LWPOLYLINE (points : list (Point T)) (closed : bool)
| POLYLINE (vertices : list (Point T)) (is_closed : bool)
| OTHER (type_name : string).

Arguments LINE {T} start end_.
Arguments ARC {T} center radius start_angle end_angle.
Arguments CIRCLE {T} center radius.
Arguments LWPOLYLINE {T} points closed.
Arguments POLYLINE {T} vertices is_closed.
Arguments OTHER {T} type_name.

Definition dxftype {T : Type} (e : Entity T) : string :=
  match e with
  | LINE _ _ => "LINE"
  | ARC _ _ _ _ => "ARC"
  | CIRCLE _ _ => "CIRCLE"
  | LWPOLYLINE _ _ => "LWPOLYLINE"
  | POLYLINE _ _ => "POLYLINE"
  | OTHER s => s
  end.

(** [zip(pts, pts[1:])]. *)
Definition zip_next {A : Type} (pts : list A) : list (A * A) :=
  combine pts (tl pts).

(** [enumerate(l)]. *)
Definition enumerate {A : Type} (l : list A) : list (nat * A) :=
  combine (seq 0 (length l)) l.

Definition is_empty {A : Type} (l : list A) : bool :=
  match l with [] => true | _ :: _ => false end.

(* ================================================================== *)
(** ** Segment extraction *)

Section Extraction.
Context {T : Type} {A : Arith T} {Tr : Trig T} {TD : TrigDomain T}.
Local Open Scope num_scope.

(** [(center[0] + radius * cos(angle), center[1] + radius * sin(angle))] *)
Definition point_at (center : Point T) (radius angle : T) : Point T :=
  (fst center + radius * math_cos angle,
   snd center + radius * math_sin angle).

(** The same two assignments where the angle may be infinite: [math.cos]
    then raises before anything is computed. *)
Definition sample_point (center : Point T) (radius angle : T)
  : result (Point T) :=
  if math_domain_error angle
  then Raised (Exception "math domain error")
  else Returned (point_at center radius angle).

(** Lines 696-698: [if end_angle < start_angle: end_angle += 360]. *)
Definition normalize_end (start_angle end_angle : T) : T :=
  if end_angle <? start_angle then end_angle + num_of_int 360 else end_angle.

(** Lines 691-712: the [segments_count + 1] sample points of an arc.  The
    sweep [end_angle - start_angle] of a stored arc can overflow, and the
    angles after the first are then infinite. *)
Definition arc_pts (center : Point T) (radius start_angle end_angle : T)
  : result (list (Point T)) :=
  let end_angle := normalize_end start_angle end_angle in
  let segments_count := 24%nat in
  let angle_step := (end_angle - start_angle) / num_of_int (Z.of_nat segments_count) in
  map_raising
    (fun i : nat =>
       let angle :=
         num_radians (start_angle + num_of_int (Z.of_nat i) * angle_step) in
       sample_point center radius angle)
    (seq 0 (segments_count + 1)%nat).

(** Lines 719-737: the samples of a circle, the first one appended again.
    The angles are the multiples of 10 degrees up to 350, none of them
    infinite, so [math.cos] and [math.sin] return. *)
Definition circle_samples (center : Point T) (radius : T) : list (Point T) :=
  let segments_count := 36%nat in
  let angle_step := num_of_int 360 / num_of_int (Z.of_nat segments_count) in
  map (fun i : nat =>
         let angle := num_radians (num_of_int (Z.of_nat i) * angle_step) in
         point_at center radius angle)
      (seq 0 segments_count).

Definition circle_pts (center : Point T) (radius : T) : list (Point T) :=
  let pts := circle_samples center radius in
  pts ++ firstn 1 pts.

(** Lines 744-752: the branch for [LWPOLYLINE]. *)
Definition lwpolyline_segments (pts : list (Point T)) (closed : bool)
  : list (Segment T) :=
  let points := pts in
  if (1 <? length points)%nat then
    let points :=
      if closed && negb (is_empty points)
      then points ++ firstn 1 points
      else points in
    zip_next points
  else [].

(** What one iteration of the loop at line 667 adds to [segments].  The
    start and end of a [LINE] are indexable vectors, so of lines 676-685 the
    [else] branches apply; [OTHER] stands for every type the loop has no
    branch for.  An exception inside the iteration is printed and the
    entity is passed over (lines 758-761); for an arc it can only come
    before line 715, so nothing of the arc has been added by then. *)
Definition entity_segments (e : Entity T) : list (Segment T) :=
  match e with
  | LINE start end_ => [(start, end_)]
  | ARC center radius start_angle end_angle =>
      match arc_pts center radius start_angle end_angle with
      | Returned arc_pts => zip_next arc_pts
      | Raised _ => []
      end
  | CIRCLE center radius => zip_next (circle_pts center radius)
  | LWPOLYLINE pts closed => lwpolyline_segments pts closed
  | POLYLINE _ _ => []
  | OTHER _ => []
  end.

(** Lines 663-764: the loop over the modelspace. *)
Definition extract_segments_from_dxf (msp : list (Entity T))
  : list (Segment T) :=
  fold_left (fun segments e => segments ++ entity_segments e) msp [].
End Extraction.

(* ================================================================== *)
(** ** Gap detection *)

Section GapDetection.
Context {T : Type} {A : Arith T} {Pw : Power T}.
Local Open Scope num_scope.

(** [math.sqrt(x)], which raises [ValueError] for a negative [x]. *)
Definition math_sqrt (x : T) : result T :=
  if x <? num_of_int 0
  then Raised (Exception "math domain error")
  else Returned (num_sqrt x).

(** Line 894: the left square, the right square, their sum, its root. *)
Definition distance (pt1 pt2 : Point T) : result T :=
  dx2 <- pow2 (fst pt1 - fst pt2) ;;
  dy2 <- pow2 (snd pt1 - snd pt2) ;;
  math_sqrt (dx2 + dy2).

(** Lines 893-896: what the inner loop does for one pair. *)
Definition compare_pair (r1 r2 : EndpointRecord T) (tolerance : T)
  : result (list (Gap T)) :=
  let '(pt1, seg1, end1) := r1 in
  let '(pt2, seg2, end2) := r2 in
  if negb (seg1 =? seg2)%nat then
    dist <- distance pt1 pt2 ;;
    if (num_of_int 0 <? dist) && (dist <? tolerance)
    then Returned [(dist, seg1, end1, seg2, end2, pt1, pt2)]
    else Returned []
  else Returned [].

(** Lines 890-897: [for i, r1 in enumerate(points)], and inside it
    [for j, r2 in enumerate(points[i+1:], i+1)]; the body does not use
    [j].  An exception of the body ends both loops. *)
Definition find_close_points (points : list (EndpointRecord T)) (tolerance : T)
  : result (list (Gap T)) :=
  flat_map_raising
    (fun ir1 : nat * EndpointRecord T =>
       let '(i, r1) := ir1 in
       flat_map_raising (fun r2 => compare_pair r1 r2 tolerance)
                        (skipn (i + 1)%nat points))
    (enumerate points).

(** Lines 540-543 and 791-794. *)
Definition endpoints_of (segments : list (Segment T))
  : list (EndpointRecord T) :=
  flat_map (fun '(i, (start, end_)) =>
              [(start, i, "start"%string); (end_, i, "end"%string)])
           (enumerate segments).
End GapDetection.

(* ================================================================== *)
(** ** The geometry library *)

Section Geometry.
Context {T : Type}.

(** A shapely [LineString]: [.coords] and [.is_closed]. *)
Record LineString : Type := {
  coords : list (Point T);
  is_closed : bool
}.

(** What [linemerge] and [.boundary] return: a [LineString], a geometry
    with [.geoms], or anything else. *)
Inductive Curve : Type :=
| SingleLine (l : LineString)
| MultiLine (geoms : list LineString)
| OtherGeometry.

(** A shapely [Polygon]: [.area], [.exterior.coords] and the [.coords]
    of each of [.interiors]. *)
Record Polygon : Type := {
  area : T;
  exterior : list (Point T);
  interiors : list (list (Point T))
}.
End Geometry.

Arguments LineString : clear implicits.
Arguments Curve : clear implicits.
Arguments Polygon : clear implicits.

(** The shapely calls of the program.  [Region] is the type of the
    buffered geometries; each call may raise. *)
Class Shapely (T Region : Type) : Type := {
  new_LineString : list (Point T) -> result (LineString T);
  buffer : LineString T -> T -> result Region;
  unary_union : list Region -> result Region;
  boundary : Region -> result (Curve T);
  polygonize : list (LineString T) -> result (list (Polygon T));
  linemerge : list (LineString T) -> result (Curve T)
}.

(** The same library with another [buffer]. *)
Definition with_buffer {T Region : Type} (shp : Shapely T Region)
    (b : LineString T -> T -> result Region) : Shapely T Region :=
  {| new_LineString := @new_LineString _ _ shp;
     buffer := b;
     unary_union := @unary_union _ _ shp;
     boundary := @boundary _ _ shp;
     polygonize := @polygonize _ _ shp;
     linemerge := @linemerge _ _ shp |}.

(* ================================================================== *)
(** ** The application object *)

(** The attributes of [KicadDxfApp] the pipeline reads and writes. *)
Record App (T : Type) : Type := {
  dxf_file : string;
  heal_gaps : bool;
  gap_tolerance : T;
  segments : list (Segment T)
}.

Arguments dxf_file {T} _.
Arguments heal_gaps {T} _.
Arguments gap_tolerance {T} _.
Arguments segments {T} _.

Definition set_segments {T : Type} (self : App T) (segs : list (Segment T))
  : App T :=
  {| dxf_file := dxf_file self;
     heal_gaps := heal_gaps self;
     gap_tolerance := gap_tolerance self;
     segments := segs |}.

(* ================================================================== *)
(** ** Reconstruction *)

Section Reconstruction.
Context {T Region : Type} {A : Arith T} {Pw : Power T} {shp : Shapely T Region}.

(** [ezdxf.readfile(path).modelspace()]: the entities of the drawing
    stored at [path], or the exception the reader raises. *)
Variable readfile : string -> result (list (Entity T)).

Local Open Scope num_scope.

Definition is_circle (e : Entity T) : bool :=
  match e with CIRCLE _ _ => true | _ => false end.

Definition is_closed_lwpolyline (e : Entity T) : bool :=
  match e with LWPOLYLINE _ true => true | _ => false end.

Definition is_closed_polyline (e : Entity T) : bool :=
  match e with
  | LWPOLYLINE _ true => true
  | POLYLINE _ true => true
  | _ => false
  end.

(** [[LineString([s[0], s[1]]) for s in segments]] *)
Definition lines_of (segs : list (Segment T)) : result (list (LineString T)) :=
  map_raising (fun s : Segment T => new_LineString [fst s; snd s]) segs.

(** Lines 626-635 and 639-648: a merged line becomes a closed polyline
    or one [LINE] per consecutive coordinate pair. *)
Definition entities_of_linestring (l : LineString T) : list (Entity T) :=
  if is_closed l
  then [LWPOLYLINE (coords l) true]
  else map (fun s : Segment T => LINE (fst s) (snd s)) (zip_next (coords l)).

(** Lines 592-602: the originals [convert_segments_to_entities] keeps. *)
Definition original_circles (msp : list (Entity T)) : list (Entity T) :=
  filter is_circle msp.

Definition original_polylines (msp : list (Entity T)) : list (Entity T) :=
  filter is_closed_polyline msp.

(** Lines 577-661. *)
Definition convert_segments_to_entities
    (segs : list (Segment T)) (msp : list (Entity T))
  : result (list (Entity T)) :=
  let circles := original_circles msp in
  let polylines := original_polylines msp in
  lines_from_segments <- lines_of segs ;;
  try_except
    (merged <- linemerge lines_from_segments ;;
     let entities := circles in
     let entities :=
       match merged with
       | SingleLine l => entities ++ entities_of_linestring l
       | MultiLine geoms => entities ++ flat_map entities_of_linestring geoms
       | OtherGeometry => entities
       end in
     Returned entities)
    (fun _ => Returned (circles ++ polylines)).

(** [min(tolerance, 0.0005)]: Python's [min] keeps its first argument
    unless the second is smaller. *)
Definition buffer_distance (tolerance : T) : T :=
  if lit_0_0005 <? tolerance then lit_0_0005 else tolerance.

(** Lines 806-819, which stand before the [try]. *)
Definition buffered_boundary (segs : list (Segment T)) (tolerance : T)
  : result (Curve T) :=
  lines <- lines_of segs ;;
  buffered_lines <- map_raising (fun line => buffer line (buffer_distance tolerance)) lines ;;
  buffered_union <- unary_union buffered_lines ;;
  boundary buffered_union.

(** Lines 833-837: the loop over [simplified.geoms], carrying
    [(rings, polygons)]. *)
Fixpoint closed_rings (geoms : list (LineString T))
    (acc : list (LineString T) * list (Polygon T))
  : result (list (LineString T) * list (Polygon T)) :=
  match geoms with
  | [] => Returned acc
  | geom :: rest =>
      if is_closed geom then
        ps <- polygonize [geom] ;;
        closed_rings rest (fst acc ++ [geom], snd acc ++ ps)
      else closed_rings rest acc
  end.

(** Lines 826-841. *)
Definition polygons_of (simplified : Curve T) : result (list (Polygon T)) :=
  match simplified with
  | SingleLine l =>
      if is_closed l then polygonize [l] else Returned []
  | MultiLine geoms =>
      rp <- closed_rings geoms ([], []) ;;
      let '(rings, polygons) := rp in
      if is_empty polygons && negb (is_empty rings)
      then ps <- polygonize rings ;; Returned (polygons ++ ps)
      else Returned polygons
  | OtherGeometry => Returned []
  end.

(** [polygons.sort(key=lambda p: p.area, reverse=True)]: a stable sort,
    largest area first; polygons of equal area keep their order. *)
Fixpoint insert_by_area (p : Polygon T) (l : list (Polygon T))
  : list (Polygon T) :=
  match l with
  | [] => [p]
  | q :: l' =>
      if area p <? area q then q :: insert_by_area p l' else p :: q :: l'
  end.

Definition sort_by_area (l : list (Polygon T)) : list (Polygon T) :=
  fold_right insert_by_area [] l.

(** Lines 851-862: the exterior ring, then each hole, as closed
    polylines. *)
Definition ring_entities (poly : Polygon T) : list (Entity T) :=
  LWPOLYLINE (exterior poly) true
  :: map (fun interior => LWPOLYLINE interior true) (interiors poly).

(** Line 868: [len(original) > 0 and len(healed) < len(original) * 0.5]. *)
Definition too_few (healed original : nat) : bool :=
  (0 <? original)%nat
  && (num_of_int (Z.of_nat healed) <? num_of_int (Z.of_nat original) * lit_0_5).

(** Lines 776-785: the entities kept for a revert; none when the file
    cannot be read again. *)
Definition preserved_originals (self : App T) : list (Entity T) :=
  match readfile (dxf_file self) with
  | Returned msp => filter is_circle msp ++ filter is_closed_lwpolyline msp
  | Raised _ => []
  end.

(** Lines 824-876: the body of the [try], which ends the function in
    every branch. *)
Definition heal_polygons (simplified : Curve T)
    (original_entities : list (Entity T)) (gap_count : nat)
  : result (list (Entity T) * nat) :=
  polygons <- polygons_of simplified ;;
  if negb (is_empty polygons) then
    let polygons := sort_by_area polygons in
    let healed_entities := flat_map ring_entities polygons in
    if too_few (length healed_entities) (length original_entities)
    then Returned (original_entities, 0)
    else Returned (healed_entities, gap_count)
  else Returned (original_entities, 0).

(** Lines 770-878. *)
Definition heal_dxf_gaps (self : App T) (segs : list (Segment T))
  : result (list (Entity T) * nat) :=
  if is_empty segs then Returned ([], 0) else
  let original_entities := preserved_originals self in
  let tolerance := gap_tolerance self in
  let endpoints := endpoints_of segs in
  gaps <- find_close_points endpoints tolerance ;;
  let gap_count := length gaps in
  if (gap_count =? 0)%nat then Returned (original_entities, 0) else
  simplified <- buffered_boundary segs tolerance ;;
  try_except
    (heal_polygons simplified original_entities gap_count)
    (fun _ => Returned (original_entities, 0)).

Context {Tr : Trig T} {TD : TrigDomain T}.

(** Lines 519-575.  The three [except] clauses print and re-raise; the
    assignment [self.segments = segments] stays. *)
Definition load_dxf_with_healing (self : App T) (dxf_file : string)
  : App T * result (list (Entity T) * nat) :=
  match readfile dxf_file with
  | Raised e => (self, Raised e)
  | Returned msp =>
      let segs := extract_segments_from_dxf msp in
      let self := set_segments self segs in
      if is_empty segs then (self, Returned ([], 0)) else
      if heal_gaps self then
        let tolerance := gap_tolerance self in
        let endpoints := endpoints_of segs in
        (self,
         gaps <- find_close_points endpoints tolerance ;;
         let gap_count := length gaps in
         if (0 <? gap_count)%nat then
           r <- heal_dxf_gaps self segs ;;
           let '(healed_entities, _) := r in
           Returned (healed_entities, gap_count)
         else
           entities <- convert_segments_to_entities segs msp ;;
           Returned (entities, 0))
      else
        (self,
         entities <- convert_segments_to_entities segs msp ;;
         Returned (entities, 0))
  end.
End Reconstruction.

(* ================================================================== *)
(** * Properties of segment extraction *)

Section ListFacts.
Context {X : Type}.

Lemma zip_next_length (l : list X) :
  length (zip_next l) = length l - 1.
Proof.
  unfold zip_next. rewrite length_combine.
  destruct l as [|x l]; cbn [length tl]; lia.
Qed.

Lemma zip_next_endpoints (l : list X) :
  Forall (fun s => In (fst s) l /\ In (snd s) l) (zip_next l).
Proof.
  apply Forall_forall. intros [a b] Hin. unfold zip_next in Hin. simpl.
  split.
  - eapply in_combine_l; eauto.
  - apply in_combine_r in Hin. destruct l as [|x l]; simpl in *; auto.
Qed.

(** Consecutive chords share a point: the starts are all points but the
    last, the ends all points but the first. *)
Lemma zip_next_starts (l : list X) :
  map fst (zip_next l) = removelast l.
Proof.
  unfold zip_next. induction l as [|x [|y l] IH]; simpl in *; auto.
  f_equal. exact IH.
Qed.

Lemma zip_next_ends (l : list X) :
  map snd (zip_next l) = tl l.
Proof.
  unfold zip_next. induction l as [|x [|y l] IH]; simpl in *; auto.
  f_equal. exact IH.
Qed.

Lemma fold_left_app_flat_map {Y : Type} (f : X -> list Y) (l : list X) :
  forall acc, fold_left (fun s e => s ++ f e) l acc = acc ++ flat_map f l.
Proof.
  induction l as [|x l IH]; intros acc; simpl.
  - now rewrite app_nil_r.
  - rewrite IH. now rewrite app_assoc.
Qed.
End ListFacts.

Section ExtractionFacts.
Context {T : Type} {A : Arith T} {Tr : Trig T} {TD : TrigDomain T}.

(** The loop concatenates what each entity contributes. *)
Lemma extract_flat_map (msp : list (Entity T)) :
  extract_segments_from_dxf msp = flat_map entity_segments msp.
Proof.
  unfold extract_segments_from_dxf. now rewrite fold_left_app_flat_map.
Qed.

Lemma extract_app (l1 l2 : list (Entity T)) :
  extract_segments_from_dxf (l1 ++ l2)
  = extract_segments_from_dxf l1 ++ extract_segments_from_dxf l2.
Proof. rewrite !extract_flat_map. apply flat_map_app. Qed.

(** The angle of sample [i] of an arc, as line 709 computes it. *)
Definition arc_angle (s e : T) (i : nat) : T :=
  num_radians
    (num_add s
       (num_mul (num_of_int (Z.of_nat i))
          (num_div (num_sub (normalize_end s e) s) (num_of_int 24)))).

(** A comprehension whose element raises on the elements a test picks
    out. *)
Lemma map_raising_guarded {X Y : Type} (bad : X -> bool) (g : X -> Y)
    (ex : exn) (l : list X) :
  map_raising (fun x => if bad x then Raised ex else Returned (g x)) l
  = if existsb bad l then Raised ex else Returned (map g l).
Proof.
  induction l as [|x l IH]; [reflexivity|].
  cbn [map_raising existsb map].
  destruct (bad x); cbn [bind orb]; [reflexivity|].
  rewrite IH. destruct (existsb bad l); reflexivity.
Qed.

(** The sample points of an arc: all 25 of them, or the exception of the
    first infinite angle. *)
Lemma arc_pts_spec (c : Point T) (r s e : T) :
  arc_pts c r s e
  = if existsb (fun i => math_domain_error (arc_angle s e i)) (seq 0 25)
    then Raised (Exception "math domain error")
    else Returned (map (fun i => point_at c r (arc_angle s e i)) (seq 0 25)).
Proof.
  unfold arc_pts, sample_point.
  exact (map_raising_guarded
           (fun i => math_domain_error (arc_angle s e i))
           (fun i => point_at c r (arc_angle s e i)) _ (seq 0 25)).
Qed.

Lemma arc_pts_length (c : Point T) (r s e : T) (pts : list (Point T)) :
  arc_pts c r s e = Returned pts -> length pts = 25.
Proof.
  rewrite arc_pts_spec. destruct (existsb _ _); [discriminate|].
  intros [= <-]. reflexivity.
Qed.

Lemma circle_samples_length c r : length (circle_samples c r) = 36.
Proof. unfold circle_samples. now rewrite length_map, length_seq. Qed.

Lemma circle_pts_length c r : length (circle_pts c r) = 37.
Proof.
  unfold circle_pts. rewrite length_app, length_firstn, circle_samples_length.
  reflexivity.
Qed.

(** A closed polyline of [n >= 2] stored points always yields [n]
    segments: the first point is appended whatever the last point is. *)
Lemma lwpolyline_closed_length (pts : list (Point T)) :
  2 <= length pts ->
  length (lwpolyline_segments pts true) = length pts.
Proof.
  intros H. unfold lwpolyline_segments.
  destruct pts as [|p [|q pts]]; cbn [length] in H; try lia.
  change (1 <? length (p :: q :: pts)) with true.
  cbn [andb is_empty negb firstn].
  rewrite zip_next_length, length_app. cbn [length]. lia.
Qed.

Lemma lwpolyline_open_length (pts : list (Point T)) :
  length (lwpolyline_segments pts false) = length pts - 1.
Proof.
  unfold lwpolyline_segments.
  destruct (Nat.ltb_spec 1 (length pts)) as [_|Hc]; cbn [andb].
  - apply zip_next_length.
  - cbn [length]. lia.
Qed.
End ExtractionFacts.

(** The entity types the extraction loop has a branch for. *)
Definition tessellated (type_name : string) : bool :=
  (type_name =? "LINE")%string || (type_name =? "ARC")%string
  || (type_name =? "CIRCLE")%string || (type_name =? "LWPOLYLINE")%string.

(** [p] lies on the circle of centre [c] and radius [r]. *)
Definition on_circle (c : Point R) (r : R) (p : Point R) : Prop :=
  ((fst p - fst c) * (fst p - fst c) + (snd p - snd c) * (snd p - snd c)
   = r * r)%R.

Lemma point_at_on_circle (c : Point R) (r a : R) :
  on_circle c r (point_at c r a).
Proof.
  unfold on_circle, point_at. cbn.
  pose proof (sin2_cos2 a) as H. unfold Rsqr in H.
  replace ((fst c + r * Rtrigo_def.cos a - fst c) * (fst c + r * Rtrigo_def.cos a - fst c)
           + (snd c + r * Rtrigo_def.sin a - snd c) * (snd c + r * Rtrigo_def.sin a - snd c))%R
    with (r * r * (Rtrigo_def.sin a * Rtrigo_def.sin a + Rtrigo_def.cos a * Rtrigo_def.cos a))%R by ring.
  rewrite H. ring.
Qed.

Lemma circle_samples_on_circle (c : Point R) (r : R) :
  Forall (on_circle c r) (circle_samples c r).
Proof.
  unfold circle_samples. apply Forall_map, Forall_forall.
  intros i _. apply point_at_on_circle.
Qed.

Lemma circle_pts_on_circle (c : Point R) (r : R) :
  Forall (on_circle c r) (circle_pts c r).
Proof.
  unfold circle_pts. apply Forall_app. split.
  - apply circle_samples_on_circle.
  - apply Forall_forall. intros p Hp.
    pose proof (circle_samples_on_circle c r) as H.
    rewrite Forall_forall in H. apply H.
    rewrite <- (firstn_skipn 1 (circle_samples c r)).
    apply in_or_app. now left.
Qed.

(** Over the reals no angle is infinite: an arc always has its 25
    samples. *)
Lemma arc_pts_real (c : Point R) (r s e : R) :
  arc_pts c r s e
  = Returned (map (fun i => point_at c r (arc_angle s e i)) (seq 0 25)).
Proof. rewrite arc_pts_spec. reflexivity. Qed.

(** The chords of a tessellated curve run through its sample points in
    order. *)
Lemma chords_through (X : Type) (pts : list X) :
  map fst (zip_next pts) = removelast pts /\ map snd (zip_next pts) = tl pts.
Proof. split; [apply zip_next_starts | apply zip_next_ends]. Qed.

Lemma chords_on_circle (c : Point R) (r : R) (pts : list (Point R)) :
  Forall (on_circle c r) pts ->
  Forall (fun s => on_circle c r (fst s) /\ on_circle c r (snd s)) (zip_next pts).
Proof.
  intros H. rewrite Forall_forall in H.
  eapply Forall_impl; [|apply zip_next_endpoints].
  intros s [H1 H2]. split; apply H; assumption.
Qed.

(** In exact arithmetic the samples of an arc run from the start angle to
    the normalized end angle, those of a circle start at angle 0, and
    every chord of either has both ends on the circle. *)
Lemma tessellation_in_exact_arithmetic :
  (forall (c : Point R) (r s e : R),
      arc_angle s e 0 = (s * (PI / 180))%R
      /\ arc_angle s e 24 = (normalize_end s e * (PI / 180))%R
      /\ Forall (fun seg => on_circle c r (fst seg) /\ on_circle c r (snd seg))
           (entity_segments (ARC c r s e)))
  /\ (forall (c : Point R) (r : R),
      nth 0 (circle_samples c r) c = (fst c + r, snd c)%R
      /\ Forall (fun seg => on_circle c r (fst seg) /\ on_circle c r (snd seg))
           (entity_segments (CIRCLE c r))).
Proof.
  split.
  - intros c r s e. split; [|split].
    + unfold arc_angle.
      cbn [num_radians num_add num_mul num_of_int R_arith Z.of_nat]. ring.
    + unfold arc_angle.
      cbn [num_radians num_add num_mul num_div num_sub num_of_int R_arith].
      change (IZR (Z.of_nat 24)) with 24%R. field.
    + cbn [entity_segments]. rewrite arc_pts_real.
      apply chords_on_circle, Forall_map, Forall_forall.
      intros i _. apply point_at_on_circle.
  - intros c r. split.
    + unfold circle_samples. cbn [seq map nth]. unfold point_at.
      cbn [num_radians num_add num_mul num_div num_of_int R_arith R_trig
           math_cos math_sin Z.of_nat fst snd].
      rewrite !Rmult_0_l, cos_0, sin_0. f_equal; ring.
    + cbn [entity_segments]. apply chords_on_circle, circle_pts_on_circle.
Qed.

(** On binary64 the angles at which a circle is sampled, and the 360
    degrees at which the last of its single segments ends, are finite:
    [math.cos] and [math.sin] return at each of them. *)
Lemma circle_angles_are_finite :
  forallb (fun i : nat =>
             negb (math_domain_error (T := float)
                     (num_radians
                        (num_mul (num_of_int (Z.of_nat i))
                           (num_div (num_of_int 360) (num_of_int 36))))))
          (seq 0 37)
  = true.
Proof. vm_compute. reflexivity. Qed.



(** C4.  A closed [LWPOLYLINE] whose stored points already end on the first
    point: the extraction still appends the first point, so the four stored
    points yield four segments, the last of them from the first point to
    itself. *)
Theorem closed_lwpolyline_repeats_first_point :
  forall (Tr : Trig float),
    let p00 := (0%float, 0%float) in
    let p10 := (1%float, 0%float) in
    let p11 := (1%float, 1%float) in
    extract_segments_from_dxf [LWPOLYLINE [p00; p10; p11; p00] true]
    = [(p00, p10); (p10, p11); (p11, p00); (p00, p00)].
Proof. intros Tr. reflexivity. Qed.

(* ================================================================== *)
(** * Properties of gap detection *)

(** Every unordered pair of positions of a list, once: the element at the
    earlier position first. *)
Fixpoint unordered_pairs {X : Type} (l : list X) : list (X * X) :=
  match l with
  | [] => []
  | a :: rest => map (pair a) rest ++ unordered_pairs rest
  end.

Section RaisingLoops.
Context {X Y : Type}.

Lemma flat_map_raising_app (f : X -> result (list Y)) (l1 l2 : list X) :
  flat_map_raising f (l1 ++ l2)
  = (a <- flat_map_raising f l1 ;;
     b <- flat_map_raising f l2 ;;
     Returned (a ++ b)).
Proof.
  induction l1 as [|x l1 IH]; cbn [List.app flat_map_raising bind].
  - destruct (flat_map_raising f l2); reflexivity.
  - destruct (f x) as [bs|e]; cbn [bind]; [|reflexivity].
    rewrite IH.
    destruct (flat_map_raising f l1) as [a|e]; cbn [bind]; [|reflexivity].
    destruct (flat_map_raising f l2) as [b|e]; cbn [bind]; [|reflexivity].
    now rewrite app_assoc.
Qed.

Lemma flat_map_raising_map {W : Type} (g : W -> X)
    (f : X -> result (list Y)) (l : list W) :
  flat_map_raising f (map g l) = flat_map_raising (fun w => f (g w)) l.
Proof.
  induction l as [|w l IH]; [reflexivity|].
  cbn [map flat_map_raising]. now rewrite IH.
Qed.

Lemma flat_map_raising_ext (f g : X -> result (list Y)) (l : list X) :
  (forall x, f x = g x) -> flat_map_raising f l = flat_map_raising g l.
Proof.
  intros H. induction l as [|x l IH]; [reflexivity|].
  cbn [flat_map_raising]. now rewrite H, IH.
Qed.

(** A loop whose body never raises is a [flat_map]. *)
Lemma flat_map_raising_returned (f : X -> result (list Y))
    (g : X -> list Y) (l : list X) :
  (forall x, f x = Returned (g x)) ->
  flat_map_raising f l = Returned (flat_map g l).
Proof.
  intros H. induction l as [|x l IH]; [reflexivity|].
  cbn [flat_map_raising flat_map]. now rewrite H, IH.
Qed.

(** What holds of everything the body yields holds of the result. *)
Lemma flat_map_raising_Forall (P : X -> Prop) (Q : Y -> Prop)
    (f : X -> result (list Y)) (l : list X) (r : list Y) :
  (forall x bs, P x -> f x = Returned bs -> Forall Q bs) ->
  Forall P l ->
  flat_map_raising f l = Returned r ->
  Forall Q r.
Proof.
  intros H. revert r. induction l as [|x l IH]; intros r Hl Hr.
  - inversion Hr. constructor.
  - inversion Hl as [|? ? Hx Hl']; subst.
    cbn [flat_map_raising] in Hr.
    destruct (f x) as [bs|e] eqn:Hf; cbn [bind] in Hr; [|discriminate].
    destruct (flat_map_raising f l) as [rest|e]; cbn [bind] in Hr;
      [|discriminate].
    inversion Hr; subst. apply Forall_app. split.
    + exact (H x bs Hx Hf).
    + now apply IH.
Qed.

(** A loop whose body raises at some element raises. *)
Lemma flat_map_raising_raises (f : X -> result (list Y)) (l : list X)
    (x : X) (e : exn) :
  In x l -> f x = Raised e -> exists e', flat_map_raising f l = Raised e'.
Proof.
  intros Hin Hf. induction l as [|y l IH]; [destruct Hin|].
  cbn [flat_map_raising].
  destruct (f y) as [bs|e1] eqn:Hy; cbn [bind]; [|eexists; reflexivity].
  destruct Hin as [->|Hin]; [congruence|].
  destruct (IH Hin) as [e' ->]. cbn [bind]. eexists; reflexivity.
Qed.
End RaisingLoops.

Section GapFacts.
Context {T : Type} {A : Arith T} {Pw : Power T}.

(** The Euclidean distance of the specification, in the arithmetic of the
    program: the square root of the sum of the squares of the two
    coordinate differences.  It has no value where a square overflows. *)
Definition euclidean (p q : Point T) : result T :=
  match pow2 (num_sub (fst p) (fst q)) with
  | Raised e => Raised e
  | Returned dx2 =>
      match pow2 (num_sub (snd p) (snd q)) with
      | Raised e => Raised e
      | Returned dy2 =>
          if num_lt (num_add dx2 dy2) (num_of_int 0)
          then Raised (Exception "math domain error")
          else Returned (num_sqrt (num_add dx2 dy2))
      end
  end.

(** What the specification asks of one pair of records: nothing, and no
    distance, when both belong to one segment; otherwise the entry of
    the pair if and only if its distance [d] satisfies
    [0 < d < tolerance]. *)
Definition pair_report (tolerance : T)
    (p : EndpointRecord T * EndpointRecord T) : result (list (Gap T)) :=
  let '((pt1, seg1, end1), (pt2, seg2, end2)) := p in
  if (seg1 =? seg2)%nat then Returned []
  else
    match euclidean pt1 pt2 with
    | Raised e => Raised e
    | Returned d =>
        if num_lt (num_of_int 0) d && num_lt d tolerance
        then Returned [(d, seg1, end1, seg2, end2, pt1, pt2)]
        else Returned []
    end.

(** The gap report as the specification words it: the entries of all
    pairs of endpoint records, in order; a distance without a value ends
    it with the exception. *)
Definition gap_report (points : list (EndpointRecord T)) (tolerance : T)
  : result (list (Gap T)) :=
  flat_map_raising (pair_report tolerance) (unordered_pairs points).

(** What holds of a reported entry. *)
Definition well_reported (tolerance : T) (g : Gap T) : Prop :=
  let '(d, seg1, _, seg2, _, pt1, pt2) := g in
  seg1 <> seg2
  /\ euclidean pt1 pt2 = Returned d
  /\ num_lt (num_of_int 0) d = true
  /\ num_lt d tolerance = true.

Lemma distance_euclidean (p q : Point T) : distance p q = euclidean p q.
Proof.
  unfold distance, euclidean, math_sqrt.
  destruct (pow2 _) as [dx2|e]; cbn [bind]; [|reflexivity].
  destruct (pow2 _) as [dy2|e]; cbn [bind]; reflexivity.
Qed.

Lemma compare_pair_spec (r1 r2 : EndpointRecord T) (tolerance : T) :
  compare_pair r1 r2 tolerance = pair_report tolerance (r1, r2).
Proof.
  destruct r1 as [[pt1 seg1] end1], r2 as [[pt2 seg2] end2].
  unfold compare_pair, pair_report. rewrite distance_euclidean.
  destruct (seg1 =? seg2); cbn [negb]; [reflexivity|].
  destruct (euclidean pt1 pt2) as [d|e]; cbn [bind]; reflexivity.
Qed.

(** Shifting the indices of an enumeration. *)
Lemma flat_map_raising_enumerate_shift {X Y : Type}
    (g : nat -> X -> result (list Y)) (l : list X) :
  forall k,
    flat_map_raising (fun ix : nat * X => g (fst ix) (snd ix))
                     (combine (seq (S k) (length l)) l)
    = flat_map_raising (fun ix : nat * X => g (S (fst ix)) (snd ix))
                       (combine (seq k (length l)) l).
Proof.
  induction l as [|x l IH]; intros k; [reflexivity|].
  cbn [length seq combine flat_map_raising fst snd]. now rewrite IH.
Qed.

(** The two loops, one record at a time. *)
Lemma find_close_points_cons (r1 : EndpointRecord T) rest (tolerance : T) :
  find_close_points (r1 :: rest) tolerance
  = (a <- flat_map_raising (fun r2 => compare_pair r1 r2 tolerance) rest ;;
     b <- find_close_points rest tolerance ;;
     Returned (a ++ b)).
Proof.
  assert (Hrest :
    flat_map_raising
      (fun ir1 : nat * EndpointRecord T =>
         let '(i, r) := ir1 in
         flat_map_raising (fun r2 => compare_pair r r2 tolerance)
                          (skipn (i + 1) (r1 :: rest)))
      (combine (seq 1 (length rest)) rest)
    = find_close_points rest tolerance).
  { unfold find_close_points, enumerate.
    rewrite (flat_map_raising_ext
               (fun ir1 : nat * EndpointRecord T =>
                  let '(i, r) := ir1 in
                  flat_map_raising (fun r2 => compare_pair r r2 tolerance)
                                   (skipn (i + 1) (r1 :: rest)))
               (fun ix : nat * EndpointRecord T =>
                  (fun i r =>
                     flat_map_raising (fun r2 => compare_pair r r2 tolerance)
                                      (skipn (i + 1) (r1 :: rest)))
                    (fst ix) (snd ix)))
      by (intros [i r]; reflexivity).
    rewrite (flat_map_raising_enumerate_shift
               (fun i r =>
                  flat_map_raising (fun r2 => compare_pair r r2 tolerance)
                                   (skipn (i + 1) (r1 :: rest)))
               rest 0).
    apply flat_map_raising_ext. intros [i r]. reflexivity. }
  unfold find_close_points at 1. unfold enumerate.
  cbn [length seq combine flat_map_raising Nat.add skipn].
  rewrite Hrest. reflexivity.
Qed.

Lemma find_close_points_report (points : list (EndpointRecord T)) (tolerance : T) :
  find_close_points points tolerance = gap_report points tolerance.
Proof.
  unfold gap_report. induction points as [|r1 rest IH]; [reflexivity|].
  rewrite find_close_points_cons, IH.
  cbn [unordered_pairs]. rewrite flat_map_raising_app, flat_map_raising_map.
  f_equal. apply flat_map_raising_ext. intros r2. apply compare_pair_spec.
Qed.

Lemma pair_report_well_reported (tolerance : T)
    (p : EndpointRecord T * EndpointRecord T) (bs : list (Gap T)) :
  pair_report tolerance p = Returned bs -> Forall (well_reported tolerance) bs.
Proof.
  destruct p as [[[pt1 seg1] end1] [[pt2 seg2] end2]]. unfold pair_report.
  destruct (seg1 =? seg2) eqn:Hs; [intros H; inversion H; constructor|].
  destruct (euclidean pt1 pt2) as [d|e] eqn:Hd; [|discriminate].
  destruct (num_lt (num_of_int 0) d) eqn:H0; cbn [andb];
    [|intros H; inversion H; constructor].
  destruct (num_lt d tolerance) eqn:H1;
    intros H; inversion H; constructor; [|constructor].
  cbn [well_reported]. apply Nat.eqb_neq in Hs. auto.
Qed.

Lemma gap_report_well_reported (points : list (EndpointRecord T))
    (tolerance : T) (gaps : list (Gap T)) :
  gap_report points tolerance = Returned gaps ->
  Forall (well_reported tolerance) gaps.
Proof.
  apply (flat_map_raising_Forall (fun _ => True)).
  - intros p bs _. apply pair_report_well_reported.
  - apply Forall_forall. intros; exact I.
Qed.

(** A report whose distances all have a value, read as a list. *)
Section TotalDistance.
Variable dist : Point T -> Point T -> T.
Hypothesis euclidean_dist : forall p q, euclidean p q = Returned (dist p q).

(** The condition of the specification on a pair. *)
Definition is_gap (tolerance : T) (p : EndpointRecord T * EndpointRecord T)
  : bool :=
  let '((pt1, seg1, _), (pt2, seg2, _)) := p in
  negb (seg1 =? seg2)
  && num_lt (num_of_int 0) (dist pt1 pt2)
  && num_lt (dist pt1 pt2) tolerance.

(** The entry reported for a pair. *)
Definition gap_of (p : EndpointRecord T * EndpointRecord T) : Gap T :=
  let '((pt1, seg1, end1), (pt2, seg2, end2)) := p in
  (dist pt1 pt2, seg1, end1, seg2, end2, pt1, pt2).

Lemma pair_report_total (tolerance : T)
    (p : EndpointRecord T * EndpointRecord T) :
  pair_report tolerance p
  = Returned (if is_gap tolerance p then [gap_of p] else []).
Proof.
  destruct p as [[[pt1 seg1] end1] [[pt2 seg2] end2]].
  unfold pair_report, is_gap, gap_of. rewrite euclidean_dist.
  destruct (seg1 =? seg2); cbn [negb andb]; [reflexivity|].
  destruct (num_lt (num_of_int 0) (dist pt1 pt2)); cbn [andb]; [|reflexivity].
  destruct (num_lt (dist pt1 pt2) tolerance); reflexivity.
Qed.

Lemma find_close_points_total (points : list (EndpointRecord T))
    (tolerance : T) :
  find_close_points points tolerance
  = Returned (map gap_of (filter (is_gap tolerance) (unordered_pairs points))).
Proof.
  rewrite find_close_points_report. unfold gap_report.
  rewrite (flat_map_raising_returned _
             (fun p => if is_gap tolerance p then [gap_of p] else []))
    by (intros p; apply pair_report_total).
  f_equal. induction (unordered_pairs points) as [|p l IH]; [reflexivity|].
  cbn [flat_map filter]. destruct (is_gap tolerance p); cbn [map List.app];
    now rewrite IH.
Qed.
End TotalDistance.
End GapFacts.

(** The pairs are those of two positions [i < j]. *)
Lemma unordered_pairs_positions {X : Type} (l : list X) (a b : X) :
  In (a, b) (unordered_pairs l)
  <-> exists i j, i < j /\ nth_error l i = Some a /\ nth_error l j = Some b.
Proof.
  induction l as [|x l IH]; cbn [unordered_pairs].
  - split; [intros []|]. intros (i & j & _ & Hi & _). destruct i; discriminate.
  - rewrite in_app_iff, in_map_iff, IH. split.
    + intros [(y & Heq & Hy) | (i & j & Hlt & Hi & Hj)].
      * inversion Heq; subst. apply In_nth_error in Hy. destruct Hy as [j Hj].
        exists 0, (S j). repeat split; [lia|assumption].
      * exists (S i), (S j). repeat split; [lia|assumption|assumption].
    + intros (i & j & Hlt & Hi & Hj). destruct j as [|j]; [lia|].
      cbn [nth_error] in Hj. destruct i as [|i].
      * left. cbn [nth_error] in Hi. inversion Hi; subst.
        exists b. split; [reflexivity|]. eapply nth_error_In; eauto.
      * right. exists i, j. repeat split; [lia|assumption|assumption].
Qed.

Lemma unordered_pairs_length {X : Type} (l : list X) :
  2 * length (unordered_pairs l) = length l * (length l - 1).
Proof.
  induction l as [|x l IH]; [reflexivity|].
  cbn [unordered_pairs]. rewrite length_app, length_map. cbn [length].
  rewrite Nat.sub_succ, Nat.sub_0_r.
  destruct l as [|y l]; [reflexivity|].
  cbn [length] in *. rewrite Nat.sub_succ, Nat.sub_0_r in IH. nia.
Qed.

(** In exact arithmetic every distance has a value, the Euclidean one. *)
Definition real_distance (p q : Point R) : R :=
  R_sqrt.sqrt (Rsqr (fst p - fst q) + Rsqr (snd p - snd q))%R.

Lemma Rltb_true (a b : R) : Rltb a b = true <-> (a < b)%R.
Proof. unfold Rltb. destruct (Rlt_dec a b); split; intros; auto; discriminate. Qed.

Lemma Rltb_false (a b : R) : Rltb a b = false <-> (b <= a)%R.
Proof.
  unfold Rltb. destruct (Rlt_dec a b); split; intros; try discriminate;
    try reflexivity; lra.
Qed.

Lemma euclidean_real (p q : Point R) :
  euclidean p q = Returned (real_distance p q).
Proof.
  unfold euclidean, real_distance.
  cbn [pow2 R_power num_sub num_add num_lt num_of_int num_sqrt R_arith].
  assert (H : Rltb ((fst p - fst q) * (fst p - fst q)
                    + (snd p - snd q) * (snd p - snd q)) 0 = false).
  { apply Rltb_false.
    pose proof (Rle_0_sqr (fst p - fst q)) as Hx.
    pose proof (Rle_0_sqr (snd p - snd q)) as Hy.
    unfold Rsqr in Hx, Hy. lra. }
  rewrite H. reflexivity.
Qed.

(** In exact arithmetic [find_close_points] never raises: it returns, in
    order, the pairs of records of different segments whose Euclidean
    distance lies strictly between 0 and the tolerance. *)
Lemma find_close_points_real (points : list (EndpointRecord R)) (tolerance : R) :
  find_close_points points tolerance
  = Returned (map (gap_of real_distance)
                  (filter (is_gap real_distance tolerance)
                          (unordered_pairs points))).
Proof. apply find_close_points_total, euclidean_real. Qed.

(** C7, amended.  [find_close_points] goes through the pairs of records at
    two positions [i < j] of its input in order.  A pair of one segment is
    passed over without computing a distance.  For a pair of different
    segments the distance [d] is computed as the square root of the sum of
    the two squared coordinate differences, in the arithmetic of the
    program, and the pair is reported if and only if [0 < d < tolerance].
    When a square overflows the exception ends the search; otherwise the
    reported entries are returned, each of two different segments with a
    computed distance that is positive and below the tolerance. *)
Theorem find_close_points_exact :
  forall (T : Type) (A : Arith T) (Pw : Power T)
         (points : list (EndpointRecord T)) (tolerance : T),
    find_close_points points tolerance
    = flat_map_raising (pair_report tolerance) (unordered_pairs points)
    /\ (forall r1 r2,
           In (r1, r2) (unordered_pairs points)
           <-> exists i j, i < j /\ nth_error points i = Some r1
                           /\ nth_error points j = Some r2)
    /\ 2 * length (unordered_pairs points) = length points * (length points - 1)
    /\ (forall gaps,
           find_close_points points tolerance = Returned gaps ->
           Forall (well_reported tolerance) gaps)
    /\ (forall r1 r2 e,
           In (r1, r2) (unordered_pairs points) ->
           pair_report tolerance (r1, r2) = Raised e ->
           exists e', find_close_points points tolerance = Raised e').
Proof.
  intros T A Pw points tolerance. split; [|split; [|split; [|split]]].
  - apply find_close_points_report.
  - intros r1 r2. apply unordered_pairs_positions.
  - apply unordered_pairs_length.
  - intros gaps. rewrite find_close_points_report.
    apply gap_report_well_reported.
  - intros r1 r2 e Hin Hr. rewrite find_close_points_report.
    exact (flat_map_raising_raises _ _ _ _ Hin Hr).
Qed.

(* ================================================================== *)
(** * Properties of the reconstruction *)

Section ReconstructionFacts.
Context {T Region : Type} {A : Arith T} {Pw : Power T} {shp : Shapely T Region}.
Variable readfile : string -> result (list (Entity T)).

Lemma is_empty_false {X : Type} (l : list X) : l <> [] -> is_empty l = false.
Proof. destruct l; [congruence | reflexivity]. Qed.

Lemma is_empty_true {X : Type} (l : list X) : is_empty l = true -> l = [].
Proof. destruct l; [reflexivity | discriminate]. Qed.

Lemma length_eqb_0_false {X : Type} (l : list X) :
  l <> [] -> (length l =? 0) = false.
Proof. destruct l; [congruence | reflexivity]. Qed.

(** With segments and gaps, the healer is the buffering followed by the
    guarded polygon extraction. *)
Lemma heal_dxf_gaps_with_gaps (self : App T) (segs : list (Segment T))
    (gaps : list (Gap T)) :
  segs <> [] ->
  find_close_points (endpoints_of segs) (gap_tolerance self) = Returned gaps ->
  gaps <> [] ->
  heal_dxf_gaps readfile self segs
  = (simplified <- buffered_boundary segs (gap_tolerance self) ;;
     try_except
       (heal_polygons simplified (preserved_originals readfile self)
          (length gaps))
       (fun _ => Returned (preserved_originals readfile self, 0))).
Proof.
  intros Hs Hf Hg. unfold heal_dxf_gaps.
  rewrite (is_empty_false _ Hs), Hf. cbn [bind].
  rewrite (length_eqb_0_false _ Hg). reflexivity.
Qed.

(** Every way the healer has of returning a count other than 0. *)
Lemma heal_dxf_gaps_success (self : App T) (segs : list (Segment T))
    (ents : list (Entity T)) (n : nat) :
  heal_dxf_gaps readfile self segs = Returned (ents, n) ->
  n <> 0 ->
  exists simplified polygons gaps,
    buffered_boundary segs (gap_tolerance self) = Returned simplified
    /\ polygons_of simplified = Returned polygons
    /\ polygons <> []
    /\ ents = flat_map ring_entities (sort_by_area polygons)
    /\ find_close_points (endpoints_of segs) (gap_tolerance self)
       = Returned gaps
    /\ n = length gaps.
Proof.
  unfold heal_dxf_gaps. intros H Hn.
  destruct (is_empty segs); [inversion H; congruence|].
  destruct (find_close_points (endpoints_of segs) (gap_tolerance self))
    as [gaps|e] eqn:Hf; cbn [bind] in H; [|discriminate].
  destruct (length gaps =? 0); [inversion H; congruence|].
  destruct (buffered_boundary segs (gap_tolerance self)) as [simplified|e] eqn:Hb;
    cbn [bind] in H; [|discriminate].
  unfold heal_polygons in H.
  destruct (polygons_of simplified) as [polygons|e] eqn:Hp;
    cbn [bind try_except] in H; [|inversion H; congruence].
  destruct (is_empty polygons) eqn:He; cbn [negb] in H;
    [inversion H; congruence|].
  destruct (too_few _ _); cbn [try_except] in H; inversion H; [congruence|].
  exists simplified, polygons, gaps.
  split; [reflexivity|]. split; [exact Hp|].
  split; [|split; [reflexivity|split; reflexivity]].
  intros ->. discriminate.
Qed.

(** Every way the healer has of returning count 0. *)
Lemma heal_dxf_gaps_revert (self : App T) (segs : list (Segment T))
    (ents : list (Entity T)) :
  heal_dxf_gaps readfile self segs = Returned (ents, 0) ->
  ents = preserved_originals readfile self \/ (segs = [] /\ ents = []).
Proof.
  unfold heal_dxf_gaps. intros H.
  destruct segs as [|s segs]; cbn [is_empty] in H;
    [right; inversion H; auto|].
  left.
  destruct (find_close_points _ _) as [gaps|e]; cbn [bind] in H;
    [|discriminate].
  destruct (length gaps =? 0) eqn:Hg; [now inversion H|].
  destruct (buffered_boundary (s :: segs) (gap_tolerance self))
    as [simplified|e]; cbn [bind] in H; [|discriminate].
  unfold heal_polygons in H.
  destruct (polygons_of simplified) as [polygons|e];
    cbn [bind try_except] in H; [|now inversion H].
  destruct (is_empty polygons); cbn [negb] in H; [now inversion H|].
  destruct (too_few _ _); cbn [try_except] in H; inversion H; [reflexivity|].
  rewrite H2 in Hg. discriminate.
Qed.

Lemma ring_entities_closed (poly : Polygon T) :
  Forall (fun e => is_closed_lwpolyline e = true /\ is_circle e = false)
         (ring_entities poly).
Proof.
  unfold ring_entities. constructor; [split; reflexivity|].
  apply Forall_map, Forall_forall. intros i _. split; reflexivity.
Qed.

Lemma ring_entities_length (poly : Polygon T) :
  length (ring_entities poly) = 1 + length (interiors poly).
Proof. unfold ring_entities. cbn [length]. now rewrite length_map. Qed.

(** A comprehension that returns has an element for each of its
    inputs. *)
Lemma map_raising_Forall2 {X Y : Type} (f : X -> result Y) (l : list X)
    (r : list Y) :
  map_raising f l = Returned r <-> Forall2 (fun x y => f x = Returned y) l r.
Proof.
  revert r. induction l as [|x l IH]; intros r; cbn [map_raising].
  - split.
    + intros [= <-]. constructor.
    + intros H. inversion H. reflexivity.
  - split.
    + destruct (f x) as [y|e] eqn:Hx; cbn [bind]; [|discriminate].
      destruct (map_raising f l) as [ys|e]; cbn [bind]; [|discriminate].
      intros [= <-]. constructor; [exact Hx|]. now apply IH.
    + intros H. inversion H as [|? y ? ys Hx Hl]; subst.
      rewrite Hx. cbn [bind].
      apply IH in Hl. rewrite Hl. reflexivity.
Qed.

(** A comprehension raises what its first failing element raises. *)
Lemma map_raising_raises {X Y : Type} (f : X -> result Y) (l1 l2 : list X)
    (x : X) (ys : list Y) (e : exn) :
  map_raising f l1 = Returned ys ->
  f x = Raised e ->
  map_raising f (l1 ++ x :: l2) = Raised e.
Proof.
  revert ys. induction l1 as [|a l1 IH]; intros ys H1 Hx;
    cbn [List.app map_raising].
  - now rewrite Hx.
  - cbn [map_raising] in H1.
    destruct (f a) as [b|e1]; cbn [bind] in *; [|discriminate].
    destruct (map_raising f l1) as [bs|e1] eqn:Hl; cbn [bind] in H1;
      [|discriminate].
    now rewrite (IH bs eq_refl Hx).
Qed.
End ReconstructionFacts.

Lemma extract_nothing {T : Type} {A : Arith T} {Tr : Trig T}
    {TD : TrigDomain T} (e : Entity T) :
  tessellated (dxftype e) = false -> entity_segments e = [].
Proof. destruct e; cbn; intros H; try discriminate H; reflexivity. Qed.

(** In exact arithmetic the test of line 868 is "fewer than half". *)
Lemma too_few_exact (healed original : nat) :
  too_few (A := R_arith) healed original = true <-> 2 * healed < original.
Proof.
  unfold too_few. cbn [num_lt num_of_int num_mul lit_0_5 R_arith].
  rewrite andb_true_iff, Nat.ltb_lt, Rltb_true, <- !INR_IZR_INZ.
  split.
  - intros [_ H].
    assert (H2 : (INR (2 * healed) < INR original)%R)
      by (rewrite mult_INR; cbn [INR]; lra).
    now apply INR_lt in H2.
  - intros H. split; [lia|].
    apply lt_INR in H. rewrite mult_INR in H. cbn [INR] in H. lra.
Qed.

(** On binary64 the test agrees with "fewer than half" for all counts up
    to 150, by evaluation. *)
Lemma too_few_binary64 (healed original : nat) :
  healed <= 150 -> original <= 150 ->
  too_few (A := float_arith) healed original = (2 * healed <? original).
Proof.
  intros Hh Ho.
  assert (Hall : forallb (fun h => forallb (fun o =>
             Bool.eqb (too_few (A := float_arith) h o) (2 * h <? o))
             (seq 0 151)) (seq 0 151) = true) by (vm_compute; reflexivity).
  rewrite forallb_forall in Hall.
  specialize (Hall healed). rewrite forallb_forall in Hall.
  apply Bool.eqb_prop, Hall; apply in_seq; lia.
Qed.

(* ================================================================== *)
(** * Sample drawings *)

(** [x ** 2] on binary64 with a C library whose [pow] is correctly
    rounded: the square is the rounded product, and the square of a finite
    number that is too large raises [OverflowError]. *)
Definition rounded_power : Power float :=
  {| pow2 := fun x =>
       let y := PrimFloat.mul x x in
       if PrimFloat.is_infinity y && negb (PrimFloat.is_infinity x)
       then Raised (Exception "(34, 'Numerical result out of range')")
       else Returned y |}.

(** A stand-in for shapely whose answers are fixed in advance: what
    [buffer] gives, what [.boundary] gives, what [polygonize] gives.
    [linemerge] hands the lines back unmerged. *)
Definition scripted_shapely {T : Type}
    (buffered : result unit) (outline : result (Curve T))
    (polygons : result (list (Polygon T))) : Shapely T unit :=
  {| new_LineString := fun c => Returned {| coords := c; is_closed := false |};
     buffer := fun _ _ => buffered;
     unary_union := fun _ => Returned tt;
     boundary := fun _ => outline;
     polygonize := fun _ => polygons;
     linemerge := fun lines => Returned (MultiLine lines) |}.

(** A file system with one drawing, stored as [board.dxf]. *)
Definition one_file {T : Type} (drawing : list (Entity T))
  : string -> result (list (Entity T)) :=
  fun path =>
    if (path =? "board.dxf")%string then Returned drawing
    else Raised (Exception "No such file").

(** A file system on which every read fails. *)
Definition no_file {T : Type} : string -> result (list (Entity T)) :=
  fun _ => Raised (Exception "No such file").

(** The application after [board.dxf] was selected, with the default
    settings (healing on, tolerance 0.001). *)
Definition sample_app : App float :=
  {| dxf_file := "board.dxf";
     heal_gaps := true;
     gap_tolerance := 0.001%float;
     segments := [] |}.

(** Two lines that miss each other by 0.0005 at the corner [(1, 0)]. *)
Definition sample_lines : list (Entity float) :=
  [LINE (0, 0)%float (1, 0)%float; LINE (1, 0.0005)%float (1, 1)%float].

Definition sample_line_segments : list (Segment float) :=
  [((0, 0), (1, 0)); ((1, 0.0005), (1, 1))]%float.

Definition sample_square : Entity float :=
  LWPOLYLINE [(10, 10); (11, 10); (11, 11); (10, 11)]%float true.

Definition sample_circle : Entity float := CIRCLE (5, 5)%float 1%float.

Definition sample_circle_2 : Entity float := CIRCLE (5, 8)%float 1%float.

(** An outline around the two lines, as one closed ring. *)
Definition sample_ring : LineString float :=
  {| coords := [(0, 0); (1, 0); (1, 1); (0, 0)]%float; is_closed := true |}.

Definition sample_polygon : Polygon float :=
  {| area := 0.5%float; exterior := coords sample_ring; interiors := [] |}.

(** An outline that does not close. *)
Definition sample_open_line : LineString float :=
  {| coords := [(0, 0); (1, 0); (1, 1)]%float; is_closed := false |}.

(** Healing finds no closed ring. *)
Definition no_rings : Shapely float unit :=
  scripted_shapely (Returned tt) (Returned (MultiLine [sample_open_line]))
                   (Returned []).

(** Healing finds one ring, one polygon. *)
Definition one_ring : Shapely float unit :=
  scripted_shapely (Returned tt) (Returned (SingleLine sample_ring))
                   (Returned [sample_polygon]).

(** [buffer] raises. *)
Definition buffer_fails : Shapely float unit :=
  scripted_shapely (Raised (Exception "GEOSException"))
                   (Returned (SingleLine sample_ring))
                   (Returned [sample_polygon]).

(** [polygonize] raises. *)
Definition polygonize_fails : Shapely float unit :=
  scripted_shapely (Returned tt) (Returned (SingleLine sample_ring))
                   (Raised (Exception "GEOSException")).

(** The gaps of the two sample lines. *)
Definition sample_gaps : list (Gap float) :=
  match find_close_points (Pw := rounded_power)
          (endpoints_of sample_line_segments) 0.001%float with
  | Returned gaps => gaps
  | Raised _ => []
  end.

(** The detector finds the one gap of the sample lines. *)
Example sample_gap :
  find_close_points (Pw := rounded_power)
    (endpoints_of sample_line_segments) 0.001%float
  = Returned sample_gaps
  /\ map (fun g : Gap float => let '(_, seg1, end1, seg2, end2, _, _) := g in
                               (seg1, end1, seg2, end2))
         sample_gaps
     = [(0, "end"%string, 1, "start"%string)].
Proof. split; vm_compute; reflexivity. Qed.

(** C7, as stated, fails on binary64: of two endpoints 1e200 apart the
    squared difference overflows, so [find_close_points] raises
    [OverflowError] and returns no report, although the Euclidean distance
    of the two points is simply not below the tolerance.  This is so with
    a correctly rounded [** 2], and with every [** 2] that raises at that
    difference. *)
Lemma far_apart_endpoints_raise :
  find_close_points (Pw := rounded_power)
    [((0, 0)%float, 0, "start"%string); ((1e200, 0)%float, 1, "start"%string)]
    0.001%float
  = Raised (Exception "(34, 'Numerical result out of range')")
  /\ forall (Pw : Power float) (e : exn),
       pow2 (PrimFloat.sub 0 1e200) = Raised e ->
       find_close_points
         [((0, 0)%float, 0, "start"%string); ((1e200, 0)%float, 1, "start"%string)]
         0.001%float
       = Raised e.
Proof.
  split; [vm_compute; reflexivity|].
  intros Pw e H. unfold find_close_points, enumerate.
  cbn [length seq combine flat_map_raising skipn Nat.add compare_pair
       Nat.eqb negb].
  unfold distance. cbn [fst snd num_sub float_arith].
  rewrite H. reflexivity.
Qed.

(** The call at line 552 drops the healer's count: when the healer returns
    normally, the loader reports the count of detected gaps. *)
Lemma load_ignores_healer_count {T Region : Type} {A : Arith T}
    {Pw : Power T} {shp : Shapely T Region} {Tr : Trig T} {TD : TrigDomain T}
    (readfile : string -> result (list (Entity T)))
    (self : App T) (path : string) (msp : list (Entity T))
    (gaps : list (Gap T)) (ents : list (Entity T)) (n : nat) :
  let segs := extract_segments_from_dxf msp in
  readfile path = Returned msp ->
  heal_gaps self = true ->
  find_close_points (endpoints_of segs) (gap_tolerance self) = Returned gaps ->
  gaps <> [] ->
  heal_dxf_gaps readfile (set_segments self segs) segs = Returned (ents, n) ->
  snd (load_dxf_with_healing readfile self path) = Returned (ents, length gaps).
Proof.
  intros segs Hr Hh Hf Hg Hheal. unfold load_dxf_with_healing.
  rewrite Hr. fold segs.
  assert (Hs : is_empty segs = false).
  { destruct segs; [|reflexivity]. exfalso. apply Hg.
    cbn in Hf. now inversion Hf. }
  rewrite Hs. cbn [heal_gaps gap_tolerance set_segments]. rewrite Hh.
  cbn [snd]. rewrite Hf. cbn [bind].
  destruct gaps as [|g gaps']; [congruence|].
  change (0 <? length (g :: gaps')) with true.
  rewrite Hheal. reflexivity.
Qed.

(** C1.  A drawing of one closed polyline and the two sample lines, healing
    on, tolerance 0.001, and a healing that forms no closed ring: the healer
    reverts and returns the preserved polyline with count 0, yet the loader
    returns that polyline with count 1. *)
Theorem load_counts_gaps_of_reverted_healing :
  forall (Tr : Trig float),
    let drawing := sample_square :: sample_lines in
    heal_dxf_gaps (Pw := rounded_power) (shp := no_rings)
                  (one_file drawing) sample_app
                  (extract_segments_from_dxf drawing)
    = Returned ([sample_square], 0)
    /\ snd (load_dxf_with_healing (Pw := rounded_power) (shp := no_rings)
                                  (one_file drawing) sample_app "board.dxf")
       = Returned ([sample_square], 1).
Proof. intros Tr. split; vm_compute; reflexivity. Qed.

(** C3.  The two sample lines, healing on, tolerance 0.001: when [buffer]
    raises, the exception leaves [heal_dxf_gaps] and the loader; when
    [polygonize] raises, the healer returns the preserved entities with
    count 0. *)
Theorem buffer_error_escapes_healer :
  forall (Tr : Trig float),
    let drawing := sample_square :: sample_lines in
    heal_dxf_gaps (Pw := rounded_power) (shp := buffer_fails)
                  (one_file drawing) sample_app
                  (extract_segments_from_dxf drawing)
    = Raised (Exception "GEOSException")
    /\ snd (load_dxf_with_healing (Pw := rounded_power) (shp := buffer_fails)
                                  (one_file drawing) sample_app "board.dxf")
       = Raised (Exception "GEOSException")
    /\ heal_dxf_gaps (Pw := rounded_power) (shp := polygonize_fails)
                     (one_file drawing) sample_app
                     (extract_segments_from_dxf drawing)
       = Returned ([sample_square], 0).
Proof. intros Tr. repeat split; vm_compute; reflexivity. Qed.

(** C2, as stated, fails: the drawing holds a circle and the two sample
    lines, the healer is called on the segments of the two lines, healing
    succeeds with one ring, and the healed set is that one closed polyline;
    the circle of the drawing is not in it. *)
Lemma healed_set_omits_circle :
  heal_dxf_gaps (Pw := rounded_power) (shp := one_ring)
                (one_file (sample_circle :: sample_lines))
                sample_app sample_line_segments
  = Returned ([LWPOLYLINE (coords sample_ring) true], 1)
  /\ In sample_circle (sample_circle :: sample_lines)
  /\ ~ In sample_circle [LWPOLYLINE (coords sample_ring) true].
Proof.
  split; [vm_compute; reflexivity|]. split; [left; reflexivity|].
  intros [H|[]]. discriminate H.
Qed.

(** C2, amended.  Whenever the healer succeeds (it returns a count other
    than 0), its entities are, for the polygons found and taken largest
    area first, the closed polyline of the exterior ring followed by one
    closed polyline per hole; every entity is a closed polyline, none is a
    circle, and the count is that of the detected gaps. *)
Theorem healed_set_is_ring_polylines :
  forall (T Region : Type) (A : Arith T) (Pw : Power T)
         (shp : Shapely T Region)
         (readfile : string -> result (list (Entity T)))
         (self : App T) (segs : list (Segment T))
         (ents : list (Entity T)) (n : nat),
    heal_dxf_gaps readfile self segs = Returned (ents, n) ->
    n <> 0 ->
    (exists simplified polygons,
        buffered_boundary segs (gap_tolerance self) = Returned simplified
        /\ polygons_of simplified = Returned polygons
        /\ polygons <> []
        /\ ents = flat_map ring_entities (sort_by_area polygons))
    /\ Forall (fun e => is_closed_lwpolyline e = true /\ is_circle e = false) ents
    /\ exists gaps,
         find_close_points (endpoints_of segs) (gap_tolerance self)
         = Returned gaps
         /\ n = length gaps.
Proof.
  intros T Region A Pw shp readfile self segs ents n H Hn.
  destruct (heal_dxf_gaps_success readfile self segs ents n H Hn)
    as (simplified & polygons & gaps & Hb & Hp & Hne & He & Hf & Hc).
  split; [exists simplified, polygons; auto|].
  split; [|exists gaps; auto].
  subst ents. apply Forall_flat_map, Forall_forall.
  intros poly _. apply ring_entities_closed.
Qed.

Lemma healed_set_is_ring_polylines_witness :
  (exists simplified polygons,
      buffered_boundary (shp := one_ring) sample_line_segments
                        (gap_tolerance sample_app) = Returned simplified
      /\ polygons_of (shp := one_ring) simplified = Returned polygons
      /\ polygons <> []
      /\ [LWPOLYLINE (coords sample_ring) true]
         = flat_map ring_entities (sort_by_area polygons))
  /\ Forall (fun e : Entity float =>
               is_closed_lwpolyline e = true /\ is_circle e = false)
            [LWPOLYLINE (coords sample_ring) true]
  /\ exists gaps,
       find_close_points (Pw := rounded_power)
         (endpoints_of sample_line_segments) (gap_tolerance sample_app)
       = Returned gaps
       /\ 1 = length gaps.
Proof.
  apply (healed_set_is_ring_polylines float unit float_arith rounded_power
           one_ring
           (one_file (sample_circle :: sample_lines)) sample_app
           sample_line_segments [LWPOLYLINE (coords sample_ring) true] 1).
  - vm_compute. reflexivity.
  - discriminate.
Defined.

(** C5.  When healing finds polygons but their rings are too few (the test
    of line 868 on the number of healed entities and the number of
    preserved originals), the healer returns the preserved originals with
    count 0. *)
Theorem too_few_rings_revert :
  forall (T Region : Type) (A : Arith T) (Pw : Power T)
         (shp : Shapely T Region)
         (readfile : string -> result (list (Entity T)))
         (self : App T) (segs : list (Segment T)) (gaps : list (Gap T))
         (simplified : Curve T) (polygons : list (Polygon T)),
    segs <> [] ->
    find_close_points (endpoints_of segs) (gap_tolerance self)
    = Returned gaps ->
    gaps <> [] ->
    buffered_boundary segs (gap_tolerance self) = Returned simplified ->
    polygons_of simplified = Returned polygons ->
    polygons <> [] ->
    too_few (length (flat_map ring_entities (sort_by_area polygons)))
            (length (preserved_originals readfile self)) = true ->
    heal_dxf_gaps readfile self segs
    = Returned (preserved_originals readfile self, 0).
Proof.
  intros T Region A Pw shp readfile self segs gaps simplified polygons
         Hs Hf Hg Hb Hp Hne Hfew.
  rewrite (heal_dxf_gaps_with_gaps readfile self segs gaps) by assumption.
  rewrite Hb. cbn [bind]. unfold heal_polygons. rewrite Hp. cbn [bind].
  rewrite (is_empty_false _ Hne). cbn [negb]. rewrite Hfew. reflexivity.
Qed.

Lemma too_few_rings_revert_witness :
  heal_dxf_gaps (Pw := rounded_power) (shp := one_ring)
                (one_file (sample_circle :: sample_circle_2 :: sample_square
                           :: sample_lines))
                sample_app sample_line_segments
  = Returned ([sample_circle; sample_circle_2; sample_square], 0).
Proof.
  apply (too_few_rings_revert float unit float_arith rounded_power one_ring
           (one_file (sample_circle :: sample_circle_2 :: sample_square
                      :: sample_lines))
           sample_app sample_line_segments sample_gaps
           (SingleLine sample_ring) [sample_polygon]).
  - discriminate.
  - vm_compute. reflexivity.
  - vm_compute. discriminate.
  - vm_compute. reflexivity.
  - vm_compute. reflexivity.
  - discriminate.
  - vm_compute. reflexivity.
Defined.

(** C8.  Whenever the healer gets as far as a result with gaps detected,
    it has built one line per segment, buffered every one of these lines
    at the distance [min(tolerance, 0.0005)] (Python's [min]: 0.0005 when
    0.0005 is below the tolerance, the tolerance otherwise), united exactly
    these buffers and taken the boundary of the union, from which the
    result is made; and when buffering a line at that distance raises, the
    healer raises.  On binary64 this distance is never above 0.0005, in
    exact arithmetic it is the smaller of the two numbers. *)
Theorem buffer_distance_capped :
  (forall (T Region : Type) (A : Arith T) (Pw : Power T)
          (shp : Shapely T Region)
          (readfile : string -> result (list (Entity T)))
          (self : App T) (segs : list (Segment T)) (gaps : list (Gap T)),
      let d := if num_lt lit_0_0005 (gap_tolerance self)
               then lit_0_0005 else gap_tolerance self in
      segs <> [] ->
      find_close_points (endpoints_of segs) (gap_tolerance self)
      = Returned gaps ->
      gaps <> [] ->
      (forall r,
          heal_dxf_gaps readfile self segs = Returned r ->
          exists lines regions united simplified,
            Forall2 (fun s line => new_LineString [fst s; snd s] = Returned line)
                    segs lines
            /\ Forall2 (fun line region => buffer line d = Returned region)
                       lines regions
            /\ unary_union regions = Returned united
            /\ boundary united = Returned simplified
            /\ try_except
                 (heal_polygons simplified (preserved_originals readfile self)
                    (length gaps))
                 (fun _ => Returned (preserved_originals readfile self, 0))
               = Returned r)
      /\ (forall lines1 line lines2 regions e,
             lines_of segs = Returned (lines1 ++ line :: lines2) ->
             Forall2 (fun l region => buffer l d = Returned region)
                     lines1 regions ->
             buffer line d = Raised e ->
             heal_dxf_gaps readfile self segs = Raised e))
  /\ (forall tolerance : float,
         buffer_distance tolerance
         = (if PrimFloat.ltb 0.0005%float tolerance
            then 0.0005%float else tolerance)
         /\ PrimFloat.ltb 0.0005%float (buffer_distance tolerance) = false)
  /\ (forall tolerance : R,
         buffer_distance tolerance = Rmin tolerance (5 / 10000)
         /\ (buffer_distance tolerance <= 5 / 10000)%R).
Proof.
  split; [|split].
  - intros T Region A Pw shp readfile self segs gaps d Hs Hf Hg.
    rewrite (heal_dxf_gaps_with_gaps readfile self segs gaps) by assumption.
    unfold buffered_boundary. fold (buffer_distance (gap_tolerance self)).
    change (buffer_distance (gap_tolerance self)) with d.
    split.
    + intros r H.
      destruct (lines_of segs) as [lines|e] eqn:Hl; cbn [bind] in H;
        [|discriminate].
      destruct (map_raising (fun line => buffer line d) lines)
        as [regions|e] eqn:Hbuf; cbn [bind] in H; [|discriminate].
      destruct (unary_union regions) as [united|e] eqn:Hu; cbn [bind] in H;
        [|discriminate].
      destruct (boundary united) as [simplified|e] eqn:Hbd; cbn [bind] in H;
        [|discriminate].
      exists lines, regions, united, simplified.
      split; [apply map_raising_Forall2; exact Hl|].
      split; [apply map_raising_Forall2; exact Hbuf|].
      split; [exact Hu|]. split; [exact Hbd|exact H].
    + intros lines1 line lines2 regions e Hl H1 He.
      rewrite Hl. cbn [bind].
      apply map_raising_Forall2 in H1.
      rewrite (map_raising_raises _ lines1 lines2 line regions e H1 He).
      reflexivity.
  - intros tolerance. split; [reflexivity|].
    unfold buffer_distance. cbn [num_lt lit_0_0005 float_arith].
    destruct (PrimFloat.ltb 0.0005%float tolerance) eqn:E; [reflexivity | exact E].
  - intros tolerance. unfold buffer_distance.
    cbn [num_lt lit_0_0005 R_arith]. unfold Rltb, Rmin.
    destruct (Rlt_dec (5 / 10000) tolerance) as [Hlt|Hge];
      destruct (Rle_dec tolerance (5 / 10000)) as [Hle|Hgt]; split; lra.
Qed.

(** A [buffer] that only works at the capped distance of the default
    tolerance. *)
Definition picky_buffer (line : LineString float) (d : float) : result unit :=
  if PrimFloat.eqb d 0.0005%float then Returned tt
  else Raised (Exception "unexpected distance").

(** With the default tolerance 0.001 the two sample lines are buffered at
    0.0005: a [buffer] that refuses every other distance serves the
    healer. *)
Lemma buffer_distance_capped_witness :
  exists lines regions united simplified,
    Forall2 (fun (s : Segment float) line =>
               new_LineString (Shapely := with_buffer one_ring picky_buffer)
                 [fst s; snd s] = Returned line)
            sample_line_segments lines
    /\ Forall2 (fun line region => picky_buffer line 0.0005%float = Returned region)
               lines regions
    /\ unary_union (Shapely := with_buffer one_ring picky_buffer) regions
       = Returned united
    /\ boundary (Shapely := with_buffer one_ring picky_buffer) united
       = Returned simplified
    /\ try_except
         (heal_polygons (shp := with_buffer one_ring picky_buffer) simplified
            (preserved_originals (one_file sample_lines) sample_app)
            (length sample_gaps))
         (fun _ => Returned
                     (preserved_originals (one_file sample_lines) sample_app, 0))
       = Returned ([LWPOLYLINE (coords sample_ring) true], 1).
Proof.
  apply (proj1 (proj1 buffer_distance_capped float unit float_arith
                  rounded_power (with_buffer one_ring picky_buffer)
                  (one_file sample_lines) sample_app sample_line_segments
                  sample_gaps
                  ltac:(discriminate)
                  ltac:(vm_compute; reflexivity)
                  ltac:(vm_compute; discriminate))).
  vm_compute. reflexivity.
Defined.

(** C9.  When the drawing cannot be read again, nothing is preserved:
    whenever the healer returns count 0 its entity list is empty (no rings,
    or an exception of the polygon extraction), and when polygons are found
    the healed rings are returned with the detected count however few they
    are. *)
Theorem unreadable_source_preserves_nothing :
  forall (T Region : Type) (A : Arith T) (Pw : Power T)
         (shp : Shapely T Region)
         (readfile : string -> result (list (Entity T)))
         (self : App T) (segs : list (Segment T)) (e : exn),
    readfile (dxf_file self) = Raised e ->
    preserved_originals readfile self = []
    /\ (forall ents, heal_dxf_gaps readfile self segs = Returned (ents, 0) ->
                     ents = [])
    /\ (forall simplified gaps,
           segs <> [] ->
           find_close_points (endpoints_of segs) (gap_tolerance self)
           = Returned gaps ->
           gaps <> [] ->
           buffered_boundary segs (gap_tolerance self) = Returned simplified ->
           match polygons_of simplified with
           | Raised _ => heal_dxf_gaps readfile self segs = Returned ([], 0)
           | Returned [] => heal_dxf_gaps readfile self segs = Returned ([], 0)
           | Returned polygons =>
               heal_dxf_gaps readfile self segs
               = Returned
                   (flat_map ring_entities (sort_by_area polygons),
                    length gaps)
           end).
Proof.
  intros T Region A Pw shp readfile self segs e Hr.
  assert (Ho : preserved_originals readfile self = [])
    by (unfold preserved_originals; now rewrite Hr).
  split; [exact Ho|]. split.
  - intros ents H.
    destruct (heal_dxf_gaps_revert readfile self segs ents H) as [->|[_ ->]];
      [exact Ho | reflexivity].
  - intros simplified gaps Hs Hf Hg Hb.
    rewrite (heal_dxf_gaps_with_gaps readfile self segs gaps) by assumption.
    rewrite Hb, Ho. cbn [bind]. unfold heal_polygons.
    destruct (polygons_of simplified) as [[|p polygons]|e']; try reflexivity.
Qed.

Lemma unreadable_source_preserves_nothing_witness :
  preserved_originals no_file sample_app = []
  /\ (forall ents,
         heal_dxf_gaps (Pw := rounded_power) (shp := one_ring)
                       no_file sample_app sample_line_segments
         = Returned (ents, 0) -> ents = [])
  /\ (heal_dxf_gaps (Pw := rounded_power) (shp := one_ring)
                    no_file sample_app sample_line_segments
      = Returned ([LWPOLYLINE (coords sample_ring) true], 1)).
Proof.
  destruct (unreadable_source_preserves_nothing float unit float_arith
              rounded_power one_ring
              no_file sample_app sample_line_segments
              (Exception "No such file") eq_refl) as (H1 & H2 & H3).
  split; [exact H1|]. split; [exact H2|].
  apply (H3 (SingleLine sample_ring) sample_gaps).
  - discriminate.
  - vm_compute. reflexivity.
  - vm_compute. discriminate.
  - vm_compute. reflexivity.
Defined.

Lemma extract_filter_tessellated {T : Type} {A : Arith T} {Tr : Trig T}
    {TD : TrigDomain T} (msp : list (Entity T)) :
  extract_segments_from_dxf msp
  = extract_segments_from_dxf (filter (fun e => tessellated (dxftype e)) msp).
Proof.
  rewrite !extract_flat_map. induction msp as [|e msp IH]; [reflexivity|].
  cbn [filter flat_map]. destruct (tessellated (dxftype e)) eqn:Ht.
  - cbn [flat_map]. now rewrite IH.
  - now rewrite (extract_nothing e Ht), IH.
Qed.

(** C10.  An entity whose type is none of [LINE], [ARC], [CIRCLE],
    [LWPOLYLINE] adds no segment, so the extraction of a drawing is that of
    its entities of these four types; an old-style [POLYLINE], closed or
    not, adds none.  [convert_segments_to_entities] does keep a closed
    [POLYLINE] among its original polylines, which it returns with the
    circles when [linemerge] raises. *)
Theorem only_four_types_are_tessellated :
  forall (T : Type) (A : Arith T) (TD : TrigDomain T),
    (forall (Tr : Trig T) (e : Entity T),
        tessellated (dxftype e) = false -> entity_segments e = [])
    /\ (forall (Tr : Trig T) (msp : list (Entity T)),
           extract_segments_from_dxf msp
           = extract_segments_from_dxf
               (filter (fun e => tessellated (dxftype e)) msp))
    /\ (forall (Tr : Trig T) (l1 l2 : list (Entity T)) vertices is_closed,
           extract_segments_from_dxf (l1 ++ POLYLINE vertices is_closed :: l2)
           = extract_segments_from_dxf (l1 ++ l2))
    /\ (forall (l1 l2 : list (Entity T)) vertices,
           original_polylines (l1 ++ POLYLINE vertices true :: l2)
           = original_polylines l1
             ++ POLYLINE vertices true :: original_polylines l2)
    /\ (forall (Region : Type) (shp : Shapely T Region)
               (segs : list (Segment T)) (msp : list (Entity T))
               (lines : list (LineString T)) (e : exn),
           lines_of segs = Returned lines ->
           linemerge lines = Raised e ->
           convert_segments_to_entities segs msp
           = Returned (original_circles msp ++ original_polylines msp)).
Proof.
  intros T A TD. split; [|split; [|split; [|split]]].
  - intros Tr e. apply extract_nothing.
  - intros Tr msp. apply extract_filter_tessellated.
  - intros Tr l1 l2 vertices is_closed.
    rewrite !extract_app.
    change (POLYLINE vertices is_closed :: l2)
      with ([POLYLINE vertices is_closed] ++ l2).
    rewrite extract_app. reflexivity.
  - intros l1 l2 vertices. unfold original_polylines.
    rewrite filter_app. reflexivity.
  - intros Region shp segs msp lines e Hl Hm.
    unfold convert_segments_to_entities. rewrite Hl. cbn [bind].
    rewrite Hm. reflexivity.
Qed.

(** [linemerge] raises. *)
Definition linemerge_fails : Shapely float unit :=
  {| new_LineString := fun c => Returned {| coords := c; is_closed := false |};
     buffer := fun _ _ => Returned tt;
     unary_union := fun _ => Returned tt;
     boundary := fun _ => Returned OtherGeometry;
     polygonize := fun _ => Returned [];
     linemerge := fun _ => Raised (Exception "GEOSException") |}.

Definition sample_old_polyline : Entity float :=
  POLYLINE [(0, 0); (1, 0); (1, 1)]%float true.

Lemma only_four_types_are_tessellated_witness :
  entity_segments (Tr := R_trig) (OTHER "SPLINE") = []
  /\ extract_segments_from_dxf (Tr := R_trig) [POLYLINE [(0, 0); (1, 0); (1, 1)]%R true] = []
  /\ convert_segments_to_entities (shp := linemerge_fails) sample_line_segments
       (sample_circle :: sample_old_polyline :: sample_lines)
     = Returned [sample_circle; sample_old_polyline].
Proof.
  split; [|split].
  - apply (proj1 (only_four_types_are_tessellated R R_arith R_trig_domain)
             R_trig (OTHER "SPLINE")).
    reflexivity.
  - apply (proj1 (proj2 (proj2
               (only_four_types_are_tessellated R R_arith R_trig_domain)))
             R_trig [] [] [(0, 0); (1, 0); (1, 1)]%R true).
  - apply (proj2 (proj2 (proj2 (proj2
              (only_four_types_are_tessellated float float_arith
                 float_trig_domain))))
             unit linemerge_fails sample_line_segments
             (sample_circle :: sample_old_polyline :: sample_lines)
             [ {| coords := [(0, 0); (1, 0)]%float; is_closed := false |};
               {| coords := [(1, 0.0005); (1, 1)]%float; is_closed := false |} ]
             (Exception "GEOSException")); reflexivity.
Defined.

(* ================================================================== *)
(** * Further properties of extraction and gap detection *)

(** How many segments the loop of [extract_segments_from_dxf] adds for an
    entity.  An arc one of whose 25 sample angles is infinite is passed
    over. *)
Definition segment_count {T : Type} {A : Arith T} {TD : TrigDomain T}
    (e : Entity T) : nat :=
  match e with
  | LINE _ _ => 1
  | ARC _ _ start_angle end_angle =>
      if existsb (fun i => math_domain_error (arc_angle start_angle end_angle i))
                 (seq 0 25)
      then 0 else 24
  | CIRCLE _ _ => 36
  | LWPOLYLINE pts closed =>
      if length pts <? 2 then 0
      else if closed then length pts else length pts - 1
  | POLYLINE _ _ => 0
  | OTHER _ => 0
  end.

Lemma entity_segments_length {T : Type} {A : Arith T} {Tr : Trig T}
    {TD : TrigDomain T} (e : Entity T) :
  length (entity_segments e) = segment_count e.
Proof.
  destruct e as [s e|c r s e|c r|pts closed|v c|n];
    cbn [entity_segments segment_count].
  - reflexivity.
  - rewrite arc_pts_spec. destruct (existsb _ _); [reflexivity|].
    now rewrite zip_next_length, length_map, length_seq.
  - now rewrite zip_next_length, circle_pts_length.
  - destruct (Nat.ltb_spec (length pts) 2) as [Hlt|Hge].
    + unfold lwpolyline_segments.
      destruct (Nat.ltb_spec 1 (length pts)) as [Hc|_]; [lia | reflexivity].
    + destruct closed.
      * now apply lwpolyline_closed_length.
      * apply lwpolyline_open_length.
  - reflexivity.
  - reflexivity.
Qed.

(** X1.  The number of extracted segments is the sum over the entities of
    the drawing: 1 for a line, 24 for an arc whose 25 sample angles are
    all finite and 0 for an arc with an infinite one, 36 for a circle, for
    a light-weight polyline of [n >= 2] points [n] when closed and [n - 1]
    when open, and 0 for everything else (also for a polyline of fewer
    than two points). *)
Theorem extract_segment_count :
  forall (T : Type) (A : Arith T) (Tr : Trig T) (TD : TrigDomain T)
         (msp : list (Entity T)),
    length (extract_segments_from_dxf msp) = list_sum (map segment_count msp).
Proof.
  intros T A Tr TD msp. rewrite extract_flat_map.
  induction msp as [|e msp IH]; [reflexivity|].
  cbn [flat_map map list_sum]. now rewrite length_app, entity_segments_length, IH.
Qed.

(** X2.  The segments of a closed light-weight polyline of at least two
    points start at its stored points, in order, and each ends where the
    next starts, the last one at the first stored point. *)
Theorem closed_lwpolyline_is_a_loop :
  forall (T : Type) (A : Arith T) (Tr : Trig T) (TD : TrigDomain T)
         (pts : list (Point T)),
    2 <= length pts ->
    map fst (entity_segments (LWPOLYLINE pts true)) = pts
    /\ map snd (entity_segments (LWPOLYLINE pts true)) = tl pts ++ firstn 1 pts.
Proof.
  intros T A Tr TD pts H. cbn [entity_segments]. unfold lwpolyline_segments.
  destruct pts as [|p [|q pts]]; cbn [length] in H; try lia.
  change (1 <? length (p :: q :: pts)) with true.
  cbn [andb is_empty negb firstn]. split.
  - rewrite zip_next_starts. apply removelast_last.
  - rewrite zip_next_ends. reflexivity.
Qed.

Lemma closed_lwpolyline_is_a_loop_witness :
  map fst (entity_segments (Tr := R_trig)
             (LWPOLYLINE [(0, 0); (1, 0); (1, 1)]%R true))
  = [(0, 0); (1, 0); (1, 1)]%R
  /\ map snd (entity_segments (Tr := R_trig)
                (LWPOLYLINE [(0, 0); (1, 0); (1, 1)]%R true))
     = [(1, 0); (1, 1); (0, 0)]%R.
Proof.
  apply (closed_lwpolyline_is_a_loop R R_arith R_trig R_trig_domain
           [(0, 0); (1, 0); (1, 1)]%R).
  cbn [length]. lia.
Defined.

(** The segment index of an endpoint record. *)
Definition record_segment {T : Type} (r : EndpointRecord T) : nat :=
  snd (fst r).

Section EndpointFacts.
Context {T : Type}.

(** The records of the segments numbered from [k]. *)
Lemma endpoints_from (k : nat) (segs : list (Segment T)) :
  let recs :=
    flat_map (fun '(i, (start, end_)) =>
                [(start, i, "start"%string); (end_, i, "end"%string)])
             (combine (seq k (length segs)) segs) in
  length recs = 2 * length segs
  /\ Forall (fun r : EndpointRecord T =>
               k <= record_segment r < k + length segs) recs
  /\ StronglySorted (fun r1 r2 : EndpointRecord T =>
                       record_segment r1 <= record_segment r2) recs.
Proof.
  revert k. induction segs as [|[s e] segs IH]; intros k recs.
  - subst recs. cbn. repeat split; constructor.
  - destruct (IH (S k)) as (Hl & Hb & Hs).
    subst recs. cbn [length seq combine flat_map app].
    split; [cbn [length]; rewrite Hl; lia|]. split.
    + constructor; [unfold record_segment; cbn [fst snd length]; lia|].
      constructor; [unfold record_segment; cbn [fst snd length]; lia|].
      eapply Forall_impl; [|exact Hb].
      intros r Hr. cbn beta in *. cbn [length]. lia.
    + constructor; [constructor; [exact Hs|] |].
      * eapply Forall_impl; [|exact Hb].
        intros r Hr. cbn beta in *. unfold record_segment in *.
        cbn [fst snd] in *. lia.
      * constructor; [unfold record_segment; cbn [fst snd]; lia|].
        eapply Forall_impl; [|exact Hb].
        intros r Hr. cbn beta in *. unfold record_segment in *.
        cbn [fst snd] in *. lia.
Qed.

Lemma unordered_pairs_sorted {X : Type} (R : X -> X -> Prop) (l : list X) :
  StronglySorted R l ->
  Forall (fun p => R (fst p) (snd p)) (unordered_pairs l).
Proof.
  induction 1 as [|a l Hs IH Ha]; cbn [unordered_pairs]; [constructor|].
  apply Forall_app. split; [|exact IH].
  apply Forall_map. exact Ha.
Qed.

Lemma unordered_pairs_members {X : Type} (P : X -> Prop) (l : list X) :
  Forall P l ->
  Forall (fun p => P (fst p) /\ P (snd p)) (unordered_pairs l).
Proof.
  induction 1 as [|a l Ha Hl IH]; cbn [unordered_pairs]; [constructor|].
  apply Forall_app. split; [|exact IH].
  apply Forall_map. eapply Forall_impl; [|exact Hl].
  intros b Hb. split; assumption.
Qed.
End EndpointFacts.

(** X3.  The loader builds two endpoint records per segment, and every gap
    found among them joins an earlier segment to a later one: its two
    segment indices satisfy [seg1 < seg2 < len(segments)]. *)
Theorem gaps_join_earlier_to_later_segment :
  forall (T : Type) (A : Arith T) (Pw : Power T)
         (segs : list (Segment T)) (tolerance : T) (gaps : list (Gap T)),
    find_close_points (endpoints_of segs) tolerance = Returned gaps ->
    length (endpoints_of segs) = 2 * length segs
    /\ Forall (fun g : Gap T =>
                 let '(_, seg1, _, seg2, _, _, _) := g in
                 seg1 < seg2 < length segs)
              gaps.
Proof.
  intros T A Pw segs tolerance gaps Hf.
  destruct (endpoints_from 0 segs) as (Hl & Hb & Hs).
  split; [exact Hl|].
  rewrite find_close_points_report in Hf. unfold gap_report in Hf.
  pose proof (unordered_pairs_sorted _ _ Hs) as Hord.
  pose proof (unordered_pairs_members _ _ Hb) as Hmem.
  refine (flat_map_raising_Forall
            (fun p : EndpointRecord T * EndpointRecord T =>
               record_segment (fst p) <= record_segment (snd p)
               /\ record_segment (snd p) < length segs)
            _ _ _ _ _ _ Hf).
  - intros [[[pt1 seg1] end1] [[pt2 seg2] end2]] bs [Hle Hlt].
    unfold record_segment in Hle, Hlt. cbn [fst snd] in Hle, Hlt.
    unfold pair_report.
    destruct (seg1 =? seg2) eqn:Hne; [intros [= <-]; constructor|].
    apply Nat.eqb_neq in Hne.
    destruct (euclidean pt1 pt2) as [d|e]; [|discriminate].
    destruct (_ && _); intros [= <-]; constructor; [|constructor]. lia.
  - rewrite Forall_forall in Hord, Hmem. apply Forall_forall.
    intros p Hin. split; [exact (Hord p Hin)|].
    destruct (Hmem p Hin) as [_ H2]. cbn beta in H2. lia.
Qed.

Lemma gaps_join_earlier_to_later_segment_witness :
  length (endpoints_of sample_line_segments) = 2 * length sample_line_segments
  /\ Forall (fun g : Gap float =>
               let '(_, seg1, _, seg2, _, _, _) := g in
               seg1 < seg2 < length sample_line_segments)
            sample_gaps.
Proof.
  apply (gaps_join_earlier_to_later_segment float float_arith rounded_power
           sample_line_segments 0.001%float sample_gaps).
  vm_compute. reflexivity.
Defined.

(** The distance recorded in a gap entry. *)
Definition gap_distance {T : Type} (g : Gap T) : T :=
  let '(d, _, _, _, _, _, _) := g in d.

Lemma filter_map_swap {X Y : Type} (f : X -> Y) (P : Y -> bool) (l : list X) :
  filter P (map f l) = map f (filter (fun x => P (f x)) l).
Proof.
  induction l as [|x l IH]; [reflexivity|].
  cbn [map filter]. destruct (P (f x)); cbn [map]; now rewrite IH.
Qed.

Lemma filter_filter {X : Type} (P Q : X -> bool) (l : list X) :
  filter P (filter Q l) = filter (fun x => Q x && P x) l.
Proof.
  induction l as [|x l IH]; [reflexivity|].
  cbn [filter]. destruct (Q x); cbn [filter andb]; [|exact IH].
  destruct (P x); now rewrite IH.
Qed.

Lemma filter_all_false {X : Type} (P : X -> bool) (l : list X) :
  (forall x, P x = false) -> filter P l = [].
Proof.
  intros H. induction l as [|x l IH]; [reflexivity|].
  cbn [filter]. now rewrite H.
Qed.

Lemma gap_distance_gap_of {T : Type} (dist : Point T -> Point T -> T)
    (p : EndpointRecord T * EndpointRecord T) :
  gap_distance (gap_of dist p)
  = dist (fst (fst (fst p))) (fst (fst (snd p))).
Proof. destruct p as [[[pt1 seg1] end1] [[pt2 seg2] end2]]. reflexivity. Qed.

(** X4.  In exact arithmetic the search returns for every tolerance, and
    a smaller tolerance finds exactly those gaps of a larger one whose
    distance is below the smaller tolerance, in the same order: raising
    the tolerance never loses a gap. *)
Theorem gaps_grow_with_tolerance :
  forall (points : list (EndpointRecord R)) (tol1 tol2 : R),
    (tol1 <= tol2)%R ->
    exists gaps1 gaps2,
      find_close_points points tol1 = Returned gaps1
      /\ find_close_points points tol2 = Returned gaps2
      /\ gaps1 = filter (fun g => Rltb (gap_distance g) tol1) gaps2.
Proof.
  intros points tol1 tol2 Hle.
  rewrite !find_close_points_real.
  eexists. eexists. split; [reflexivity|]. split; [reflexivity|].
  rewrite filter_map_swap, filter_filter. f_equal.
  apply filter_ext. intros p. rewrite gap_distance_gap_of.
  destruct p as [[[pt1 seg1] end1] [[pt2 seg2] end2]].
  unfold is_gap. cbn [fst snd num_lt R_arith].
  destruct (negb (seg1 =? seg2)); cbn [andb]; [|reflexivity].
  destruct (Rltb (num_of_int 0) (real_distance pt1 pt2)); cbn [andb];
    [|reflexivity].
  destruct (Rltb (real_distance pt1 pt2) tol1) eqn:H1; cbn [andb].
  - apply Rltb_true in H1.
    assert (H2 : Rltb (real_distance pt1 pt2) tol2 = true)
      by (apply Rltb_true; lra).
    now rewrite H2.
  - now rewrite andb_false_r.
Qed.

(** Two endpoint records over the reals, of two segments. *)
Definition sample_real_endpoints : list (EndpointRecord R) :=
  [((0%R, 0%R), 0, "end"%string); ((1%R, 0%R), 1, "start"%string)].

Lemma gaps_grow_with_tolerance_witness :
  exists gaps1 gaps2,
    find_close_points sample_real_endpoints 1%R = Returned gaps1
    /\ find_close_points sample_real_endpoints 2%R = Returned gaps2
    /\ gaps1 = filter (fun g => Rltb (gap_distance g) 1) gaps2.
Proof.
  apply (gaps_grow_with_tolerance
           sample_real_endpoints 1%R 2%R).
  lra.
Defined.

Lemma float_positive_not_below_zero (d : float) :
  PrimFloat.ltb 0%float d = true -> PrimFloat.ltb d 0%float = false.
Proof.
  rewrite !FloatAxioms.ltb_spec.
  change (FloatOps.Prim2SF 0%float) with (SpecFloat.S754_zero false).
  destruct (FloatOps.Prim2SF d) as [s|s| |s m e]; try destruct s;
    cbn; intros H; try reflexivity; discriminate H.
Qed.

(** A loop whose body yields nothing returns nothing. *)
Lemma flat_map_raising_nothing {X Y : Type} (f : X -> result (list Y))
    (l : list X) :
  (forall x bs, f x = Returned bs -> bs = []) ->
  flat_map_raising f l = Returned []
  \/ exists e, flat_map_raising f l = Raised e.
Proof.
  intros H. induction l as [|x l IH]; [left; reflexivity|].
  cbn [flat_map_raising].
  destruct (f x) as [bs|e] eqn:Hx; cbn [bind]; [|right; eexists; reflexivity].
  rewrite (H x bs Hx).
  destruct IH as [->|[e ->]]; cbn [bind];
    [left; reflexivity | right; eexists; reflexivity].
Qed.

(** X5.  A tolerance that is not positive finds no gap.  In exact
    arithmetic the search returns the empty list for every tolerance
    [<= 0]; on binary64 with the tolerance 0, whatever the rounding of
    [** 2], it returns the empty list unless a square overflows and it
    raises. *)
Theorem no_gap_without_tolerance :
  (forall (points : list (EndpointRecord R)) (tolerance : R),
      (tolerance <= 0)%R -> find_close_points points tolerance = Returned [])
  /\ (forall (Pw : Power float) (points : list (EndpointRecord float)),
         find_close_points points 0%float = Returned []
         \/ exists e, find_close_points points 0%float = Raised e).
Proof.
  split.
  - intros points tolerance Hle.
    rewrite find_close_points_real.
    replace (filter (is_gap real_distance tolerance) (unordered_pairs points))
      with (@nil (EndpointRecord R * EndpointRecord R)); [reflexivity|].
    symmetry. apply filter_all_false.
    intros [[[pt1 seg1] end1] [[pt2 seg2] end2]].
    unfold is_gap. cbn [num_lt num_of_int R_arith].
    destruct (Rltb 0 (real_distance pt1 pt2)) eqn:H0;
      [|now rewrite andb_false_r].
    apply Rltb_true in H0.
    destruct (Rltb (real_distance pt1 pt2) tolerance) eqn:H1;
      [|now rewrite andb_false_r].
    apply Rltb_true in H1. lra.
  - intros Pw points.
    rewrite find_close_points_report. unfold gap_report.
    apply flat_map_raising_nothing.
    intros [[[pt1 seg1] end1] [[pt2 seg2] end2]] bs. unfold pair_report.
    destruct (seg1 =? seg2); [now intros [= <-]|].
    destruct (euclidean pt1 pt2) as [d|e]; [|discriminate].
    cbn [num_lt num_of_int float_arith].
    change (float_of_Z 0) with 0%float.
    destruct (PrimFloat.ltb 0 d) eqn:H0; cbn [andb]; [|now intros [= <-]].
    rewrite (float_positive_not_below_zero _ H0). now intros [= <-].
Qed.

Lemma no_gap_without_tolerance_witness :
  find_close_points sample_real_endpoints (-1)%R = Returned [].
Proof.
  apply (proj1 no_gap_without_tolerance sample_real_endpoints (-1)%R).
  lra.
Defined.

(* ================================================================== *)
(** * Further properties of the reconstruction *)

Section HealerFacts.
Context {T Region : Type} {A : Arith T} {shp : Shapely T Region}.
Variable readfile : string -> result (list (Entity T)).

Lemma closed_rings_skip_open (geoms : list (LineString T)) :
  forall acc,
    closed_rings geoms acc = closed_rings (filter is_closed geoms) acc.
Proof.
  induction geoms as [|g geoms IH]; intros acc; [reflexivity|].
  cbn [closed_rings filter]. destruct (is_closed g) eqn:Hg.
  - cbn [closed_rings]. rewrite Hg.
    destruct (polygonize [g]) as [ps|e]; cbn [bind]; [apply IH | reflexivity].
  - apply IH.
Qed.

Lemma insert_by_area_perm (p : Polygon T) (l : list (Polygon T)) :
  Permutation (insert_by_area p l) (p :: l).
Proof.
  induction l as [|q l IH]; cbn [insert_by_area]; [reflexivity|].
  destruct (num_lt (area p) (area q)); [|reflexivity].
  rewrite IH. apply perm_swap.
Qed.

Lemma sort_by_area_perm (l : list (Polygon T)) :
  Permutation (sort_by_area l) l.
Proof.
  unfold sort_by_area. induction l as [|p l IH]; cbn [fold_right]; [reflexivity|].
  rewrite insert_by_area_perm. now constructor.
Qed.

Lemma ring_entities_count (l : list (Polygon T)) :
  length (flat_map ring_entities l)
  = length l + list_sum (map (fun p => length (interiors p)) l).
Proof.
  induction l as [|p l IH]; [reflexivity|].
  cbn [flat_map map length].
  rewrite length_app, ring_entities_length, IH.
  unfold list_sum. cbn [fold_right]. lia.
Qed.
End HealerFacts.

Lemma list_sum_map_perm {X : Type} (f : X -> nat) (l l' : list X) :
  Permutation l l' -> list_sum (map f l) = list_sum (map f l').
Proof.
  induction 1 as [|x l l' _ IH|x y l|l l' l'' _ IH1 _ IH2];
    unfold list_sum in *; cbn [map fold_right]; lia.
Qed.

(** X6.  Whatever [heal_dxf_gaps] returns is all or nothing: either count
    0 with the preserved originals (the empty list when it was given no
    segment), or the number of detected gaps, which is then not 0, with
    nothing but the ring polylines of the polygons found in the boundary
    of the buffered segments, largest area first. *)
Theorem healer_result_is_all_or_nothing :
  forall (T Region : Type) (A : Arith T) (Pw : Power T)
         (shp : Shapely T Region)
         (readfile : string -> result (list (Entity T)))
         (self : App T) (segs : list (Segment T))
         (ents : list (Entity T)) (n : nat),
    heal_dxf_gaps readfile self segs = Returned (ents, n) ->
    (n = 0
     /\ (ents = preserved_originals readfile self \/ (segs = [] /\ ents = [])))
    \/ (n <> 0
        /\ exists simplified polygons gaps,
             find_close_points (endpoints_of segs) (gap_tolerance self)
             = Returned gaps
             /\ n = length gaps
             /\ buffered_boundary segs (gap_tolerance self) = Returned simplified
             /\ polygons_of simplified = Returned polygons
             /\ polygons <> []
             /\ ents = flat_map ring_entities (sort_by_area polygons)).
Proof.
  intros T Region A Pw shp readfile self segs ents n H.
  destruct (Nat.eq_dec n 0) as [Hn|Hn].
  - left. split; [exact Hn|]. subst n.
    exact (heal_dxf_gaps_revert readfile self segs ents H).
  - right. split; [exact Hn|].
    destruct (heal_dxf_gaps_success readfile self segs ents n H Hn)
      as (simplified & polygons & gaps & Hb & Hp & Hne & He & Hf & Hc).
    exists simplified, polygons, gaps. auto 6.
Qed.

Lemma healer_result_is_all_or_nothing_witness :
  (1 = 0
   /\ ([LWPOLYLINE (coords sample_ring) true]
       = preserved_originals (one_file (sample_circle :: sample_lines)) sample_app
       \/ (sample_line_segments = []
           /\ [LWPOLYLINE (coords sample_ring) true] = [])))
  \/ (1 <> 0
      /\ exists (simplified : Curve float) (polygons : list (Polygon float))
                gaps,
           find_close_points (Pw := rounded_power)
             (endpoints_of sample_line_segments) (gap_tolerance sample_app)
           = Returned gaps
           /\ 1 = length gaps
           /\ buffered_boundary (shp := one_ring) sample_line_segments
                (gap_tolerance sample_app) = Returned simplified
           /\ polygons_of (shp := one_ring) simplified = Returned polygons
           /\ polygons <> []
           /\ [LWPOLYLINE (coords sample_ring) true]
              = flat_map ring_entities (sort_by_area polygons)).
Proof.
  apply (healer_result_is_all_or_nothing float unit float_arith rounded_power
           one_ring
           (one_file (sample_circle :: sample_lines)) sample_app
           sample_line_segments [LWPOLYLINE (coords sample_ring) true] 1).
  vm_compute. reflexivity.
Defined.

(** X7.  Open pieces of the buffered boundary play no part: the polygons
    extracted from a boundary of several curves are those extracted from
    its closed curves alone. *)
Theorem open_curves_are_ignored :
  forall (T Region : Type) (shp : Shapely T Region)
         (geoms : list (LineString T)),
    polygons_of (MultiLine geoms)
    = polygons_of (MultiLine (filter is_closed geoms)).
Proof.
  intros T Region shp geoms. cbn [polygons_of].
  now rewrite closed_rings_skip_open.
Qed.

(** X8.  Sorting by area only reorders the polygons, so however they are
    ordered the healed set has one entity per polygon plus one per hole. *)
Theorem healed_entity_count :
  forall (T : Type) (A : Arith T) (polygons : list (Polygon T)),
    Permutation (sort_by_area polygons) polygons
    /\ length (flat_map ring_entities (sort_by_area polygons))
       = length polygons
         + list_sum (map (fun p => length (interiors p)) polygons).
Proof.
  intros T A polygons. split; [apply sort_by_area_perm|].
  rewrite ring_entities_count.
  pose proof (sort_by_area_perm polygons) as Hp.
  rewrite (Permutation_length Hp). f_equal.
  apply list_sum_map_perm. exact Hp.
Qed.

Lemma insert_by_area_sorted (p : Polygon R) (l : list (Polygon R)) :
  Sorted (fun a b => (area b <= area a)%R) l ->
  Sorted (fun a b => (area b <= area a)%R) (insert_by_area p l).
Proof.
  induction l as [|q l IH]; intros Hs; cbn [insert_by_area].
  - repeat constructor.
  - cbn [num_lt R_arith]. unfold Rltb.
    destruct (Rlt_dec (area p) (area q)) as [Hlt|Hge].
    + inversion Hs as [|? ? Hs' Hhd]; subst.
      constructor; [apply IH; exact Hs'|].
      destruct l as [|r l]; cbn [insert_by_area].
      * constructor. lra.
      * cbn [num_lt R_arith]. unfold Rltb.
        destruct (Rlt_dec (area p) (area r)).
        -- inversion Hhd; subst. constructor. assumption.
        -- constructor. lra.
    + constructor; [exact Hs|]. constructor. lra.
Qed.

(** X9.  In exact arithmetic the polygons are healed largest area first:
    after the sort no polygon has a larger area than the one before it. *)
Theorem polygons_sorted_largest_first :
  forall polygons : list (Polygon R),
    Sorted (fun a b => (area b <= area a)%R) (sort_by_area polygons).
Proof.
  intros polygons. unfold sort_by_area.
  induction polygons as [|p l IH]; cbn [fold_right]; [constructor|].
  apply insert_by_area_sorted. exact IH.
Qed.

(** Whether the loop of [extract_segments_from_dxf] passes an entity by. *)
Definition passed_by {T : Type} (e : Entity T) : bool :=
  negb (tessellated (dxftype e)).

Lemma extract_passed_by {T : Type} {A : Arith T} {Tr : Trig T}
    {TD : TrigDomain T} (msp : list (Entity T)) :
  forallb passed_by msp = true -> extract_segments_from_dxf msp = [].
Proof.
  intros H. rewrite extract_flat_map.
  induction msp as [|e msp IH]; [reflexivity|].
  cbn [forallb] in H. apply andb_prop in H. destruct H as [He Hm].
  cbn [flat_map]. rewrite (IH Hm), app_nil_r.
  apply extract_nothing. unfold passed_by in He.
  now apply negb_true_iff in He.
Qed.

(** X10.  A drawing in which no entity is a line, an arc, a circle or a
    light-weight polyline loads as nothing: the loader returns no entity
    and count 0 without converting or healing, even when the drawing holds
    closed old-style polylines. *)
Theorem drawing_without_tessellated_entities_loads_empty :
  forall (T Region : Type) (A : Arith T) (Pw : Power T)
         (shp : Shapely T Region) (Tr : Trig T) (TD : TrigDomain T)
         (readfile : string -> result (list (Entity T)))
         (self : App T) (path : string) (msp : list (Entity T)),
    readfile path = Returned msp ->
    forallb passed_by msp = true ->
    load_dxf_with_healing readfile self path
    = (set_segments self [], Returned ([], 0)).
Proof.
  intros T Region A Pw shp Tr TD readfile self path msp Hr Hp.
  unfold load_dxf_with_healing. rewrite Hr, (extract_passed_by msp Hp).
  reflexivity.
Qed.

Lemma drawing_without_tessellated_entities_loads_empty_witness :
  load_dxf_with_healing (shp := scripted_shapely (Returned tt)
                                  (Returned OtherGeometry) (Returned []))
    (Tr := R_trig)
    (one_file [POLYLINE [(0%R, 0%R); (1%R, 0%R); (1%R, 1%R)] true;
               OTHER "SPLINE"])
    {| dxf_file := "board.dxf"; heal_gaps := true; gap_tolerance := 1%R;
       segments := [((0%R, 0%R), (1%R, 1%R))] |}
    "board.dxf"
  = ({| dxf_file := "board.dxf"; heal_gaps := true; gap_tolerance := 1%R;
        segments := [] |},
     Returned ([], 0)).
Proof.
  apply (drawing_without_tessellated_entities_loads_empty R unit R_arith
           R_power
           (scripted_shapely (Returned tt) (Returned OtherGeometry) (Returned []))
           R_trig R_trig_domain
           (one_file [POLYLINE [(0%R, 0%R); (1%R, 0%R); (1%R, 1%R)] true;
                      OTHER "SPLINE"])
           {| dxf_file := "board.dxf"; heal_gaps := true; gap_tolerance := 1%R;
              segments := [((0%R, 0%R), (1%R, 1%R))] |}
           "board.dxf"
           [POLYLINE [(0%R, 0%R); (1%R, 0%R); (1%R, 1%R)] true; OTHER "SPLINE"]).
  - reflexivity.
  - reflexivity.
Defined.

(** X11.  Loading changes one attribute of the application only:
    [segments] becomes the extracted segments whenever the file could be
    read (also when detection, conversion or healing then raises) and
    stays as it was when it could not; the file name, the healing switch
    and the tolerance are never changed. *)
Theorem loading_only_sets_segments :
  forall (T Region : Type) (A : Arith T) (Pw : Power T)
         (shp : Shapely T Region) (Tr : Trig T) (TD : TrigDomain T)
         (readfile : string -> result (list (Entity T)))
         (self : App T) (path : string),
    let self' := fst (load_dxf_with_healing readfile self path) in
    dxf_file self' = dxf_file self
    /\ heal_gaps self' = heal_gaps self
    /\ gap_tolerance self' = gap_tolerance self
    /\ segments self'
       = match readfile path with
         | Returned msp => extract_segments_from_dxf msp
         | Raised _ => segments self
         end.
Proof.
  intros T Region A Pw shp Tr TD readfile self path. cbv zeta.
  destruct (readfile path) as [msp|e] eqn:Hr.
  - assert (H : fst (load_dxf_with_healing readfile self path)
                = set_segments self (extract_segments_from_dxf msp)).
    { unfold load_dxf_with_healing. rewrite Hr.
      destruct (is_empty (extract_segments_from_dxf msp)); [reflexivity|].
      destruct (heal_gaps (set_segments self (extract_segments_from_dxf msp)));
        reflexivity. }
    rewrite H. repeat split.
  - unfold load_dxf_with_healing. rewrite Hr. repeat split.
Qed.












(** The entities [convert_segments_to_entities] puts after the circles: a
    [LINE], a closed light-weight polyline, or (on the fallback) a closed
    old-style polyline. *)
Definition converted_kind {T : Type} (e : Entity T) : bool :=
  match e with
  | LINE _ _ => true
  | LWPOLYLINE _ true => true
  | POLYLINE _ true => true
  | _ => false
  end.

Lemma entities_of_linestring_kind {T : Type} (l : LineString T) :
  forallb converted_kind (entities_of_linestring l) = true.
Proof.
  unfold entities_of_linestring. destruct (is_closed l); [reflexivity|].
  apply forallb_forall. intros e He. apply in_map_iff in He.
  destruct He as (s & <- & _). reflexivity.
Qed.

(** X13.  Once the line strings are built, [convert_segments_to_entities]
    does not raise, with or without a failing [linemerge]: it returns the
    circles of the drawing first, in drawing order, followed only by
    lines and closed polylines; no arc and no open polyline is returned. *)
Theorem convert_returns_circles_first :
  forall (T Region : Type) (shp : Shapely T Region)
         (segs : list (Segment T)) (msp : list (Entity T))
         (lines : list (LineString T)),
    lines_of segs = Returned lines ->
    exists rest,
      convert_segments_to_entities segs msp
      = Returned (filter is_circle msp ++ rest)
      /\ forallb converted_kind rest = true.
Proof.
  intros T Region shp segs msp lines Hl.
  unfold convert_segments_to_entities. rewrite Hl. cbn [bind].
  destruct (linemerge lines) as [[l|geoms|]|e]; cbn [bind try_except].
  - exists (entities_of_linestring l). split; [reflexivity|].
    apply entities_of_linestring_kind.
  - exists (flat_map entities_of_linestring geoms). split; [reflexivity|].
    apply forallb_forall. intros e He. apply in_flat_map in He.
    destruct He as (l & _ & He).
    pose proof (entities_of_linestring_kind l) as Hk.
    rewrite forallb_forall in Hk. now apply Hk.
  - exists []. split; [now rewrite app_nil_r | reflexivity].
  - exists (original_polylines msp). split; [reflexivity|].
    apply forallb_forall. intros x Hx. unfold original_polylines in Hx.
    apply filter_In in Hx. destruct Hx as [_ Hx].
    destruct x as [| | |pts [|]|v [|]|]; try discriminate Hx; reflexivity.
Qed.

Lemma convert_returns_circles_first_witness :
  exists rest,
    convert_segments_to_entities (shp := linemerge_fails) sample_line_segments
      (sample_circle :: sample_old_polyline :: sample_lines)
    = Returned (filter is_circle
                  (sample_circle :: sample_old_polyline :: sample_lines)
                ++ rest)
    /\ forallb converted_kind rest = true.
Proof.
  apply (convert_returns_circles_first float unit linemerge_fails
           sample_line_segments
           (sample_circle :: sample_old_polyline :: sample_lines)
           [ {| coords := [(0, 0); (1, 0)]%float; is_closed := false |};
             {| coords := [(1, 0.0005); (1, 1)]%float; is_closed := false |} ]).
  reflexivity.
Defined.

(* ================================================================== *)
(** * Loading into the window *)

(** What the application shows the operator. *)
Inductive Dialog : Type :=
| WarningDialog (message : string)
| HealedInfo (gap_count : nat)
| ErrorDialog (e : exn).

(** The two selection dictionaries of [KicadDxfApp], in insertion order
    as Python keeps them.  The keys of [selected_entities] are entity
    objects, here their identities; those of [selected_segments] are pairs
    of an entity and a segment index. *)
Record Selection : Type := {
  selected_entities : list (nat * bool);
  selected_segments : list ((nat * nat) * bool)
}.

Definition no_selection : Selection :=
  {| selected_entities := []; selected_segments := [] |}.

(** The attributes of [KicadDxfApp] that [load_and_display_dxf] reads and
    writes besides those of [App]: the text of the file entry, the entities
    on display and the selection.  The canvas and the view, which
    [display_dxf_entities] redraws, are not part of the model. *)
Record Window (T : Type) : Type := {
  app : App T;
  dxf_file_var : string;
  entities : list (Entity T);
  selection : Selection
}.

Arguments app {T} _.
Arguments dxf_file_var {T} _.
Arguments entities {T} _.
Arguments selection {T} _.

Section Loading.
Context {T Region : Type} {A : Arith T} {Pw : Power T}
        {shp : Shapely T Region} {Tr : Trig T} {TD : TrigDomain T}.
Variable readfile : string -> result (list (Entity T)).

(** Lines 2194-2205. *)
Definition load_dxf (dxf_file : string)
  : result (list (Entity T) * list (Entity T)) :=
  msp <- readfile dxf_file ;;
  let circles := filter is_circle msp in
  let polylines := filter is_closed_lwpolyline msp in
  Returned (circles, polylines).

(** Lines 488-517. *)
Definition load_and_display_dxf (self : Window T) : Window T * list Dialog :=
  let dxf_file := dxf_file_var self in
  if (dxf_file =? "")%string
  then (self, [WarningDialog "Please select a DXF file first."])
  else
    let self := {| app := app self; dxf_file_var := dxf_file_var self;
                   entities := entities self;
                   selection := no_selection |} in
    if heal_gaps (app self) then
      let '(app', r) := load_dxf_with_healing readfile (app self) dxf_file in
      let self := {| app := app'; dxf_file_var := dxf_file_var self;
                     entities := entities self;
                     selection := selection self |} in
      match r with
      | Returned (ents, gap_count) =>
          ({| app := app self; dxf_file_var := dxf_file_var self;
              entities := ents;
              selection := selection self |},
           if 0 <? gap_count then [HealedInfo gap_count] else [])
      | Raised e => (self, [ErrorDialog e])
      end
    else
      match load_dxf dxf_file with
      | Returned (circles, polylines) =>
          ({| app := app self; dxf_file_var := dxf_file_var self;
              entities := circles ++ polylines;
              selection := selection self |}, [])
      | Raised e => (self, [ErrorDialog e])
      end.
End Loading.

(** X14.  With healing switched off the window shows the circles and the
    closed light-weight polylines of the drawing and nothing else (no line,
    no arc), without any dialog; this is the very list the healer preserves
    for a revert when the application's file is the one in the entry.  The
    application object, its [segments] included, is left as it was. *)
Theorem load_without_healing_shows_preserved_set :
  forall (T Region : Type) (A : Arith T) (Pw : Power T)
         (shp : Shapely T Region) (Tr : Trig T) (TD : TrigDomain T)
         (readfile : string -> result (list (Entity T)))
         (self : Window T) (msp : list (Entity T)),
    heal_gaps (app self) = false ->
    dxf_file_var self <> ""%string ->
    readfile (dxf_file_var self) = Returned msp ->
    let self' := fst (load_and_display_dxf readfile self) in
    entities self' = filter is_circle msp ++ filter is_closed_lwpolyline msp
    /\ (dxf_file (app self) = dxf_file_var self ->
        entities self' = preserved_originals readfile (app self))
    /\ app self' = app self
    /\ snd (load_and_display_dxf readfile self) = [].
Proof.
  intros T Region A Pw shp Tr TD readfile self msp Hh Hne Hr. cbv zeta.
  unfold load_and_display_dxf.
  destruct (String.eqb_spec (dxf_file_var self) "") as [He|_]; [contradiction|].
  cbn [app dxf_file_var entities]. rewrite Hh. unfold load_dxf.
  rewrite Hr. cbn [bind fst snd entities app].
  repeat split.
  intros Hf. unfold preserved_originals. now rewrite Hf, Hr.
Qed.

(** The application with healing switched off, over the reals. *)
Definition sample_app_no_healing : App R :=
  {| dxf_file := "board.dxf";
     heal_gaps := false;
     gap_tolerance := (1 / 1000)%R;
     segments := [] |}.

Definition sample_real_line : Entity R := LINE (0%R, 0%R) (1%R, 0%R).

Lemma load_without_healing_shows_preserved_set_witness :
  let self := {| app := sample_app_no_healing; dxf_file_var := "board.dxf";
                 entities := [];
                 selection := {| selected_entities := [(7, true)];
                                 selected_segments := [] |} |} in
  let drawing := [sample_real_line; CIRCLE (5%R, 5%R) 1%R] in
  let self' := fst (load_and_display_dxf
                      (shp := scripted_shapely (Returned tt)
                                (Returned OtherGeometry) (Returned []))
                      (Tr := R_trig) (one_file drawing) self) in
  entities self' = [CIRCLE (5%R, 5%R) 1%R]
  /\ (dxf_file (app self) = dxf_file_var self ->
      entities self' = preserved_originals (one_file drawing) (app self))
  /\ app self' = app self
  /\ snd (load_and_display_dxf
            (shp := scripted_shapely (Returned tt)
                      (Returned OtherGeometry) (Returned []))
            (Tr := R_trig) (one_file drawing) self) = [].
Proof.
  cbv zeta.
  apply (load_without_healing_shows_preserved_set R unit R_arith R_power
           (scripted_shapely (Returned tt) (Returned OtherGeometry) (Returned []))
           R_trig R_trig_domain (one_file [sample_real_line; CIRCLE (5%R, 5%R) 1%R])
           {| app := sample_app_no_healing; dxf_file_var := "board.dxf";
              entities := [];
              selection := {| selected_entities := [(7, true)];
                              selected_segments := [] |} |}
           [sample_real_line; CIRCLE (5%R, 5%R) 1%R]).
  - reflexivity.
  - discriminate.
  - reflexivity.
Defined.

(** X15.  A load that cannot read the file shows the exception in one error
    dialog and keeps the entities on display, yet both selections are
    already cleared; with an empty file entry nothing at all changes and a
    warning is shown. *)
Theorem failed_load_keeps_entities_clears_selection :
  forall (T Region : Type) (A : Arith T) (Pw : Power T)
         (shp : Shapely T Region) (Tr : Trig T) (TD : TrigDomain T)
         (readfile : string -> result (list (Entity T)))
         (self : Window T),
    (forall e,
        dxf_file_var self <> ""%string ->
        readfile (dxf_file_var self) = Raised e ->
        load_and_display_dxf readfile self
        = ({| app := app self; dxf_file_var := dxf_file_var self;
              entities := entities self;
              selection := no_selection |},
           [ErrorDialog e]))
    /\ (dxf_file_var self = ""%string ->
        load_and_display_dxf readfile self
        = (self, [WarningDialog "Please select a DXF file first."])).
Proof.
  intros T Region A Pw shp Tr TD readfile self. split.
  - intros e Hne Hr. unfold load_and_display_dxf.
    destruct (String.eqb_spec (dxf_file_var self) "") as [He|_]; [contradiction|].
    cbn [app dxf_file_var entities selection].
    unfold load_dxf, load_dxf_with_healing. rewrite Hr.
    destruct (heal_gaps (app self)); reflexivity.
  - intros He. unfold load_and_display_dxf. rewrite He. reflexivity.
Qed.

(** A window over the reals with something on display and selected. *)
Definition sample_window (entry : string) : Window R :=
  {| app := sample_app_no_healing; dxf_file_var := entry;
     entities := [sample_real_line];
     selection := {| selected_entities := [(7, true)];
                     selected_segments := [((7, 0), true)] |} |}.

(** A geometry library that is never asked anything of interest. *)
Definition idle_shapely : Shapely R unit :=
  scripted_shapely (Returned tt) (Returned OtherGeometry) (Returned []).

Lemma failed_load_keeps_entities_clears_selection_witness :
  load_and_display_dxf (shp := idle_shapely) (Tr := R_trig) no_file
                       (sample_window "board.dxf")
  = ({| app := sample_app_no_healing; dxf_file_var := "board.dxf";
        entities := [sample_real_line];
        selection := no_selection |},
     [ErrorDialog (Exception "No such file")])
  /\ load_and_display_dxf (shp := idle_shapely) (Tr := R_trig) no_file
                          (sample_window "")
     = (sample_window "", [WarningDialog "Please select a DXF file first."]).
Proof.
  split.
  - apply (proj1 (failed_load_keeps_entities_clears_selection R unit R_arith
                    R_power idle_shapely R_trig R_trig_domain no_file (sample_window "board.dxf"))
                 (Exception "No such file")).
    + discriminate.
    + reflexivity.
  - apply (proj2 (failed_load_keeps_entities_clears_selection R unit R_arith
                    R_power idle_shapely R_trig R_trig_domain no_file (sample_window ""))).
    reflexivity.
Defined.

(* ================================================================== *)
(** * Selecting on the canvas *)

(** A Python [dict] as the list of its items in insertion order. *)
Section Dict.
Context {K V : Type}.
Variable eqb : K -> K -> bool.

(** [k in d] *)
Definition dict_in (k : K) (d : list (K * V)) : bool :=
  existsb (fun kv => eqb k (fst kv)) d.

(** [d[k]], or [None] where Python raises [KeyError]. *)
Fixpoint dict_get (k : K) (d : list (K * V)) : option V :=
  match d with
  | [] => None
  | (k', v') :: d' => if eqb k k' then Some v' else dict_get k d'
  end.

(** [d[k] = v]: a key already present keeps its place. *)
Fixpoint dict_set (k : K) (v : V) (d : list (K * V)) : list (K * V) :=
  match d with
  | [] => [(k, v)]
  | (k', v') :: d' =>
      if eqb k k' then (k', v) :: d' else (k', v') :: dict_set k v d'
  end.

(** [del d[k]], for a key that is present. *)
Fixpoint dict_del (k : K) (d : list (K * V)) : list (K * V) :=
  match d with
  | [] => []
  | (k', v') :: d' => if eqb k k' then d' else (k', v') :: dict_del k d'
  end.
End Dict.

Definition key_eqb (a b : nat * nat) : bool :=
  (fst a =? fst b) && (snd a =? snd b).

(** The attributes the selection handlers read: the mode, the zone type
    chosen for new selections, and the two dictionaries from canvas items
    to what they draw. *)
Record Canvas : Type := {
  app_mode : string;
  boundary_type_var : string;
  canvas_entities : list (nat * nat);
  segment_entities : list (nat * (nat * nat))
}.

(** [event.state & 0x0004] and [event.state & 0x0001], as conditions. *)
Definition ctrl_pressed (state : Z) : bool := negb (Z.land state 4 =? 0)%Z.

Definition shift_pressed (state : Z) : bool := negb (Z.land state 1 =? 0)%Z.

Definition with_entities (sel : Selection) (d : list (nat * bool)) : Selection :=
  {| selected_entities := d; selected_segments := selected_segments sel |}.

Definition with_segments (sel : Selection) (d : list ((nat * nat) * bool))
  : Selection :=
  {| selected_entities := selected_entities sel; selected_segments := d |}.

(** Lines 1194-1242. *)
Definition handle_entity_click (c : Canvas) (sel : Selection)
    (state : Z) (canvas_id : nat) : Selection :=
  if (app_mode c =? "zone")%string then
    match dict_get Nat.eqb canvas_id (canvas_entities c) with
    | Some entity =>
        let boundary_type := (boundary_type_var c =? "outer")%string in
        let selected := selected_entities sel in
        if ctrl_pressed state then
          if dict_in Nat.eqb entity selected
          then with_entities sel (dict_del Nat.eqb entity selected)
          else sel
        else if shift_pressed state then
          with_entities sel (dict_set Nat.eqb entity boundary_type selected)
        else
          if dict_in Nat.eqb entity selected
          then with_entities sel (dict_del Nat.eqb entity selected)
          else with_entities sel (dict_set Nat.eqb entity boundary_type selected)
    | None => sel
    end
  else
    match dict_get Nat.eqb canvas_id (segment_entities c) with
    | Some segment_key =>
        let selected := selected_segments sel in
        if ctrl_pressed state then
          if dict_in key_eqb segment_key selected
          then with_segments sel (dict_del key_eqb segment_key selected)
          else sel
        else if shift_pressed state then
          with_segments sel (dict_set key_eqb segment_key true selected)
        else
          if dict_in key_eqb segment_key selected && (length selected =? 1)
          then with_segments sel []
          else with_segments sel [(segment_key, true)]
    | None => sel
    end.

(** Lines 1119-1137 and 1168-1187: the loop over the canvas items found in
    the selection box.  [last_event_state] is the attribute
    [_last_event_state], absent until a button was released. *)
Definition box_control_pressed (last_event_state : option Z) : bool :=
  match last_event_state with
  | Some state => ctrl_pressed state
  | None => false
  end.

Definition select_entities_in_box (c : Canvas) (sel : Selection)
    (last_event_state : option Z) (items : list nat) : Selection :=
  let boundary_type := (boundary_type_var c =? "outer")%string in
  let control_pressed := box_control_pressed last_event_state in
  fold_left
    (fun sel item =>
       match dict_get Nat.eqb item (canvas_entities c) with
       | Some entity =>
           if control_pressed then
             if dict_in Nat.eqb entity (selected_entities sel)
             then with_entities sel (dict_del Nat.eqb entity (selected_entities sel))
             else sel
           else
             with_entities sel
               (dict_set Nat.eqb entity boundary_type (selected_entities sel))
       | None => sel
       end)
    items sel.

Definition select_segments_in_box (c : Canvas) (sel : Selection)
    (last_event_state : option Z) (items : list nat) : Selection :=
  let control_pressed := box_control_pressed last_event_state in
  fold_left
    (fun sel item =>
       match dict_get Nat.eqb item (segment_entities c) with
       | Some segment_key =>
           if control_pressed then
             if dict_in key_eqb segment_key (selected_segments sel)
             then with_segments sel (dict_del key_eqb segment_key (selected_segments sel))
             else sel
           else
             with_segments sel
               (dict_set key_eqb segment_key true (selected_segments sel))
       | None => sel
       end)
    items sel.

(** [list(d.keys())[idx]], raising [IndexError] out of range. *)
Definition key_at {K V : Type} (d : list (K * V)) (idx : nat) : result K :=
  match nth_error d idx with
  | Some kv => Returned (fst kv)
  | None => Raised (Exception "list index out of range")
  end.

(** Lines 2144-2167; [selected_row] is the index of the row selected in the
    list, if any. *)
Definition remove_selection (c : Canvas) (sel : Selection)
    (selected_row : option nat) : result Selection :=
  match selected_row with
  | None => Returned sel
  | Some idx =>
      if (app_mode c =? "zone")%string then
        if idx <? length (selected_entities sel) then
          entity <- key_at (selected_entities sel) idx ;;
          Returned (with_entities sel (dict_del Nat.eqb entity (selected_entities sel)))
        else Returned sel
      else
        if idx <? length (selected_segments sel) then
          segment_key <- key_at (selected_segments sel) idx ;;
          Returned (with_segments sel
                      (dict_del key_eqb segment_key (selected_segments sel)))
        else Returned sel
  end.

(** Lines 2120-2142; [d[entity]] is read, so a missing key raises. *)
Definition change_entity_type (c : Canvas) (sel : Selection)
    (selected_row : option nat) : result Selection :=
  match selected_row with
  | None => Returned sel
  | Some idx =>
      if negb (app_mode c =? "zone")%string || is_empty (selected_entities sel)
      then Returned sel
      else
        entity <- key_at (selected_entities sel) idx ;;
        match dict_get Nat.eqb entity (selected_entities sel) with
        | Some is_outer =>
            Returned (with_entities sel
                        (dict_set Nat.eqb entity (negb is_outer)
                                  (selected_entities sel)))
        | None => Raised (Exception "KeyError")
        end
  end.

Section DictFacts.
Context {K V : Type}.
Variable eqb : K -> K -> bool.
Hypothesis eqb_spec : forall a b, reflect (a = b) (eqb a b).

Lemma dict_in_get (k : K) (d : list (K * V)) :
  dict_in eqb k d = false <-> dict_get eqb k d = None.
Proof.
  induction d as [|[k' v'] d IH]; cbn [dict_in existsb dict_get fst];
    [tauto|].
  destruct (eqb k k'); cbn [orb]; [split; discriminate | exact IH].
Qed.

Lemma dict_in_keys (k : K) (d : list (K * V)) :
  dict_in eqb k d = true <-> In k (map fst d).
Proof.
  induction d as [|[k' v'] d IH]; cbn [dict_in existsb map fst In].
  - split; [discriminate | tauto].
  - rewrite orb_true_iff. fold (dict_in eqb k d). rewrite IH.
    destruct (eqb_spec k k') as [->|Hne]; split; auto.
    + intros [H|H]; [discriminate | auto].
    + intros [H|H]; [congruence | auto].
Qed.

Lemma dict_set_absent (k : K) (v : V) (d : list (K * V)) :
  dict_in eqb k d = false -> dict_set eqb k v d = d ++ [(k, v)].
Proof.
  induction d as [|[k' v'] d IH]; cbn [dict_in existsb dict_set fst List.app];
    [reflexivity|].
  destruct (eqb k k'); cbn [orb]; [discriminate|].
  intros H. now rewrite (IH H).
Qed.

Lemma dict_del_appended (k : K) (v : V) (d : list (K * V)) :
  dict_in eqb k d = false -> dict_del eqb k (d ++ [(k, v)]) = d.
Proof.
  induction d as [|[k' v'] d IH]; intros H.
  - cbn. destruct (eqb_spec k k); [reflexivity | congruence].
  - cbn [dict_in existsb fst] in H. cbn [List.app dict_del].
    destruct (eqb k k'); cbn [orb] in H; [discriminate|].
    now rewrite (IH H).
Qed.

Lemma dict_in_appended (k : K) (v : V) (d : list (K * V)) :
  dict_in eqb k (d ++ [(k, v)]) = true.
Proof.
  apply dict_in_keys. rewrite map_app. apply in_or_app. right. now left.
Qed.

Lemma dict_get_set_same (k : K) (v : V) (d : list (K * V)) :
  dict_get eqb k (dict_set eqb k v d) = Some v.
Proof.
  induction d as [|[k' v'] d IH]; cbn [dict_set dict_get].
  - destruct (eqb_spec k k); [reflexivity | congruence].
  - destruct (eqb k k') eqn:E; cbn [dict_get]; rewrite E; [reflexivity | exact IH].
Qed.

Lemma dict_get_set_other (k k' : K) (v : V) (d : list (K * V)) :
  k' <> k -> dict_get eqb k' (dict_set eqb k v d) = dict_get eqb k' d.
Proof.
  intros Hne. induction d as [|[k0 v0] d IH]; cbn [dict_set dict_get].
  - destruct (eqb_spec k' k); [congruence | reflexivity].
  - destruct (eqb_spec k k0) as [->|Hk]; cbn [dict_get].
    + destruct (eqb_spec k' k0); [congruence | reflexivity].
    + now rewrite IH.
Qed.

Lemma dict_get_del_other (k k' : K) (d : list (K * V)) :
  k' <> k -> dict_get eqb k' (dict_del eqb k d) = dict_get eqb k' d.
Proof.
  intros Hne. induction d as [|[k0 v0] d IH]; cbn [dict_del dict_get];
    [reflexivity|].
  destruct (eqb_spec k k0) as [->|Hk].
  - destruct (eqb_spec k' k0); [congruence | reflexivity].
  - cbn [dict_get]. now rewrite IH.
Qed.

Lemma dict_del_keys_subset (k k' : K) (d : list (K * V)) :
  In k' (map fst (dict_del eqb k d)) -> In k' (map fst d).
Proof.
  induction d as [|[k0 v0] d IH]; cbn [dict_del map fst In]; [tauto|].
  destruct (eqb k k0); cbn [map fst In]; tauto.
Qed.

Lemma dict_get_del_same (k : K) (d : list (K * V)) :
  NoDup (map fst d) -> dict_get eqb k (dict_del eqb k d) = None.
Proof.
  induction d as [|[k0 v0] d IH]; cbn [dict_del map fst]; intros Hn;
    [reflexivity|].
  inversion Hn as [|? ? Hnot Hn']; subst.
  destruct (eqb_spec k k0) as [->|Hk].
  - apply dict_in_get. destruct (dict_in eqb k0 d) eqn:E; [|reflexivity].
    apply dict_in_keys in E. contradiction.
  - cbn [dict_get]. destruct (eqb_spec k k0); [congruence|]. now apply IH.
Qed.

Lemma dict_set_keys (k : K) (v : V) (d : list (K * V)) :
  dict_in eqb k d = true -> map fst (dict_set eqb k v d) = map fst d.
Proof.
  induction d as [|[k0 v0] d IH]; cbn [dict_in existsb dict_set map fst];
    [discriminate|].
  destruct (eqb k k0); cbn [orb map fst]; [reflexivity|].
  intros H. now rewrite (IH H).
Qed.

Lemma dict_set_nodup (k : K) (v : V) (d : list (K * V)) :
  NoDup (map fst d) -> NoDup (map fst (dict_set eqb k v d)).
Proof.
  intros Hn. destruct (dict_in eqb k d) eqn:E.
  - now rewrite dict_set_keys.
  - rewrite (dict_set_absent k v d E), map_app.
    cbn [map fst].
    apply NoDup_app_remove_l with (l := []).
    cbn [List.app].
    assert (Hk : ~ In k (map fst d)).
    { intros Hin. apply dict_in_keys in Hin. congruence. }
    clear E. induction d as [|[k0 v0] d IH]; cbn [map fst List.app].
    + constructor; [intros []|constructor].
    + inversion Hn; subst. cbn [map fst In] in Hk. constructor.
      * intros Hin. apply in_app_or in Hin. destruct Hin as [Hin|[Hin|[]]];
          [contradiction | subst; tauto].
      * apply IH; [assumption | tauto].
Qed.

Lemma dict_del_nodup (k : K) (d : list (K * V)) :
  NoDup (map fst d) -> NoDup (map fst (dict_del eqb k d)).
Proof.
  induction d as [|[k0 v0] d IH]; cbn [dict_del map fst]; intros Hn;
    [constructor|].
  inversion Hn; subst. destruct (eqb k k0); [assumption|].
  cbn [map fst]. constructor; [|now apply IH].
  intros Hin. apply dict_del_keys_subset in Hin. contradiction.
Qed.

(** The item at a position of a dictionary without repeated keys. *)
Lemma dict_at_position (d : list (K * V)) (idx : nat) (k : K) (v : V) :
  NoDup (map fst d) ->
  nth_error d idx = Some (k, v) ->
  dict_get eqb k d = Some v
  /\ dict_del eqb k d = firstn idx d ++ skipn (S idx) d
  /\ forall v', dict_set eqb k v' d = firstn idx d ++ (k, v') :: skipn (S idx) d.
Proof.
  revert idx. induction d as [|[k0 v0] d IH]; intros idx Hn Hnth.
  - destruct idx; discriminate.
  - cbn [map fst] in Hn. inversion Hn as [|? ? Hnot Hn']; subst.
    destruct idx as [|idx]; cbn [nth_error] in Hnth.
    + inversion Hnth; subst. cbn [dict_get dict_del dict_set firstn skipn List.app].
      destruct (eqb_spec k k); [|congruence]. repeat split.
    + assert (Hne : k <> k0).
      { intros ->. apply Hnot. apply nth_error_In in Hnth.
        apply (in_map fst) in Hnth. exact Hnth. }
      destruct (IH idx Hn' Hnth) as (Hg & Hd & Hs).
      cbn [dict_get dict_del dict_set firstn skipn List.app].
      destruct (eqb_spec k k0); [congruence|].
      split; [exact Hg|]. split; [now rewrite Hd|].
      intros v'. now rewrite Hs.
Qed.
End DictFacts.

Lemma key_eqb_spec (a b : nat * nat) : reflect (a = b) (key_eqb a b).
Proof.
  destruct a as [a1 a2], b as [b1 b2]. unfold key_eqb. cbn [fst snd].
  destruct (Nat.eqb_spec a1 b1), (Nat.eqb_spec a2 b2); cbn [andb];
    constructor; congruence.
Qed.

Lemma dict_set_idem {K V : Type} (eqb : K -> K -> bool)
    (eqb_spec : forall a b, reflect (a = b) (eqb a b))
    (k : K) (v : V) (d : list (K * V)) :
  dict_set eqb k v (dict_set eqb k v d) = dict_set eqb k v d.
Proof.
  induction d as [|[k0 v0] d IH]; cbn [dict_set].
  - destruct (eqb_spec k k); [reflexivity | congruence].
  - destruct (eqb k k0) eqn:E; cbn [dict_set]; rewrite E; [reflexivity|].
    now rewrite IH.
Qed.

Lemma with_entities_same (sel : Selection) :
  with_entities sel (selected_entities sel) = sel.
Proof. destruct sel. reflexivity. Qed.

Lemma with_segments_same (sel : Selection) :
  with_segments sel (selected_segments sel) = sel.
Proof. destruct sel. reflexivity. Qed.

Lemma ctrl_pressed_true (state : Z) :
  Z.land state 4 <> 0%Z -> ctrl_pressed state = true.
Proof.
  intros H. unfold ctrl_pressed. apply negb_true_iff. now apply Z.eqb_neq.
Qed.

Lemma ctrl_pressed_false (state : Z) :
  Z.land state 4 = 0%Z -> ctrl_pressed state = false.
Proof. intros H. unfold ctrl_pressed. now rewrite H. Qed.

Lemma shift_pressed_true (state : Z) :
  Z.land state 1 <> 0%Z -> shift_pressed state = true.
Proof.
  intros H. unfold shift_pressed. apply negb_true_iff. now apply Z.eqb_neq.
Qed.

Lemma shift_pressed_false (state : Z) :
  Z.land state 1 = 0%Z -> shift_pressed state = false.
Proof. intros H. unfold shift_pressed. now rewrite H. Qed.

Lemma zone_mode (c : Canvas) :
  app_mode c = "zone"%string -> (app_mode c =? "zone")%string = true.
Proof. intros ->. reflexivity. Qed.

Lemma line_mode (c : Canvas) :
  app_mode c <> "zone"%string -> (app_mode c =? "zone")%string = false.
Proof. intros H. now apply String.eqb_neq. Qed.

(** A canvas in zone mode with two items, drawing the entities 7 and 8,
    and the same canvas in line mode, where the items draw two segments of
    entity 7. *)
Definition sample_zone_canvas : Canvas :=
  {| app_mode := "zone"; boundary_type_var := "outer";
     canvas_entities := [(1, 7); (2, 8)]; segment_entities := [] |}.

Definition sample_line_canvas : Canvas :=
  {| app_mode := "line"; boundary_type_var := "outer";
     canvas_entities := [];
     segment_entities := [(1, (7, 0)); (2, (7, 1))] |}.

Definition sample_selection : Selection :=
  {| selected_entities := [(7, false); (8, true)];
     selected_segments := [((7, 0), true); ((7, 1), true)] |}.

(** X16.  In zone mode a click with the Control key removes the clicked
    entity from the selection, whether or not Shift is held as well, and
    touches no other entry and no selected segment. *)
Theorem ctrl_click_deselects :
  forall (c : Canvas) (sel : Selection) (state : Z) (canvas_id entity : nat),
    app_mode c = "zone"%string ->
    dict_get Nat.eqb canvas_id (canvas_entities c) = Some entity ->
    Z.land state 4 <> 0%Z ->
    NoDup (map fst (selected_entities sel)) ->
    let sel' := handle_entity_click c sel state canvas_id in
    dict_get Nat.eqb entity (selected_entities sel') = None
    /\ (forall k, k <> entity ->
                  dict_get Nat.eqb k (selected_entities sel')
                  = dict_get Nat.eqb k (selected_entities sel))
    /\ selected_segments sel' = selected_segments sel.
Proof.
  intros c sel state canvas_id entity Hm Hc Hs Hn. cbv zeta.
  unfold handle_entity_click.
  rewrite (zone_mode c Hm), Hc, (ctrl_pressed_true state Hs).
  destruct (dict_in Nat.eqb entity (selected_entities sel)) eqn:E.
  - cbn [with_entities selected_entities selected_segments].
    split; [now apply dict_get_del_same; [apply Nat.eqb_spec|]|].
    split; [|reflexivity].
    intros k Hk. now apply dict_get_del_other; [apply Nat.eqb_spec|].
  - split; [now apply dict_in_get|]. split; reflexivity.
Qed.

Lemma ctrl_click_deselects_witness :
  let sel' := handle_entity_click sample_zone_canvas sample_selection 5 1 in
  dict_get Nat.eqb 7 (selected_entities sel') = None
  /\ (forall k, k <> 7 ->
                dict_get Nat.eqb k (selected_entities sel')
                = dict_get Nat.eqb k (selected_entities sample_selection))
  /\ selected_segments sel' = selected_segments sample_selection.
Proof.
  apply (ctrl_click_deselects sample_zone_canvas sample_selection 5 1 7).
  - reflexivity.
  - reflexivity.
  - discriminate.
  - repeat constructor; cbn; intuition discriminate.
Defined.

(** X17.  In zone mode a click without modifier toggles: on an entity that
    is not selected it selects it with the zone type currently chosen, and a
    second click gives back the selection as it was; on a selected entity
    it deselects it. *)
Theorem plain_click_toggles_entity :
  forall (c : Canvas) (sel : Selection) (state : Z) (canvas_id entity : nat),
    app_mode c = "zone"%string ->
    dict_get Nat.eqb canvas_id (canvas_entities c) = Some entity ->
    Z.land state 4 = 0%Z ->
    Z.land state 1 = 0%Z ->
    let once := handle_entity_click c sel state canvas_id in
    (dict_get Nat.eqb entity (selected_entities sel) = None ->
     dict_get Nat.eqb entity (selected_entities once)
     = Some (boundary_type_var c =? "outer")%string
     /\ handle_entity_click c once state canvas_id = sel)
    /\ (dict_get Nat.eqb entity (selected_entities sel) <> None ->
        NoDup (map fst (selected_entities sel)) ->
        dict_get Nat.eqb entity (selected_entities once) = None).
Proof.
  intros c sel state canvas_id entity Hm Hc Hs4 Hs1. cbv zeta.
  unfold handle_entity_click.
  rewrite (zone_mode c Hm), Hc, (ctrl_pressed_false state Hs4),
    (shift_pressed_false state Hs1).
  split.
  - intros Hnone. apply dict_in_get in Hnone. rewrite Hnone.
    cbn [with_entities selected_entities selected_segments].
    split; [apply dict_get_set_same, Nat.eqb_spec|].
    rewrite (dict_set_absent Nat.eqb entity _ _ Hnone).
    rewrite dict_in_appended by apply Nat.eqb_spec.
    rewrite dict_del_appended by (apply Nat.eqb_spec || exact Hnone).
    destruct sel. reflexivity.
  - intros Hsome Hn.
    destruct (dict_in Nat.eqb entity (selected_entities sel)) eqn:E.
    + cbn [with_entities selected_entities].
      now apply dict_get_del_same; [apply Nat.eqb_spec|].
    + apply dict_in_get in E. contradiction.
Qed.

Lemma sample_selection_keys :
  NoDup (map fst (selected_entities sample_selection))
  /\ NoDup (map fst (selected_segments sample_selection)).
Proof. split; repeat constructor; cbn; intuition discriminate. Qed.

Lemma plain_click_toggles_entity_witness :
  let sel := {| selected_entities := [(8, true)]; selected_segments := [] |} in
  (dict_get Nat.eqb 7
     (selected_entities (handle_entity_click sample_zone_canvas sel 0 1))
   = Some true
   /\ handle_entity_click sample_zone_canvas
        (handle_entity_click sample_zone_canvas sel 0 1) 0 1 = sel)
  /\ dict_get Nat.eqb 7
       (selected_entities
          (handle_entity_click sample_zone_canvas sample_selection 0 1))
     = None.
Proof.
  cbv zeta. split.
  - apply (proj1 (plain_click_toggles_entity sample_zone_canvas
                    {| selected_entities := [(8, true)];
                       selected_segments := [] |}
                    0 1 7 eq_refl eq_refl eq_refl eq_refl)).
    reflexivity.
  - apply (proj2 (plain_click_toggles_entity sample_zone_canvas
                    sample_selection 0 1 7 eq_refl eq_refl eq_refl eq_refl)).
    + discriminate.
    + apply sample_selection_keys.
Defined.

(** X18.  In line mode a click without modifier leaves at most the clicked
    segment selected, whatever was selected before: the clicked segment
    alone, or nothing when it was the only selected one.  A second click on
    it flips between these two; what was selected before the first click
    is not restored.  Selected entities are not touched. *)
Theorem line_click_selects_single_segment :
  forall (c : Canvas) (sel : Selection) (state : Z) (canvas_id : nat)
         (segment_key : nat * nat),
    app_mode c <> "zone"%string ->
    dict_get Nat.eqb canvas_id (segment_entities c) = Some segment_key ->
    Z.land state 4 = 0%Z ->
    Z.land state 1 = 0%Z ->
    let was_alone :=
      dict_in key_eqb segment_key (selected_segments sel)
      && (length (selected_segments sel) =? 1) in
    let once := handle_entity_click c sel state canvas_id in
    let twice := handle_entity_click c once state canvas_id in
    selected_segments once
    = (if was_alone then [] else [(segment_key, true)])
    /\ selected_segments twice
       = (if was_alone then [(segment_key, true)] else [])
    /\ selected_entities twice = selected_entities sel.
Proof.
  intros c sel state canvas_id segment_key Hm Hc Hs4 Hs1. cbv zeta.
  unfold handle_entity_click.
  rewrite (line_mode c Hm), Hc, (ctrl_pressed_false state Hs4),
    (shift_pressed_false state Hs1).
  destruct (dict_in key_eqb segment_key (selected_segments sel)
            && (length (selected_segments sel) =? 1));
    cbn [with_segments selected_segments selected_entities dict_in existsb
         length Nat.eqb andb fst orb].
  - repeat split.
  - destruct (key_eqb_spec segment_key segment_key); [|congruence].
    cbn [orb andb with_segments selected_segments selected_entities].
    repeat split.
Qed.

Lemma line_click_selects_single_segment_witness :
  selected_segments (handle_entity_click sample_line_canvas sample_selection 0 1)
  = [((7, 0), true)]
  /\ selected_segments
       (handle_entity_click sample_line_canvas
          (handle_entity_click sample_line_canvas sample_selection 0 1) 0 1)
     = []
  /\ selected_entities
       (handle_entity_click sample_line_canvas
          (handle_entity_click sample_line_canvas sample_selection 0 1) 0 1)
     = selected_entities sample_selection.
Proof.
  apply (line_click_selects_single_segment sample_line_canvas sample_selection
           0 1 (7, 0)).
  - discriminate.
  - reflexivity.
  - reflexivity.
  - reflexivity.
Defined.

(** X19.  In zone mode a click with Shift (and without Control) only adds:
    the clicked entity is selected with the zone type currently chosen,
    every other entry keeps its value, the keys keep their order, and a
    second such click changes nothing. *)
Theorem shift_click_adds :
  forall (c : Canvas) (sel : Selection) (state : Z) (canvas_id entity : nat),
    app_mode c = "zone"%string ->
    dict_get Nat.eqb canvas_id (canvas_entities c) = Some entity ->
    Z.land state 4 = 0%Z ->
    Z.land state 1 <> 0%Z ->
    let sel' := handle_entity_click c sel state canvas_id in
    dict_get Nat.eqb entity (selected_entities sel')
    = Some (boundary_type_var c =? "outer")%string
    /\ (forall k, k <> entity ->
                  dict_get Nat.eqb k (selected_entities sel')
                  = dict_get Nat.eqb k (selected_entities sel))
    /\ map fst (selected_entities sel')
       = (if dict_in Nat.eqb entity (selected_entities sel)
          then map fst (selected_entities sel)
          else map fst (selected_entities sel) ++ [entity])
    /\ handle_entity_click c sel' state canvas_id = sel'.
Proof.
  intros c sel state canvas_id entity Hm Hc Hs4 Hs1. cbv zeta.
  unfold handle_entity_click.
  rewrite (zone_mode c Hm), Hc, (ctrl_pressed_false state Hs4),
    (shift_pressed_true state Hs1).
  cbn [with_entities selected_entities selected_segments].
  split; [apply dict_get_set_same, Nat.eqb_spec|].
  split; [intros k Hk; now apply dict_get_set_other; [apply Nat.eqb_spec|]|].
  split.
  - destruct (dict_in Nat.eqb entity (selected_entities sel)) eqn:E.
    + now apply dict_set_keys.
    + rewrite (dict_set_absent Nat.eqb entity _ _ E), map_app. reflexivity.
  - now rewrite dict_set_idem by apply Nat.eqb_spec.
Qed.

Lemma shift_click_adds_witness :
  let sel' := handle_entity_click sample_zone_canvas sample_selection 1 1 in
  dict_get Nat.eqb 7 (selected_entities sel') = Some true
  /\ (forall k, k <> 7 ->
                dict_get Nat.eqb k (selected_entities sel')
                = dict_get Nat.eqb k (selected_entities sample_selection))
  /\ map fst (selected_entities sel') = [7; 8]
  /\ handle_entity_click sample_zone_canvas sel' 1 1 = sel'.
Proof.
  apply (shift_click_adds sample_zone_canvas sample_selection 1 1 7).
  - reflexivity.
  - reflexivity.
  - reflexivity.
  - discriminate.
Defined.

(** Whether one of the canvas items draws the entity [k]. *)
Definition draws_entity (c : Canvas) (items : list nat) (k : nat) : bool :=
  existsb (fun item =>
             match dict_get Nat.eqb item (canvas_entities c) with
             | Some entity => entity =? k
             | None => false
             end)
          items.

Lemma box_add_lookup (c : Canvas) (st : option Z) (items : list nat) :
  box_control_pressed st = false ->
  forall (sel : Selection) (k : nat),
    dict_get Nat.eqb k
      (selected_entities (select_entities_in_box c sel st items))
    = if draws_entity c items k
      then Some (boundary_type_var c =? "outer")%string
      else dict_get Nat.eqb k (selected_entities sel).
Proof.
  intros Hc. unfold select_entities_in_box. rewrite Hc.
  induction items as [|item items IH]; intros sel k; [reflexivity|].
  cbn [fold_left draws_entity existsb]. rewrite IH. fold (draws_entity c items k).
  destruct (draws_entity c items k); [now rewrite orb_true_r|].
  rewrite orb_false_r.
  destruct (dict_get Nat.eqb item (canvas_entities c)) as [entity|];
    [|reflexivity].
  cbn [with_entities selected_entities].
  destruct (Nat.eqb_spec entity k) as [->|Hne].
  - apply dict_get_set_same, Nat.eqb_spec.
  - apply dict_get_set_other; [apply Nat.eqb_spec | congruence].
Qed.

Lemma box_remove_lookup (c : Canvas) (st : option Z) (items : list nat) :
  box_control_pressed st = true ->
  forall (sel : Selection) (k : nat),
    NoDup (map fst (selected_entities sel)) ->
    dict_get Nat.eqb k
      (selected_entities (select_entities_in_box c sel st items))
    = if draws_entity c items k
      then None
      else dict_get Nat.eqb k (selected_entities sel).
Proof.
  intros Hc. unfold select_entities_in_box. rewrite Hc.
  induction items as [|item items IH]; intros sel k Hn; [reflexivity|].
  cbn [fold_left draws_entity existsb]. fold (draws_entity c items k).
  destruct (dict_get Nat.eqb item (canvas_entities c)) as [entity|];
    [|cbn [orb]; now apply IH].
  destruct (dict_in Nat.eqb entity (selected_entities sel)) eqn:E.
  - rewrite IH
      by (cbn [with_entities selected_entities];
          now apply dict_del_nodup).
    cbn [with_entities selected_entities].
    destruct (draws_entity c items k); [now rewrite orb_true_r|].
    rewrite orb_false_r.
    destruct (Nat.eqb_spec entity k) as [->|Hne].
    + now apply dict_get_del_same; [apply Nat.eqb_spec|].
    + apply dict_get_del_other; [apply Nat.eqb_spec | congruence].
  - rewrite IH by exact Hn.
    destruct (draws_entity c items k); [now rewrite orb_true_r|].
    rewrite orb_false_r.
    destruct (Nat.eqb_spec entity k) as [->|Hne]; [|reflexivity].
    now apply dict_in_get in E.
Qed.

(** X20.  After a box selection in zone mode every entity drawn by an item
    in the box is selected with the zone type currently chosen, also one
    that was selected with the other type before, and every other entity
    is selected or not exactly as before. *)
Theorem box_selection_selects_what_it_covers :
  forall (c : Canvas) (sel : Selection) (st : option Z) (items : list nat)
         (k : nat),
    box_control_pressed st = false ->
    dict_get Nat.eqb k
      (selected_entities (select_entities_in_box c sel st items))
    = if draws_entity c items k
      then Some (boundary_type_var c =? "outer")%string
      else dict_get Nat.eqb k (selected_entities sel).
Proof.
  intros c sel st items k Hc. now apply box_add_lookup.
Qed.

Lemma box_selection_selects_what_it_covers_witness :
  dict_get Nat.eqb 7
    (selected_entities
       (select_entities_in_box sample_zone_canvas sample_selection None [1; 3]))
  = Some true.
Proof.
  apply (box_selection_selects_what_it_covers sample_zone_canvas
           sample_selection None [1; 3] 7).
  reflexivity.
Defined.

(** X21.  After a box selection with the Control key no entity drawn by an
    item in the box is selected any more, and every other entity is
    selected or not exactly as before; nothing is ever added. *)
Theorem ctrl_box_selection_deselects_what_it_covers :
  forall (c : Canvas) (sel : Selection) (state : Z) (items : list nat)
         (k : nat),
    Z.land state 4 <> 0%Z ->
    NoDup (map fst (selected_entities sel)) ->
    dict_get Nat.eqb k
      (selected_entities (select_entities_in_box c sel (Some state) items))
    = if draws_entity c items k
      then None
      else dict_get Nat.eqb k (selected_entities sel).
Proof.
  intros c sel state items k Hs Hn.
  apply box_remove_lookup; [|exact Hn].
  cbn [box_control_pressed]. now apply ctrl_pressed_true.
Qed.

Lemma ctrl_box_selection_deselects_what_it_covers_witness :
  dict_get Nat.eqb 7
    (selected_entities
       (select_entities_in_box sample_zone_canvas sample_selection
          (Some 4%Z) [1; 3]))
  = None.
Proof.
  apply (ctrl_box_selection_deselects_what_it_covers sample_zone_canvas
           sample_selection 4 [1; 3] 7).
  - discriminate.
  - apply sample_selection_keys.
Defined.

(** A list without its element at a position. *)
Definition without_row {X : Type} (d : list X) (idx : nat) : list X :=
  firstn idx d ++ skipn (S idx) d.

Lemma without_row_beyond {X : Type} (d : list X) (idx : nat) :
  length d <= idx -> without_row d idx = d.
Proof.
  intros H. unfold without_row.
  rewrite firstn_all2 by exact H. rewrite skipn_all2 by lia.
  apply app_nil_r.
Qed.

(** X22.  [remove_selection] never raises: it removes exactly the entry
    shown in the selected row, leaving the other entries in their order,
    and changes nothing when the row is beyond the entries or no row is
    selected; in zone mode it works on the entities, otherwise on the
    segments. *)
Theorem remove_selection_removes_the_row :
  forall (c : Canvas) (sel : Selection) (idx : nat),
    NoDup (map fst (selected_entities sel)) ->
    NoDup (map fst (selected_segments sel)) ->
    remove_selection c sel None = Returned sel
    /\ remove_selection c sel (Some idx)
       = Returned
           (if (app_mode c =? "zone")%string
            then with_entities sel (without_row (selected_entities sel) idx)
            else with_segments sel (without_row (selected_segments sel) idx)).
Proof.
  intros c sel idx Hne Hns. split; [reflexivity|].
  unfold remove_selection, key_at.
  destruct (app_mode c =? "zone")%string.
  - destruct (Nat.ltb_spec idx (length (selected_entities sel))) as [Hlt|Hge].
    + destruct (nth_error (selected_entities sel) idx) as [[k v]|] eqn:Hnth.
      * cbn [bind fst].
        destruct (dict_at_position Nat.eqb Nat.eqb_spec _ _ _ _ Hne Hnth)
          as (_ & Hd & _).
        now rewrite Hd.
      * apply nth_error_None in Hnth. lia.
    + rewrite (without_row_beyond _ _ Hge). now rewrite with_entities_same.
  - destruct (Nat.ltb_spec idx (length (selected_segments sel))) as [Hlt|Hge].
    + destruct (nth_error (selected_segments sel) idx) as [[k v]|] eqn:Hnth.
      * cbn [bind fst].
        destruct (dict_at_position key_eqb key_eqb_spec _ _ _ _ Hns Hnth)
          as (_ & Hd & _).
        now rewrite Hd.
      * apply nth_error_None in Hnth. lia.
    + rewrite (without_row_beyond _ _ Hge). now rewrite with_segments_same.
Qed.

Lemma remove_selection_removes_the_row_witness :
  remove_selection sample_zone_canvas sample_selection None
  = Returned sample_selection
  /\ remove_selection sample_zone_canvas sample_selection (Some 0)
     = Returned {| selected_entities := [(8, true)];
                   selected_segments := [((7, 0), true); ((7, 1), true)] |}.
Proof.
  apply (remove_selection_removes_the_row sample_zone_canvas sample_selection 0);
    apply sample_selection_keys.
Defined.

Lemma split_at_position {X : Type} (l1 l2 : list X) (a : X) :
  firstn (length l1) (l1 ++ a :: l2) = l1
  /\ skipn (S (length l1)) (l1 ++ a :: l2) = l2
  /\ nth_error (l1 ++ a :: l2) (length l1) = Some a.
Proof.
  induction l1 as [|x l1 (IH1 & IH2 & IH3)]; [repeat split|].
  cbn [length List.app firstn skipn nth_error].
  split; [now rewrite IH1|]. split; assumption.
Qed.

(** Flipping the type of the entry at a row. *)
Lemma change_entity_type_row (c : Canvas) (segs : list ((nat * nat) * bool))
    (l1 l2 : list (nat * bool)) (entity : nat) (is_outer : bool) :
  app_mode c = "zone"%string ->
  NoDup (map fst (l1 ++ (entity, is_outer) :: l2)) ->
  change_entity_type c
    {| selected_entities := l1 ++ (entity, is_outer) :: l2;
       selected_segments := segs |}
    (Some (length l1))
  = Returned {| selected_entities := l1 ++ (entity, negb is_outer) :: l2;
                selected_segments := segs |}.
Proof.
  intros Hm Hn.
  destruct (split_at_position l1 l2 (entity, is_outer)) as (Hf & Hs & Hnth).
  destruct (dict_at_position Nat.eqb Nat.eqb_spec _ _ _ _ Hn Hnth)
    as (Hg & _ & Hset).
  unfold change_entity_type, key_at. rewrite (zone_mode c Hm).
  cbn [selected_entities]. rewrite Hnth.
  assert (He : is_empty (l1 ++ (entity, is_outer) :: l2) = false)
    by (destruct l1; reflexivity).
  rewrite He. cbn [negb orb bind fst]. rewrite Hg.
  unfold with_entities. cbn [selected_entities selected_segments].
  now rewrite Hset, Hf, Hs.
Qed.

(** X23.  [change_entity_type] on a row of the zone selection flips the
    zone type of that entry only, keeps every key in its place, and applied
    again to the same row gives back the selection as it was. *)
Theorem change_entity_type_flips_one_entry :
  forall (c : Canvas) (sel : Selection) (idx entity : nat) (is_outer : bool),
    app_mode c = "zone"%string ->
    NoDup (map fst (selected_entities sel)) ->
    nth_error (selected_entities sel) idx = Some (entity, is_outer) ->
    let sel' :=
      with_entities sel
        (firstn idx (selected_entities sel)
         ++ (entity, negb is_outer) :: skipn (S idx) (selected_entities sel)) in
    change_entity_type c sel (Some idx) = Returned sel'
    /\ change_entity_type c sel' (Some idx) = Returned sel.
Proof.
  intros c [d segs] idx entity is_outer Hm Hn Hnth. cbv zeta.
  cbn [selected_entities] in *.
  destruct (nth_error_split d idx Hnth) as (l1 & l2 & -> & <-).
  destruct (split_at_position l1 l2 (entity, is_outer)) as (Hf & Hs & _).
  rewrite Hf, Hs. unfold with_entities. cbn [selected_segments].
  split.
  - now apply change_entity_type_row.
  - rewrite <- (negb_involutive is_outer) at 2.
    apply change_entity_type_row; [exact Hm|].
    rewrite map_app in *. exact Hn.
Qed.

Lemma change_entity_type_flips_one_entry_witness :
  change_entity_type sample_zone_canvas sample_selection (Some 1)
  = Returned {| selected_entities := [(7, false); (8, false)];
                selected_segments := [((7, 0), true); ((7, 1), true)] |}
  /\ change_entity_type sample_zone_canvas
       {| selected_entities := [(7, false); (8, false)];
          selected_segments := [((7, 0), true); ((7, 1), true)] |} (Some 1)
     = Returned sample_selection.
Proof.
  apply (change_entity_type_flips_one_entry sample_zone_canvas sample_selection
           1 8 true).
  - reflexivity.
  - apply sample_selection_keys.
  - reflexivity.
Defined.

(* ================================================================== *)
(** * The net dropdown *)

Section NetDropdown.
(** [str.upper]. *)
Variable upper : string -> string.

(** [net_name.upper() == "GND"] *)
Definition is_gnd (net_name : string) : bool :=
  (upper net_name =? "GND")%string.

(** [list.sort()] on strings: ascending by code point. *)
Fixpoint insert_name (s : string) (l : list string) : list string :=
  match l with
  | [] => [s]
  | t :: l' => if String.leb s t then s :: t :: l' else t :: insert_name s l'
  end.

Definition sort_names (l : list string) : list string :=
  fold_right insert_name [] l.

(** Lines 442-461: [self.net_names] for the nets of the board, given by
    their names in the order [NetsByName().items()] yields them. *)
Definition net_names_of (names : list string) : list string :=
  let has_gnd := existsb is_gnd names in
  let net_names := filter (fun n => negb (is_gnd n)) names in
  let net_names := sort_names net_names in
  if has_gnd then "GND"%string :: net_names else net_names.

(** Lines 466-472: the entries of the dropdown and the one selected. *)
Definition dropdown_of (names : list string) : list string * string :=
  match net_names_of names with
  | [] => (["No nets found"%string], "No nets found"%string)
  | first :: rest => (first :: rest, first)
  end.

Lemma insert_name_perm (s : string) (l : list string) :
  Permutation (insert_name s l) (s :: l).
Proof.
  induction l as [|t l IH]; cbn [insert_name]; [reflexivity|].
  destruct (String.leb s t); [reflexivity|].
  rewrite IH. apply perm_swap.
Qed.

Lemma sort_names_perm (l : list string) : Permutation (sort_names l) l.
Proof.
  unfold sort_names. induction l as [|s l IH]; cbn [fold_right]; [reflexivity|].
  rewrite insert_name_perm. now constructor.
Qed.

Lemma insert_name_sorted (s : string) (l : list string) :
  Sorted (fun a b => String.leb a b = true) l ->
  Sorted (fun a b => String.leb a b = true) (insert_name s l).
Proof.
  induction l as [|t l IH]; intros Hs; cbn [insert_name].
  - repeat constructor.
  - destruct (String.leb s t) eqn:E.
    + constructor; [exact Hs|]. constructor. exact E.
    + assert (Hts : String.leb t s = true)
        by (destruct (String.leb_total s t); congruence).
      inversion Hs as [|? ? Hs' Hhd]; subst.
      constructor; [apply IH; exact Hs'|].
      destruct l as [|r l]; cbn [insert_name].
      * constructor. exact Hts.
      * destruct (String.leb s r); constructor; [exact Hts|].
        now inversion Hhd.
Qed.

Lemma sort_names_sorted (l : list string) :
  Sorted (fun a b => String.leb a b = true) (sort_names l).
Proof.
  unfold sort_names. induction l as [|s l IH]; cbn [fold_right]; [constructor|].
  apply insert_name_sorted. exact IH.
Qed.
End NetDropdown.

(** ASCII upper case, which is [str.upper] on ASCII names. *)
Fixpoint ascii_upper (s : string) : string :=
  match s with
  | EmptyString => EmptyString
  | String ch s' =>
      let n := Ascii.nat_of_ascii ch in
      String (if (97 <=? n) && (n <=? 122) then Ascii.ascii_of_nat (n - 32)
              else ch)
             (ascii_upper s')
  end.

(** X24.  The net list puts the entry [GND] first exactly when some net is
    called GND in any spelling of upper and lower case, leaves all such
    nets out of the rest, and the rest is the other net names in ascending
    order, each as often as it occurs; that first entry is what the
    dropdown selects. *)
Theorem net_names_gnd_first_then_sorted :
  forall (upper : string -> string) (names : list string),
    exists rest,
      net_names_of upper names
      = (if existsb (is_gnd upper) names then ["GND"%string] else []) ++ rest
      /\ Sorted (fun a b => String.leb a b = true) rest
      /\ Permutation rest (filter (fun n => negb (is_gnd upper n)) names)
      /\ Forall (fun n => upper n <> "GND"%string) rest
      /\ (existsb (is_gnd upper) names = true ->
          snd (dropdown_of upper names) = "GND"%string).
Proof.
  intros upper names.
  exists (sort_names (filter (fun n => negb (is_gnd upper n)) names)).
  split; [unfold net_names_of; destruct (existsb _ names); reflexivity|].
  split; [apply sort_names_sorted|].
  split; [apply sort_names_perm|].
  split.
  - apply Forall_forall. intros n Hn.
    apply (Permutation_in _ (sort_names_perm _)) in Hn.
    apply filter_In in Hn. destruct Hn as [_ Hn].
    apply negb_true_iff in Hn. unfold is_gnd in Hn.
    now apply String.eqb_neq.
  - intros Hg. unfold dropdown_of, net_names_of. rewrite Hg. reflexivity.
Qed.

Lemma net_names_gnd_first_then_sorted_witness :
  snd (dropdown_of ascii_upper ["VCC"; "gnd"; "+5V"; "Net-(R1-Pad1)"]%string)
  = "GND"%string.
Proof.
  destruct (net_names_gnd_first_then_sorted ascii_upper
              ["VCC"; "gnd"; "+5V"; "Net-(R1-Pad1)"]%string)
    as (rest & _ & _ & _ & _ & H).
  apply H. reflexivity.
Defined.

(** The dropdown for a board whose ground net is spelled [gnd]. *)
Example dropdown_sample :
  dropdown_of ascii_upper ["VCC"; "gnd"; "+5V"; "Net-(R1-Pad1)"]%string
  = (["GND"; "+5V"; "Net-(R1-Pad1)"; "VCC"]%string, "GND"%string).
Proof. vm_compute. reflexivity. Qed.

(* ================================================================== *)
(** * Board items: zones and tracks *)

(** The two conversions of pcbnew the program uses:
    [int(pcbnew.FromMM(float(x)))], and [pcbnew.wxPointMM(x, y)] read
    through its [x] and [y]. *)
Class Pcbnew (T : Type) : Type := {
  FromMM : T -> Z;
  wxPointMM : T -> T -> Z * Z
}.

(** [math.pi]. *)
Class Pi (T : Type) : Type := { math_pi : T }.

#[export] Instance R_pi : Pi R := {| math_pi := PI |}.

(** A [PCB_TRACK] as the program sets it up. *)
Record Track : Type := {
  track_start : Z * Z;
  track_end : Z * Z;
  track_layer : string;
  track_net : Z;
  track_width : Z
}.

(** A [ZONE] as the program sets it up: [zone_net] is [None] where
    [SetNetCode] is never called, the two flags are [False] where their
    setters are never called, and [zone_outline] lists the points appended
    to the one outline opened by [NewOutline]. *)
Record Zone : Type := {
  zone_layer : string;
  zone_net : option Z;
  zone_is_rule_area : bool;
  zone_do_not_allow_copper_pour : bool;
  zone_outline : list (Z * Z)
}.

(** What [board.Add] is given.  A board is the list of its items in the
    order they were added. *)
Inductive BoardItem : Type :=
| TrackItem (t : Track)
| ZoneItem (z : Zone).

Abbreviation Board := (list BoardItem) (only parsing).

Section Tracks.
Context {T : Type} {A : Arith T} {Tr : Trig T} {TD : TrigDomain T}
        {P : Pcbnew T}.
Local Open Scope num_scope.

(** The track every [create_track...] method builds between two points,
    on the front copper layer. *)
Definition new_track (start end_ : Point T) (net_code track_width : Z) : Track :=
  {| track_start := (FromMM (fst start), FromMM (snd start));
     track_end := (FromMM (fst end_), FromMM (snd end_));
     track_layer := "F_Cu";
     track_net := net_code;
     track_width := track_width |}.

(** Lines 1898-1915 and 1942-1959: one track for each pair of consecutive
    points, each added to the board and to [created_tracks]. *)
Definition tracks_between (pts : list (Point T)) (net_code track_width : Z)
  : list Track :=
  map (fun s : Segment T => new_track (fst s) (snd s) net_code track_width)
      (zip_next pts).

(** Lines 1873-1918: the board after the call, and the tracks returned.
    An infinite sample angle raises before any track is added. *)
Definition create_tracks_from_arc (board : Board)
    (center : Point T) (radius start_angle end_angle : T)
    (net_code track_width : Z) : result (Board * list Track) :=
  arc_pts <- arc_pts center radius start_angle end_angle ;;
  let created_tracks := tracks_between arc_pts net_code track_width in
  Returned (board ++ map TrackItem created_tracks, created_tracks).

(** Lines 1920-1962. *)
Definition create_tracks_from_circle (board : Board)
    (center : Point T) (radius : T) (net_code track_width : Z)
  : Board * list Track :=
  let circle_pts := circle_pts center radius in
  let created_tracks := tracks_between circle_pts net_code track_width in
  (board ++ map TrackItem created_tracks, created_tracks).

(** Lines 2028-2062.  The start point is computed first, then the end
    point; an infinite angle raises before the track is made. *)
Definition create_track_from_arc_segment (board : Board)
    (center : Point T) (radius start_angle end_angle : T) (segment_idx : nat)
    (net_code track_width : Z) : result (Board * Track) :=
  let end_angle := normalize_end start_angle end_angle in
  let segments_count := 24%nat in
  let angle_step :=
    (end_angle - start_angle) / num_of_int (Z.of_nat segments_count) in
  let segment_start_angle :=
    start_angle + num_of_int (Z.of_nat segment_idx) * angle_step in
  let segment_end_angle :=
    start_angle + num_of_int (Z.of_nat (segment_idx + 1)) * angle_step in
  start <- sample_point center radius (num_radians segment_start_angle) ;;
  end_ <- sample_point center radius (num_radians segment_end_angle) ;;
  let track := new_track start end_ net_code track_width in
  Returned (board ++ [TrackItem track], track).

(** Lines 1964-1997. *)
Definition create_track_from_circle_segment (board : Board)
    (center : Point T) (radius : T) (segment_idx : nat)
    (net_code track_width : Z) : Board * Track :=
  let segments_count := 36%nat in
  let angle_step := num_of_int 360 / num_of_int (Z.of_nat segments_count) in
  let start_angle := num_of_int (Z.of_nat segment_idx) * angle_step in
  let end_angle := num_of_int (Z.of_nat (segment_idx + 1)) * angle_step in
  let track :=
    new_track (point_at center radius (num_radians start_angle))
              (point_at center radius (num_radians end_angle))
              net_code track_width in
  (board ++ [TrackItem track], track).

(** Lines 2002-2013: the two ends the track will join, [None] for the
    [return None] of an invalid index.  [points[-1]] is the point at
    [len(points) - 1]. *)
Definition polyline_segment_ends (points : list (Point T)) (closed : bool)
    (segment_idx : nat) : option (Segment T) :=
  if (length points - 1 <=? segment_idx)%nat then
    if closed && negb (is_empty points) then
      match nth_error points (length points - 1), nth_error points 0 with
      | Some start, Some end_ => Some (start, end_)
      | _, _ => None
      end
    else None
  else
    match nth_error points segment_idx, nth_error points (segment_idx + 1) with
    | Some start, Some end_ => Some (start, end_)
    | _, _ => None
    end.

(** Lines 1999-2026. *)
Definition create_track_from_polyline_segment (board : Board)
    (points : list (Point T)) (closed : bool) (segment_idx : nat)
    (net_code track_width : Z) : Board * option Track :=
  match polyline_segment_ends points closed segment_idx with
  | Some (start, end_) =>
      let track := new_track start end_ net_code track_width in
      (board ++ [TrackItem track], Some track)
  | None => (board, None)
  end.
End Tracks.

Section Zones.
Context {T : Type} {A : Arith T} {Tr : Trig T} {P : Pcbnew T} {MP : Pi T}.
Local Open Scope num_scope.

(** [board.FindNet(net_name)] followed by [net.GetNetCode()]; [None] where
    the board has no net of that name. *)
Variable FindNet : string -> option Z.

(** The point of a circle at [2 * math.pi * k / num_points], through
    [wxPointMM] (lines 2234-2237 and 2263-2266). *)
Definition circle_outline_point (center : Point T) (radius : T) (k : nat)
  : Z * Z :=
  let num_points := 36%nat in
  let angle :=
    (num_of_int 2 * math_pi * num_of_int (Z.of_nat k))
    / num_of_int (Z.of_nat num_points) in
  let xy := point_at center radius angle in
  wxPointMM (fst xy) (snd xy).

(** Lines 2218-2246. *)
Definition create_zone_for_entity (entity : Entity T) (net_code : Z) : Zone :=
  let outline :=
    match entity with
    | CIRCLE center radius =>
        let num_points := 36%nat in
        map (circle_outline_point center radius) (seq 0 (num_points + 1))
    | LWPOLYLINE pts _ =>
        map (fun pt : Point T => wxPointMM (fst pt) (snd pt)) pts
    | _ => []
    end in
  {| zone_layer := "F_Cu";
     zone_net := Some net_code;
     zone_is_rule_area := false;
     zone_do_not_allow_copper_pour := false;
     zone_outline := outline |}.

(** Lines 2255-2276: the points of the cutout.  An entity that is neither a
    circle nor a light-weight polyline leaves [points] unbound, and a
    polyline without points fails at [points[0]]; either way the exception
    is raised before anything is added.  The wording of the first message
    depends on the interpreter; nothing reads it but a [print]. *)
Definition cutout_points (entity : Entity T) : result (list (Z * Z)) :=
  match entity with
  | CIRCLE center radius =>
      let num_points := 36%nat in
      let points :=
        map (fun i : nat =>
               circle_outline_point center radius (num_points - i - 1))
            (seq 0 num_points) in
      Returned (points ++ firstn 1 points)
  | LWPOLYLINE pts _ =>
      let points := map (fun pt : Point T => wxPointMM (fst pt) (snd pt)) pts in
      match nth_error points 0, nth_error points (length points - 1) with
      | Some first, Some last =>
          if negb (fst first =? fst last)%Z || negb (snd first =? snd last)%Z
          then Returned (points ++ [first])
          else Returned points
      | _, _ => Raised (Exception "list index out of range")
      end
  | _ => Raised (Exception "local variable 'points' referenced before assignment")
  end.

(** Lines 2248-2291: the board after the call. *)
Definition add_cutout_to_zone (board : Board) (zone : Zone) (entity : Entity T)
  : result Board :=
  points <- cutout_points entity ;;
  let keepout :=
    {| zone_layer := zone_layer zone;
       zone_net := None;
       zone_is_rule_area := true;
       zone_do_not_allow_copper_pour := true;
       zone_outline := points |} in
  Returned (board ++ [ZoneItem keepout]).

(** Lines 2293-2330: the board after the call.  A cutout that raises is
    reported and skipped (lines 2318-2322); the filler at the end fills the
    zones in place and adds no item. *)
Definition process_selections (board : Board)
    (selections : list (Entity T * bool)) (net_name : string) : Board :=
  if is_empty selections then board
  else
    match FindNet net_name with
    | None => board
    | Some net_code =>
        let outer_entities := map fst (filter snd selections) in
        let inner_entities :=
          map fst (filter (fun s => negb (snd s)) selections) in
        fold_left
          (fun board entity =>
             let zone := create_zone_for_entity entity net_code in
             let board :=
               fold_left
                 (fun board inner_entity =>
                    match add_cutout_to_zone board zone inner_entity with
                    | Returned board => board
                    | Raised _ => board
                    end)
                 inner_entities board in
             board ++ [ZoneItem zone])
          outer_entities board
    end.
End Zones.

(* ================================================================== *)
(** * Tracks made from single segments *)

Section ChordFacts.
Context {X : Type}.

Lemma zip_next_nth (l : list X) (i : nat) :
  nth_error (zip_next l) i =
  match nth_error l i, nth_error l (S i) with
  | Some a, Some b => Some (a, b)
  | _, _ => None
  end.
Proof.
  unfold zip_next. revert i.
  induction l as [|x l IH]; intros i.
  - destruct i; reflexivity.
  - destruct l as [|y l].
    + destruct i as [|[|i]]; reflexivity.
    + destruct i as [|i]; [reflexivity|].
      cbn [tl combine nth_error] in *. apply IH.
Qed.

Lemma nth_error_samples {Y : Type} (f : nat -> Y) (n i : nat) :
  (i < n)%nat -> nth_error (map f (seq 0 n)) i = Some (f i).
Proof.
  intros H. rewrite nth_error_map, nth_error_seq.
  apply Nat.ltb_lt in H. now rewrite H.
Qed.
End ChordFacts.

Section TrackFacts.
Context {T : Type} {A : Arith T} {Tr : Trig T} {TD : TrigDomain T}
        {P : Pcbnew T}.
Local Open Scope num_scope.

(** The sample point [i] of a circle. *)
Definition circle_sample (c : Point T) (r : T) (i : nat) : Point T :=
  point_at c r
    (num_radians
       (num_of_int (Z.of_nat i)
        * (num_of_int 360 / num_of_int (Z.of_nat 36)))).

(** The segments of an arc, one by one: segment [i] exists when no sample
    angle is infinite and [i < 24], and runs from sample [i] to sample
    [i + 1]. *)
Lemma arc_chord_nth (c : Point T) (r s e : T) (i : nat) (seg : Segment T) :
  nth_error (entity_segments (ARC c r s e)) i = Some seg ->
  existsb (fun k => math_domain_error (arc_angle s e k)) (seq 0 25) = false
  /\ (i < 24)%nat
  /\ seg = (point_at c r (arc_angle s e i), point_at c r (arc_angle s e (S i))).
Proof.
  cbn [entity_segments]. rewrite arc_pts_spec.
  destruct (existsb _ _) eqn:Hbad; [destruct i; discriminate|].
  rewrite zip_next_nth. intros H. split; [reflexivity|].
  destruct (Nat.lt_ge_cases i 24) as [Hlt|Hge].
  - rewrite !nth_error_samples in H by lia. split; [exact Hlt|].
    now inversion H.
  - exfalso.
    assert (Hout : nth_error
                     (map (fun k => point_at c r (arc_angle s e k)) (seq 0 25))
                     (S i) = None).
    { apply nth_error_None. rewrite length_map, length_seq. lia. }
    rewrite Hout in H. destruct (nth_error _ i); discriminate.
Qed.

Lemma arc_angle_returns (s e : T) (i : nat) :
  existsb (fun k => math_domain_error (arc_angle s e k)) (seq 0 25) = false ->
  (i < 25)%nat ->
  math_domain_error (arc_angle s e i) = false.
Proof.
  intros Hbad Hi.
  destruct (math_domain_error (arc_angle s e i)) eqn:E; [|reflexivity].
  assert (H : existsb (fun k => math_domain_error (arc_angle s e k)) (seq 0 25)
              = true).
  { apply existsb_exists. exists i. split; [apply in_seq; lia | exact E]. }
  congruence.
Qed.

Lemma circle_samples_nth (c : Point T) (r : T) (i : nat) :
  (i < 36)%nat ->
  nth_error (circle_samples c r) i = Some (circle_sample c r i).
Proof.
  intros H. unfold circle_samples. now rewrite nth_error_samples by lia.
Qed.

Lemma circle_chord_nth (c : Point T) (r : T) (i : nat) :
  (i < 35)%nat ->
  nth_error (zip_next (circle_pts c r)) i
  = Some (circle_sample c r i, circle_sample c r (S i)).
Proof.
  intros H. rewrite zip_next_nth. unfold circle_pts.
  rewrite !nth_error_app1 by (rewrite circle_samples_length; lia).
  now rewrite !circle_samples_nth by lia.
Qed.

Lemma circle_chord_closing (c : Point T) (r : T) :
  nth_error (zip_next (circle_pts c r)) 35
  = Some (circle_sample c r 35, circle_sample c r 0).
Proof.
  rewrite zip_next_nth. unfold circle_pts.
  rewrite nth_error_app1 by (rewrite circle_samples_length; lia).
  rewrite nth_error_app2 by (rewrite circle_samples_length; lia).
  rewrite circle_samples_length, circle_samples_nth by lia.
  reflexivity.
Qed.

Lemma tracks_between_nth (pts : list (Point T)) (net w : Z) (i : nat)
    (seg : Segment T) :
  nth_error (zip_next pts) i = Some seg ->
  nth_error (tracks_between pts net w) i
  = Some (new_track (fst seg) (snd seg) net w).
Proof.
  intros H. unfold tracks_between. now rewrite nth_error_map, H.
Qed.

Lemma arc_segment_track (board : Board) (c : Point T) (r s e : T) (i : nat)
    (net w : Z) :
  math_domain_error (arc_angle s e i) = false ->
  math_domain_error (arc_angle s e (S i)) = false ->
  create_track_from_arc_segment board c r s e i net w
  = Returned
      (board ++ [TrackItem (new_track (point_at c r (arc_angle s e i))
                              (point_at c r (arc_angle s e (S i))) net w)],
       new_track (point_at c r (arc_angle s e i))
                 (point_at c r (arc_angle s e (S i))) net w).
Proof.
  intros H0 H1. unfold create_track_from_arc_segment, sample_point.
  rewrite Nat.add_1_r.
  change (num_radians
            (num_add s
               (num_mul (num_of_int (Z.of_nat i))
                  (num_div (num_sub (normalize_end s e) s)
                     (num_of_int (Z.of_nat 24))))))
    with (arc_angle s e i).
  change (num_radians
            (num_add s
               (num_mul (num_of_int (Z.of_nat (S i)))
                  (num_div (num_sub (normalize_end s e) s)
                     (num_of_int (Z.of_nat 24))))))
    with (arc_angle s e (S i)).
  rewrite H0, H1. reflexivity.
Qed.

Lemma circle_segment_track (board : Board) (c : Point T) (r : T) (i : nat)
    (net w : Z) :
  create_track_from_circle_segment board c r i net w
  = (board ++ [TrackItem (new_track (circle_sample c r i)
                                    (circle_sample c r (S i)) net w)],
     new_track (circle_sample c r i) (circle_sample c r (S i)) net w).
Proof.
  unfold create_track_from_circle_segment, circle_sample.
  now rewrite Nat.add_1_r.
Qed.

(** X25.  Whatever segment the loader's tessellation of an arc has at
    position [idx], picking that segment on its own adds exactly one track
    to the board, between the ends of that segment, and converting the
    whole arc returns the same track at position [idx] of its tracks.
    (An arc with an infinite sample angle has no segment.) *)
Theorem arc_segment_track_matches_extraction
    (board : Board) (c : Point T) (r s e : T) (idx : nat) (seg : Segment T)
    (net w : Z) :
  nth_error (entity_segments (ARC c r s e)) idx = Some seg ->
  create_track_from_arc_segment board c r s e idx net w
  = Returned (board ++ [TrackItem (new_track (fst seg) (snd seg) net w)],
              new_track (fst seg) (snd seg) net w)
  /\ exists tracks,
       create_tracks_from_arc board c r s e net w
       = Returned (board ++ map TrackItem tracks, tracks)
       /\ nth_error tracks idx = Some (new_track (fst seg) (snd seg) net w).
Proof.
  intros H. pose proof H as Hseg.
  apply arc_chord_nth in H. destruct H as (Hbad & Hlt & ->).
  cbn [fst snd]. split.
  - apply arc_segment_track; apply arc_angle_returns; trivial; lia.
  - cbn [entity_segments] in Hseg. unfold create_tracks_from_arc.
    destruct (arc_pts c r s e) as [pts|ex]; [|destruct idx; discriminate].
    cbn [bind]. eexists. split; [reflexivity|].
    exact (tracks_between_nth _ _ _ _ _ Hseg).
Qed.

(** X26.  For a circle and each of its first 35 segments, in any
    arithmetic: the track made for segment [idx] alone is the track the
    whole circle gets at position [idx], between the ends of segment [idx]
    of the loader's tessellation. *)
Theorem circle_segment_track_matches_extraction
    (board : Board) (c : Point T) (r : T) (idx : nat) (net w : Z) :
  (idx < 35)%nat ->
  exists seg : Segment T,
    nth_error (entity_segments (CIRCLE c r)) idx = Some seg
    /\ create_track_from_circle_segment board c r idx net w
       = (board ++ [TrackItem (new_track (fst seg) (snd seg) net w)],
          new_track (fst seg) (snd seg) net w)
    /\ nth_error (snd (create_tracks_from_circle board c r net w)) idx
       = Some (new_track (fst seg) (snd seg) net w).
Proof.
  intros H.
  exists (circle_sample c r idx, circle_sample c r (S idx)).
  split; [|split].
  - cbn [entity_segments]. now apply circle_chord_nth.
  - apply circle_segment_track.
  - cbn [create_tracks_from_circle snd].
    apply (tracks_between_nth _ _ _ _ (_, _)). now apply circle_chord_nth.
Qed.

Lemma polyline_segment_ends_spec (pts : list (Point T)) (closed : bool)
    (idx : nat) (seg : Segment T) :
  nth_error (lwpolyline_segments pts closed) idx = Some seg ->
  polyline_segment_ends pts closed idx = Some seg.
Proof.
  unfold lwpolyline_segments, polyline_segment_ends.
  destruct (1 <? length pts)%nat eqn:Hlen.
  2:{ destruct idx; discriminate. }
  apply Nat.ltb_lt in Hlen.
  assert (Hne : is_empty pts = false)
    by (destruct pts; [cbn in Hlen; lia | reflexivity]).
  rewrite Hne. cbn [negb]. rewrite andb_true_r.
  rewrite zip_next_nth.
  destruct (length pts - 1 <=? idx)%nat eqn:Hidx.
  - apply Nat.leb_le in Hidx.
    destruct closed.
    + destruct (Nat.eq_dec idx (length pts - 1)) as [->|Hneq].
      * rewrite nth_error_app1 by lia.
        rewrite nth_error_app2 by lia.
        replace (S (length pts - 1) - length pts)%nat with 0%nat by lia.
        destruct pts as [|p pts]; [cbn in Hlen; lia|].
        cbn [firstn nth_error]. auto.
      * assert (Hge : (length pts <= idx)%nat) by lia.
        destruct (nth_error (pts ++ firstn 1 pts) idx) eqn:E1; [|discriminate].
        assert (Hout : nth_error (pts ++ firstn 1 pts) (S idx) = None).
        { apply nth_error_None. rewrite length_app, length_firstn. lia. }
        rewrite Hout. discriminate.
    + assert (Hout : nth_error pts (S idx) = None)
        by (apply nth_error_None; lia).
      rewrite Hout. destruct (nth_error pts idx); discriminate.
  - apply Nat.leb_gt in Hidx.
    rewrite Nat.add_1_r.
    destruct closed; [|auto].
    now rewrite !nth_error_app1 by lia.
Qed.

(** X27.  Whatever segment the loader's tessellation of a light-weight
    polyline has at position [idx] -- an ordinary one, or the closing one
    of a closed polyline -- picking that segment on its own adds exactly
    one track to the board, between the two ends of that segment. *)
Theorem polyline_segment_track_matches_extraction
    (board : Board) (pts : list (Point T)) (closed : bool) (idx : nat)
    (seg : Segment T) (net w : Z) :
  nth_error (entity_segments (LWPOLYLINE pts closed)) idx = Some seg ->
  create_track_from_polyline_segment board pts closed idx net w
  = (board ++ [TrackItem (new_track (fst seg) (snd seg) net w)],
     Some (new_track (fst seg) (snd seg) net w)).
Proof.
  cbn [entity_segments]. intros H.
  unfold create_track_from_polyline_segment.
  rewrite (polyline_segment_ends_spec _ _ _ _ H).
  now destruct seg.
Qed.
End TrackFacts.

(** A stand-in for pcbnew's conversions over the reals: millimetres to whole
    nanometres. *)
Definition nanometres (x : R) : Z := Int_part (x * 1000000)%R.

#[export] Instance real_pcbnew : Pcbnew R := {|
  FromMM := nanometres;
  wxPointMM := fun x y => (nanometres x, nanometres y)
|}.

(** Segment 3 of a quarter arc of radius 1 about the origin. *)
Definition sample_arc_segment : Segment R :=
  (point_at (0%R, 0%R) 1%R (arc_angle 0%R 90%R 3),
   point_at (0%R, 0%R) 1%R (arc_angle 0%R 90%R 4)).

Lemma arc_segment_track_matches_extraction_witness :
  create_track_from_arc_segment [] (0%R, 0%R) 1%R 0%R 90%R 3 7%Z 250000%Z
  = Returned
      ([] ++ [TrackItem (new_track (fst sample_arc_segment)
                           (snd sample_arc_segment) 7%Z 250000%Z)],
       new_track (fst sample_arc_segment) (snd sample_arc_segment)
                 7%Z 250000%Z)
  /\ exists tracks,
       create_tracks_from_arc [] (0%R, 0%R) 1%R 0%R 90%R 7%Z 250000%Z
       = Returned ([] ++ map TrackItem tracks, tracks)
       /\ nth_error tracks 3
          = Some (new_track (fst sample_arc_segment) (snd sample_arc_segment)
                            7%Z 250000%Z).
Proof.
  apply (arc_segment_track_matches_extraction
           [] (0%R, 0%R) 1%R 0%R 90%R 3 sample_arc_segment 7%Z 250000%Z).
  cbn [entity_segments]. rewrite arc_pts_real. reflexivity.
Defined.

Lemma circle_segment_track_matches_extraction_witness :
  exists seg : Segment R,
    nth_error (entity_segments (CIRCLE (0%R, 0%R) 1%R)) 34 = Some seg
    /\ create_track_from_circle_segment [] (0%R, 0%R) 1%R 34 7%Z 250000%Z
       = ([] ++ [TrackItem (new_track (fst seg) (snd seg) 7%Z 250000%Z)],
          new_track (fst seg) (snd seg) 7%Z 250000%Z)
    /\ nth_error
         (snd (create_tracks_from_circle [] (0%R, 0%R) 1%R 7%Z 250000%Z)) 34
       = Some (new_track (fst seg) (snd seg) 7%Z 250000%Z).
Proof.
  apply (circle_segment_track_matches_extraction
           [] (0%R, 0%R) 1%R 34 7%Z 250000%Z).
  lia.
Defined.

(** A closed triangle; its tessellation has three segments, the last one
    from the third corner back to the first. *)
Definition sample_triangle : list (Point R) :=
  [(0%R, 0%R); (4%R, 0%R); (4%R, 3%R)].

Lemma polyline_segment_track_matches_extraction_witness :
  nth_error (entity_segments (LWPOLYLINE sample_triangle true)) 2
  = Some ((4%R, 3%R), (0%R, 0%R))
  /\ create_track_from_polyline_segment [] sample_triangle true 2 7%Z 250000%Z
     = ([] ++ [TrackItem (new_track (4%R, 3%R) (0%R, 0%R) 7%Z 250000%Z)],
        Some (new_track (4%R, 3%R) (0%R, 0%R) 7%Z 250000%Z)).
Proof.
  split; [reflexivity|].
  apply (polyline_segment_track_matches_extraction
           [] sample_triangle true 2 ((4%R, 3%R), (0%R, 0%R)) 7%Z 250000%Z).
  reflexivity.
Defined.

(** X28.  The closing segment of a circle, number 35.  Converting the
    whole circle ends its last track at sample 0, which it appended again;
    picking segment 35 on its own ends the track at the point computed at
    36 steps, that is at 360 degrees.  Both tracks start at sample 35, so
    the two are the same track exactly when the point at 360 degrees and
    the point at 0 degrees convert to the same board coordinates. *)
Theorem closing_circle_segment_track :
  forall (T : Type) (A : Arith T) (Tr : Trig T) (P : Pcbnew T)
         (board : Board) (c : Point T) (r : T) (net w : Z),
    let angle := fun i : nat =>
      num_radians
        (num_mul (num_of_int (Z.of_nat i))
           (num_div (num_of_int 360) (num_of_int 36))) in
    let sample := fun i : nat =>
      (num_add (fst c) (num_mul r (math_cos (angle i))),
       num_add (snd c) (num_mul r (math_sin (angle i)))) in
    nth_error (snd (create_tracks_from_circle board c r net w)) 35
    = Some (new_track (sample 35) (sample 0) net w)
    /\ create_track_from_circle_segment board c r 35 net w
       = (board ++ [TrackItem (new_track (sample 35) (sample 36) net w)],
          new_track (sample 35) (sample 36) net w)
    /\ (new_track (sample 35) (sample 36) net w
        = new_track (sample 35) (sample 0) net w
        <-> FromMM (fst (sample 36)) = FromMM (fst (sample 0))
            /\ FromMM (snd (sample 36)) = FromMM (snd (sample 0))).
Proof.
  intros T A Tr P board c r net w angle sample. split; [|split].
  - cbn [create_tracks_from_circle snd].
    exact (tracks_between_nth _ _ _ _ (_, _) (circle_chord_closing c r)).
  - exact (circle_segment_track board c r 35 net w).
  - unfold new_track. split.
    + intros H. injection H as H1 H2. auto.
    + intros [H1 H2]. now rewrite H1, H2.
Qed.

(** In exact arithmetic they do: a full turn leads back to the point at 0
    degrees. *)
Lemma circle_sample_full_turn (c : Point R) (r : R) :
  circle_sample c r 36 = circle_sample c r 0.
Proof.
  unfold circle_sample, point_at.
  cbn [num_radians num_mul num_div num_add num_of_int R_arith
       math_cos math_sin R_trig].
  change (Z.of_nat 36) with 36%Z. change (Z.of_nat 0) with 0%Z.
  replace (36 * (360 / 36) * (PI / 180))%R with (0 + 2 * PI)%R by field.
  replace (0 * (360 / 36) * (PI / 180))%R with 0%R by field.
  rewrite Rplus_0_l, cos_2PI, sin_2PI, cos_0, sin_0. reflexivity.
Qed.

(* ================================================================== *)
(** * Zones and their keep-outs *)

(** The entities a keep-out can be cut from: circles, and light-weight
    polylines with at least one point. *)
Definition has_outline {T : Type} (e : Entity T) : bool :=
  match e with
  | CIRCLE _ _ => true
  | LWPOLYLINE pts _ => negb (is_empty pts)
  | _ => false
  end.

(** The selections marked inner that a keep-out can be cut from. *)
Definition cuttable_inner {T : Type} (s : Entity T * bool) : bool :=
  negb (snd s) && has_outline (fst s).

Section ZoneFacts.
Context {T : Type} {A : Arith T} {Tr : Trig T} {P : Pcbnew T} {MP : Pi T}.
Variable FindNet : string -> option Z.

Lemma cutout_points_outline (e : Entity T) :
  has_outline e = true -> exists pts, cutout_points e = Returned pts.
Proof.
  destruct e as [| | c r | pts closed | |]; cbn [has_outline]; try discriminate.
  - intros _. eexists. reflexivity.
  - destruct pts as [|p pts]; [discriminate|]. intros _.
    cbn [cutout_points map nth_error length].
    destruct (nth_error _ _) eqn:E.
    + destruct (_ || _); eexists; reflexivity.
    + exfalso. apply nth_error_None in E. cbn [length] in E. lia.
Qed.

Lemma cutout_points_no_outline (e : Entity T) :
  has_outline e = false -> exists ex, cutout_points e = Raised ex.
Proof.
  destruct e as [| | c r | pts closed | |]; cbn [has_outline]; try discriminate;
    try (intros _; eexists; reflexivity).
  destruct pts; [|discriminate]. intros _. eexists. reflexivity.
Qed.

Lemma add_cutout_length (board : Board) (zone : Zone) (e : Entity T) :
  length match add_cutout_to_zone board zone e with
         | Returned board' => board'
         | Raised _ => board
         end
  = (length board + (if has_outline e then 1 else 0))%nat.
Proof.
  unfold add_cutout_to_zone.
  destruct (has_outline e) eqn:H.
  - destruct (cutout_points_outline e H) as [pts ->]. cbn [bind].
    rewrite length_app. reflexivity.
  - destruct (cutout_points_no_outline e H) as [ex ->]. cbn [bind]. lia.
Qed.

Lemma cutouts_length (zone : Zone) (inner : list (Entity T)) (board : Board) :
  length (fold_left
            (fun board inner_entity =>
               match add_cutout_to_zone board zone inner_entity with
               | Returned board => board
               | Raised _ => board
               end)
            inner board)
  = (length board + length (filter has_outline inner))%nat.
Proof.
  revert board. induction inner as [|e inner IH]; intros board.
  - cbn. lia.
  - cbn [fold_left filter]. rewrite IH, add_cutout_length.
    destruct (has_outline e); cbn [length]; lia.
Qed.

Lemma inner_outlines (selections : list (Entity T * bool)) :
  length (filter has_outline
            (map fst (filter (fun s => negb (snd s)) selections)))
  = length (filter cuttable_inner selections).
Proof.
  induction selections as [|[e [|]] l IH]; [reflexivity| |].
  - cbn [filter snd negb]. unfold cuttable_inner at 1. cbn [snd negb andb].
    exact IH.
  - cbn [filter snd negb map fst]. unfold cuttable_inner at 1.
    cbn [snd fst negb andb].
    destruct (has_outline e); cbn [length]; now rewrite IH.
Qed.

(** X29.  On a board that has the net, processing a zone selection adds,
    for every entity marked outer, one zone and one keep-out per inner
    entity a keep-out can be cut from (a circle, or a light-weight polyline
    with points).  The keep-outs are made anew for each outer entity, so
    [k] outer and [m] such inner entities add [k * (1 + m)] items; inner
    entities of other kinds are skipped, and a selection without any outer
    entity adds nothing. *)
Theorem zone_processing_adds_zone_and_keepouts_per_outer
    (board : Board) (selections : list (Entity T * bool))
    (net_name : string) (net_code : Z) :
  FindNet net_name = Some net_code ->
  length (process_selections FindNet board selections net_name)
  = (length board
     + length (filter snd selections)
       * (1 + length (filter cuttable_inner selections)))%nat.
Proof.
  intros Hnet. unfold process_selections. rewrite Hnet.
  destruct (is_empty selections) eqn:Hempty.
  { destruct selections; [cbn; lia | discriminate]. }
  rewrite <- inner_outlines.
  rewrite <- (length_map fst (filter snd selections)).
  generalize (map fst (filter snd selections)) as outer.
  generalize (map fst (filter (fun s => negb (snd s)) selections)) as inner.
  intros inner outer. revert board.
  induction outer as [|e outer IH]; intros board.
  - cbn. lia.
  - cbn [fold_left length]. rewrite IH, length_app, cutouts_length.
    cbn [length]. lia.
Qed.

(** X30.  Whenever a keep-out is added for an inner entity, it is the one
    item the board gains, it is a rule area on the layer of its zone that
    forbids copper pour, and its outline is closed: the outline has a first
    point, and its last point is that same point. *)
Theorem keepout_outline_is_closed
    (board board' : Board) (zone : Zone) (entity : Entity T) :
  add_cutout_to_zone board zone entity = Returned board' ->
  exists keepout : Zone,
    board' = board ++ [ZoneItem keepout]
    /\ zone_is_rule_area keepout = true
    /\ zone_do_not_allow_copper_pour keepout = true
    /\ zone_layer keepout = zone_layer zone
    /\ exists p : Z * Z,
         nth_error (zone_outline keepout) 0 = Some p
         /\ nth_error (zone_outline keepout)
                      (length (zone_outline keepout) - 1) = Some p.
Proof.
  unfold add_cutout_to_zone.
  destruct (cutout_points entity) as [points|ex] eqn:Hpts;
    cbn [bind]; [|discriminate].
  intros H. injection H as <-.
  eexists. split; [reflexivity|]. cbn [zone_is_rule_area
    zone_do_not_allow_copper_pour zone_layer zone_outline].
  repeat (split; [reflexivity|]).
  destruct entity as [| | c r | pts closed | |]; cbn [cutout_points] in Hpts;
    try discriminate.
  - injection Hpts as <-.
    exists (circle_outline_point c r 35). split; reflexivity.
  - set (points' := map _ pts) in Hpts.
    destruct (nth_error points' 0) as [first|] eqn:Hfirst; [|discriminate].
    destruct (nth_error points' (length points' - 1)) as [last|] eqn:Hlast;
      [|discriminate].
    exists first.
    destruct (negb (fst first =? fst last)%Z || negb (snd first =? snd last)%Z)
      eqn:Hdiff; injection Hpts as <-.
    + assert (Hlen : (0 < length points')%nat).
      { apply nth_error_Some. now rewrite Hfirst. }
      split.
      * rewrite nth_error_app1 by exact Hlen. exact Hfirst.
      * rewrite length_app. cbn [length].
        rewrite nth_error_app2 by lia.
        replace (length points' + 1 - 1 - length points')%nat with 0%nat by lia.
        reflexivity.
    + split; [exact Hfirst|].
      apply orb_false_iff in Hdiff. destruct Hdiff as [Hx Hy].
      apply negb_false_iff, Z.eqb_eq in Hx.
      apply negb_false_iff, Z.eqb_eq in Hy.
      rewrite Hlast. f_equal.
      destruct first, last. cbn in *. congruence.
Qed.
End ZoneFacts.

(** A board with one net, [GND], of code 1. *)
Definition sample_nets (net_name : string) : option Z :=
  if String.eqb net_name "GND" then Some 1%Z else None.

(** A large circle marked outer, and inside it a small circle and a line,
    both marked inner. *)
Definition sample_zone_selection : list (Entity R * bool) :=
  [(CIRCLE (0%R, 0%R) 5%R, true);
   (CIRCLE (0%R, 0%R) 1%R, false);
   (LINE (0%R, 0%R) (1%R, 1%R), false)].

Lemma zone_processing_adds_zone_and_keepouts_per_outer_witness :
  sample_nets "GND" = Some 1%Z
  /\ length (process_selections sample_nets [] sample_zone_selection "GND")
     = 2%nat.
Proof.
  split; [reflexivity|].
  exact (zone_processing_adds_zone_and_keepouts_per_outer
           sample_nets [] sample_zone_selection "GND" 1%Z eq_refl).
Defined.

(** The zone of the large circle, and the board after the small circle is
    cut out of it. *)
Definition sample_zone : Zone :=
  create_zone_for_entity (CIRCLE (0%R, 0%R) 5%R) 1%Z.

Definition sample_cutout_board : Board :=
  match add_cutout_to_zone [] sample_zone (CIRCLE (0%R, 0%R) 1%R) with
  | Returned board => board
  | Raised _ => []
  end.

Lemma keepout_outline_is_closed_witness :
  exists keepout : Zone,
    sample_cutout_board = [] ++ [ZoneItem keepout]
    /\ zone_is_rule_area keepout = true
    /\ zone_do_not_allow_copper_pour keepout = true
    /\ zone_layer keepout = zone_layer sample_zone
    /\ exists p : Z * Z,
         nth_error (zone_outline keepout) 0 = Some p
         /\ nth_error (zone_outline keepout)
                      (length (zone_outline keepout) - 1) = Some p.
Proof.
  apply (keepout_outline_is_closed
           [] sample_cutout_board sample_zone (CIRCLE (0%R, 0%R) 1%R)).
  reflexivity.
Defined.
